(** * Conflict-aware merge engine of the Lhasa knowledge graph

    A shallow embedding of the conflict resolvers (conflict_experiment.py),
    the weight calculator (utils.py), the relationship conflict detector and
    the conflict queue reader (conflict_resolution.py) and the merge
    transaction (knowledge_graph_updater.py), with the properties the
    specification states about them.

    Conventions of the embedding:
    - a Python [float] is an exact rational ([Q]); rounding is not modelled;
    - a Python [str] is a [string]; [len] is [String.length], one character
      per code point;
    - a Python [dict] with a fixed set of optional keys is a record of
      [option] fields ([None] = key absent), an open-ended one a [gmap];
    - exceptions are the [Raise] results of the [result] monad;
    - [datetime.now()] is an explicit argument; [datetime.fromisoformat],
      [json.loads], [json.dumps], [str] of a dict and the embedding model are
      library code and enter as section variables. *)

From Stdlib Require Import ZArith QArith Qminmax Lqa Lia String Ascii List Bool
  Sorted.
From stdpp Require Import base option list gmap strings pretty.

Set Default Proof Using "Type".
Local Open Scope string_scope.
Local Open Scope list_scope.

(** ** Exceptions *)

Inductive exn : Type := TypeError | ValueError.

Inductive result (A : Type) : Type :=
| Ok (a : A)
| Raise (e : exn).
Arguments Ok {A} a.
Arguments Raise {A} e.

#[global] Instance result_ret : MRet result := fun A a => Ok a.
#[global] Instance result_bind : MBind result := fun A B f m =>
  match m with
  | Ok a => f a
  | Raise e => Raise e
  end.

(** [try: m except: d], for a handler that catches every exception [m] can
    raise. *)
Definition try_except {A} (m : result A) (d : A) : A :=
  match m with
  | Ok a => a
  | Raise _ => d
  end.

(** ** Python numbers *)

Module PyNum.

Definition Qltb (x y : Q) : bool := (Qnum x * QDen y <? Qnum y * QDen x)%Z.

(** [max(a, b)] keeps its first argument unless the second is greater;
    [min(a, b)] keeps its first argument unless the second is smaller. *)
Definition max (a b : Q) : Q := if Qltb a b then b else a.
Definition min (a b : Q) : Q := if Qltb b a then b else a.

(** [int / number]: true division. *)
Definition of_int (z : Z) : Q := inject_Z z.

End PyNum.

(** ** datetime *)

Module PyTime.

(** A [datetime] is its wall-clock fields, counted in microseconds from
    0001-01-01T00:00:00, and its UTC offset in microseconds when it is aware
    ([None] for a naive datetime). *)
Record datetime : Type := Datetime {
  wall : Z;
  utcoffset : option Z
}.

(** [datetime.min], a naive datetime. *)
Definition datetime_min : datetime := Datetime 0 None.

Definition naive (wall : Z) : datetime := Datetime wall None.

(** [a < b]: naive datetimes compare by their fields, aware ones by their
    UTC instants, and comparing a naive with an aware datetime raises
    TypeError. *)
Definition lt (a b : datetime) : result bool :=
  match utcoffset a, utcoffset b with
  | None, None => Ok (wall a <? wall b)%Z
  | Some oa, Some ob => Ok (wall a - oa <? wall b - ob)%Z
  | _, _ => Raise TypeError
  end.

(** [a - b], a timedelta in microseconds; mixing naive and aware raises
    TypeError. *)
Definition sub (a b : datetime) : result Z :=
  match utcoffset a, utcoffset b with
  | None, None => Ok (wall a - wall b)%Z
  | Some oa, Some ob => Ok ((wall a - oa) - (wall b - ob))%Z
  | _, _ => Raise TypeError
  end.

Definition us_per_day : Z := 86400000000.

(** [timedelta.days]: the normalised day count, rounding towards minus
    infinity. *)
Definition days (td : Z) : Z := (td / us_per_day)%Z.

(** [s.replace('Z', '+00:00')] *)
Fixpoint replace_Z (s : string) : string :=
  match s with
  | EmptyString => EmptyString
  | String c r =>
      if Ascii.eqb c "Z" then "+00:00" +:+ replace_Z r
      else String c (replace_Z r)
  end.

(** *** The seconds-precision fragment of [datetime.fromisoformat]

    [YYYY-MM-DDTHH:MM:SS], optionally followed by [+HH:MM] or [-HH:MM]: the
    shape of every timestamp in the repository's data.  It is used to run
    the code on concrete records; the general theorems quantify over the
    parser. *)

Definition digit (c : ascii) : option Z :=
  let n := nat_of_ascii c in
  if ((48 <=? n) && (n <=? 57))%nat then Some (Z.of_nat (n - 48)) else None.

Fixpoint number (cs : list ascii) (acc : Z) : option Z :=
  match cs with
  | [] => Some acc
  | c :: cs' =>
      match digit c with
      | Some d => number cs' (10 * acc + d)%Z
      | None => None
      end
  end.

Definition is_leap (y : Z) : bool :=
  ((y mod 4 =? 0) && (negb (y mod 100 =? 0) || (y mod 400 =? 0)))%Z.

Definition days_in_month (y m : Z) : Z :=
  if (m =? 2)%Z then (if is_leap y then 29 else 28)%Z
  else if ((m =? 4) || (m =? 6) || (m =? 9) || (m =? 11))%Z then 30%Z
  else 31%Z.

Definition days_before_year (y : Z) : Z :=
  let p := (y - 1)%Z in (p * 365 + p / 4 - p / 100 + p / 400)%Z.

(** Days of the year before the first of month [m] (1 for January). *)
Fixpoint days_before_month (y : Z) (m : nat) : Z :=
  match m with
  | O => 0%Z
  | S O => 0%Z
  | S m' => (days_before_month y m' + days_in_month y (Z.of_nat m'))%Z
  end.

(** Days from 0001-01-01 to the given date. *)
Definition day_number (y m d : Z) : Z :=
  (days_before_year y + days_before_month y (Z.to_nat m) + (d - 1))%Z.

Definition wall_of (y m d hh mm ss : Z) : Z :=
  (((day_number y m d * 24 + hh) * 60 + mm) * 60 + ss)%Z * 1000000.

Definition parse_offset (cs : list ascii) : option (option Z) :=
  match cs with
  | [] => Some None
  | [sg; h1; h2; c; m1; m2] =>
      if negb (Ascii.eqb c ":") then None else
      match number [h1; h2] 0, number [m1; m2] 0 with
      | Some h, Some m =>
          if negb ((h <? 24) && (m <? 60))%Z then None else
          let off := ((h * 60 + m) * 60 * 1000000)%Z in
          if Ascii.eqb sg "+" then Some (Some off)
          else if Ascii.eqb sg "-" then Some (Some (- off)%Z)
          else None
      | _, _ => None
      end
  | _ => None
  end.

Definition fromisoformat_seconds (s : string) : result datetime :=
  match list_ascii_of_string s with
  | y1 :: y2 :: y3 :: y4 :: d1 :: o1 :: o2 :: d2 :: a1 :: a2 :: _ ::
    h1 :: h2 :: c1 :: m1 :: m2 :: c2 :: s1 :: s2 :: rest =>
      match number [y1; y2; y3; y4] 0, number [o1; o2] 0, number [a1; a2] 0,
            number [h1; h2] 0, number [m1; m2] 0, number [s1; s2] 0,
            parse_offset rest with
      | Some y, Some mo, Some d, Some hh, Some mi, Some ss, Some off =>
          if (Ascii.eqb d1 "-" && Ascii.eqb d2 "-" && Ascii.eqb c1 ":"
              && Ascii.eqb c2 ":"
              && (1 <=? y)%Z && (1 <=? mo)%Z && (mo <=? 12)%Z
              && (1 <=? d)%Z && (d <=? days_in_month y mo)%Z
              && (hh <? 24)%Z && (mi <? 60)%Z && (ss <? 60)%Z)
          then Ok (Datetime (wall_of y mo d hh mi ss) off)
          else Raise ValueError
      | _, _, _, _, _, _, _ => Raise ValueError
      end
  | _ => Raise ValueError
  end.

End PyTime.

(** ** [sorted(xs, key=..., reverse=True)]

    A stable sort into descending key order: elements with equal keys keep
    their original order.  The comparison of two keys may raise, and then
    the sort raises.  The model is a stable insertion sort; on n >= 2 keys
    it raises exactly when CPython's list sort does, because both compare
    every new element with an element already placed. *)

Section Sorted.
Context {A K : Type}.
Variable key_lt : K -> K -> result bool.
Variable key : A -> K.

Fixpoint insert_desc (x : A) (l : list A) : result (list A) :=
    match l with
    | [] => Ok [x]
    | y :: l' =>
        b ← key_lt (key x) (key y);
        if b : bool then (r ← insert_desc x l'; Ok (y :: r))
        else Ok (x :: y :: l')
    end.

Fixpoint sorted_reverse (l : list A) : result (list A) :=
    match l with
    | [] => Ok []
    | x :: l' => s ← sorted_reverse l'; insert_desc x s
    end.
End Sorted.

(** [w] is a maximum of [m] over [l], and the first one in list order. *)
Definition first_max {A} (m : A -> Q) (l : list A) (w : A) : Prop :=
  exists l1 l2, l = l1 ++ w :: l2
    /\ Forall (fun x => m x < m w)%Q l1
    /\ Forall (fun x => m x <= m w)%Q l2.

(** On the elements of [l] the comparison of keys does not raise and is the
    order of the rational measure [m]. *)
Definition measured {A K} (key_lt : K -> K -> result bool) (key : A -> K)
  (m : A -> Q) (l : list A) : Prop :=
  forall x y, x ∈ l -> y ∈ l ->
    key_lt (key x) (key y) = Ok (PyNum.Qltb (m x) (m y)).

(** Descending order of the measure. *)
Definition descending {A} (m : A -> Q) (a b : A) : Prop := (m b <= m a)%Q.

(** ** Facts *)

(** [fact['source']]: [{type, url, weight}], every key optional. *)
Record provenance : Type := Provenance {
  type_ : option string;
  url : option string;
  weight : option Q
}.

(** A fact record; every key optional, as in a Python dict.  The empty dict
    [{}] is the record with no key. *)
Record fact : Type := Fact {
  entity_name : option string;
  attribute : option string;
  value : option string;
  source : option provenance;
  timestamp : option string
}.

Definition empty_source : provenance := Provenance None None None.
Definition empty_dict : fact := Fact None None None None None.

(** [fact.get('source', {}).get('weight', d)] *)
Definition source_weight (d : Q) (f : fact) : Q :=
  default d (weight (default empty_source (source f))).

(** [fact.get('source', {}).get('url', d)] *)
Definition source_url (d : string) (f : fact) : string :=
  default d (url (default empty_source (source f))).

(** [d[0]] of a list known to be non-empty (the index cannot fail there). *)
Definition first (l : list fact) : fact := default empty_dict (head l).

(** ** The three resolvers (conflict_experiment.py) *)

Module Resolver.

Import PyTime.

Definition Qlt (x y : Q) : result bool := Ok (PyNum.Qltb x y).

Definition resolve_conflict_weight_first (conflicting_facts : list fact)
  : result fact :=
  match conflicting_facts with
  | [] => Ok empty_dict
  | _ =>
      sorted_facts ← sorted_reverse Qlt (source_weight 0) conflicting_facts;
      Ok (first sorted_facts)
  end.

(** The per-candidate details of the hybrid explanation. *)
Record details : Type := Details {
  base_weight : Q;
  time_decay : Q;
  time_freshness : Q;
  content_quality : Q
}.

Record score_entry : Type := ScoreEntry {
  final_score : Q;
  entry_details : details
}.

(** The explanation dict: [reason], and [scores] when present. *)
Record explanation : Type := Explanation {
  reason : string;
  scores : option (gmap string score_entry)
}.

Inductive strategy : Type := WeightFirst | LatestFirst | Hybrid.

Section WithParser.
Variable fromisoformat : string -> result datetime.

  (** The inner function [parse_timestamp] of [resolve_conflict_latest_first]:
      the handler catches ValueError and TypeError. *)
Definition parse_timestamp (f : fact) : datetime :=
    let timestamp_str := default "" (timestamp f) in
    try_except
      (if negb (String.eqb timestamp_str "")
       then fromisoformat (replace_Z timestamp_str)
       else Ok datetime_min)
      datetime_min.

Definition resolve_conflict_latest_first (conflicting_facts : list fact)
    : result fact :=
    match conflicting_facts with
    | [] => Ok empty_dict
    | _ =>
        sorted_facts ← sorted_reverse lt parse_timestamp conflicting_facts;
        Ok (first sorted_facts)
    end.

  (** The time factors of one fact in [resolve_conflict_with_hybrid]:
      [(time_decay, time_freshness)].  [now] is [datetime.now()], a naive
      datetime. *)
Definition time_factors (now : datetime) (f : fact) : Q * Q :=
    let timestamp_str := default "" (timestamp f) in
    try_except
      (if negb (String.eqb timestamp_str "") then
         fact_time ← fromisoformat (replace_Z timestamp_str);
         delta ← sub now fact_time;
         let time_diff_days := PyNum.of_int (days delta) in
         Ok (PyNum.max 0.3 (1 - (time_diff_days / 30) * 0.15),
             1.0 - PyNum.min 1.0 (time_diff_days / 365) * 0.7)%Q
       else Ok (0.3, 0.3)%Q)
      (0.3, 0.3)%Q.

  (** One iteration of the scoring loop: the triple appended to
      [scored_facts]. *)
Definition score_fact (now : datetime) (f : fact) : fact * Q * details :=
    let base_weight := source_weight 0.5 f in
    let '(time_decay, time_freshness) := time_factors now f in
    let content_value := default "" (value f) in
    let content_quality :=
      (PyNum.min 1.0 (PyNum.of_int (Z.of_nat (String.length content_value)) / 200)
       * 0.5 + 0.5)%Q in
    let final_score :=
      (base_weight * 0.6 + time_freshness * 0.3 + content_quality * 0.1)%Q in
    (f, final_score,
     Details base_weight time_decay time_freshness content_quality).

  (** The key of a candidate in [explanation['scores']]: its source url, or
      [事实i] with [i] its position in score order. *)
Definition score_key (i : nat) (f : fact) : string :=
    source_url ("事实" +:+ pretty i) f.

  (** The dict comprehension over [enumerate(sorted_facts)]: a later
      candidate with the same key replaces the earlier entry. *)
Fixpoint scores_dict (i : nat) (sorted_facts : list (fact * Q * details))
    (acc : gmap string score_entry) : gmap string score_entry :=
    match sorted_facts with
    | [] => acc
    | (f, score, d) :: rest =>
        scores_dict (S i) rest (<[score_key i f := ScoreEntry score d]> acc)
    end.

Definition resolve_conflict_with_hybrid (now : Z)
    (conflicting_facts : list fact) : result (fact * explanation) :=
    match conflicting_facts with
    | [] => Ok (empty_dict, Explanation "没有提供冲突事实" None)
    | _ =>
        let scored_facts := map (score_fact (naive now)) conflicting_facts in
        sorted_facts ← sorted_reverse Qlt (fun x => x.1.2) scored_facts;
        let winning_fact := default empty_dict (head (map (fun x => x.1.1) sorted_facts)) in
        Ok (winning_fact,
            Explanation "基于综合评分选择的获胜事实"
              (Some (scores_dict 0 sorted_facts ∅)))
    end.

(** The three interchangeable strategies in the uniform shape
    [(winner, explanation)] of the experiment driver: the explanation is
    [None] for the two strategies that return the winner alone. *)
Definition resolve (s : strategy) (now : Z) (conflicting_facts : list fact)
  : result (fact * option explanation) :=
  match s with
  | WeightFirst =>
      w ← resolve_conflict_weight_first conflicting_facts; Ok (w, None)
  | LatestFirst =>
      w ← resolve_conflict_latest_first conflicting_facts; Ok (w, None)
  | Hybrid =>
      r ← resolve_conflict_with_hybrid now conflicting_facts;
      Ok (r.1, Some r.2)
  end.

End WithParser.

End Resolver.


(** ** The hybrid score as the specification words it *)

Module HybridSpec.

Import PyTime Resolver.
Local Open Scope Q_scope.

(** [time_freshness = 1.0 - min(1, age_days/365)*0.7], and 0.3 for a fact
    without a usable timestamp. *)
Definition claimed_time_freshness (age_days : option Z) : Q :=
  match age_days with
  | Some d => 1 - Qmin 1 (inject_Z d / 365) * 0.7
  | None => 0.3
  end.

(** [content_quality = min(1, len(value_text)/200)*0.5 + 0.5] *)
Definition claimed_content_quality (len : nat) : Q :=
  Qmin 1 (inject_Z (Z.of_nat len) / 200) * 0.5 + 0.5.

(** [0.6*base_weight + 0.3*time_freshness + 0.1*content_quality] *)
Definition claimed_score (base_weight time_freshness content_quality : Q) : Q :=
  0.6 * base_weight + 0.3 * time_freshness + 0.1 * content_quality.

Section WithParser.
Variable fromisoformat : string -> result datetime.

(** The age in whole days of a fact whose timestamp parses to a naive
    datetime; [None] when the timestamp is missing, empty or unparsable. *)
Definition age_days (now : Z) (f : fact) : option Z :=
  match timestamp f with
  | None => None
  | Some s =>
      if String.eqb s "" then None else
      match fromisoformat (replace_Z s) with
      | Ok t => Some (days (now - wall t))
      | Raise _ => None
      end
  end.

(** The timestamp of [f], if any, does not parse to an aware datetime. *)
Definition timezone_free (f : fact) : Prop :=
  forall s t, timestamp f = Some s ->
    fromisoformat (replace_Z s) = Ok t -> utcoffset t = None.

(** The timestamp of [f] is missing, empty or unparsable. *)
Definition unusable_timestamp (f : fact) : Prop :=
  default "" (timestamp f) = ""
  \/ exists e, fromisoformat (replace_Z (default "" (timestamp f))) = Raise e.

(** The final score the code gives a fact. *)
Definition score (now : Z) (f : fact) : Q :=
  (score_fact fromisoformat (naive now) f).1.2.

(** The entry the code builds for a scored candidate. *)
Definition entry_of (c : fact * Q * details) : score_entry :=
  ScoreEntry c.1.2 c.2.

(** Two entries carry the same final score and the same three components. *)
Definition same_entry (e e' : score_entry) : Prop :=
  final_score e == final_score e'
  /\ base_weight (entry_details e) == base_weight (entry_details e')
  /\ time_freshness (entry_details e) == time_freshness (entry_details e')
  /\ content_quality (entry_details e) == content_quality (entry_details e').

(** The explanation reports candidate [f]: some key carries its final score
    and its components. *)
Definition reported (now : Z) (m : gmap string score_entry) (f : fact) : Prop :=
  exists k e, m !! k = Some e /\
    same_entry e (entry_of (score_fact fromisoformat (naive now) f)).

End WithParser.

End HybridSpec.

(** ** Records used to run the resolvers *)

Module Scenario.

Import PyTime.
Local Open Scope Q_scope.

Definition candidate (v u : string) (w : option Q) (ts : option string) : fact :=
  Fact (Some "Tashilhunpo") (Some "opening hours") (Some v)
       (Some (Provenance (Some "travel_guide") (Some u) w)) ts.

(** A fact stamped in UTC and a fact without a timestamp. *)
Definition dated_utc : fact :=
  candidate "09:00-18:00" "http://travel-blog.com/lhasa/palace" (Some 0.4)
            (Some "2023-05-20T09:15:00Z").
Definition undated : fact :=
  candidate "09:00-17:00" "http://gov.cn/palace_info" (Some 0.9) None.
Definition misdated : fact :=
  candidate "09:00-17:00" "http://gov.cn/palace_info" (Some 0.9)
            (Some "last spring").

(** Explicit weight 0.4 against no weight at all. *)
Definition weighted_04 : fact :=
  candidate "09:00-18:00" "http://travel.com/temple" (Some 0.4)
            (Some "2021-03-10T10:20:00Z").
Definition weighted_06 : fact :=
  candidate "09:00-18:00" "http://travel.com/temple" (Some 0.6)
            (Some "2021-03-10T10:20:00Z").
Definition unweighted : fact :=
  candidate "09:00-17:00" "http://visit-tibet.com/jokhang" None
            (Some "2021-03-10T10:20:00Z").

(** Equal weights, equal-length values, timestamps three years apart. *)
Definition older : fact :=
  candidate "09:00-17:00" "http://travel-guide.com/shigatse" (Some 0.7)
            (Some "2020-06-10T11:30:00").
Definition newer : fact :=
  candidate "09:00-18:00" "http://tourist-handbook.com/shigatse" (Some 0.7)
            (Some "2023-10-05T15:20:00").

(** Two versions of one page: the same url. *)
Definition page_v1 : fact :=
  candidate "Mon Wed Fri 15:00" "http://sera-monastery.org/info" (Some 0.9)
            (Some "2022-03-10T08:15:00").
Definition page_v2 : fact :=
  candidate "Mon-Fri 15:00" "http://sera-monastery.org/info" (Some 0.8)
            (Some "2023-09-28T11:45:00").

(** Clock readings. *)
Definition at_2024_01_01 : Z := wall_of 2024 1 1 0 0 0.
Definition at_2026_11_04 : Z := wall_of 2026 11 4 0 0 0.

End Scenario.

(** ** utils.py *)

Module Utils.

Import PyTime.
Local Open Scope Q_scope.

(** A value of the metrics bundle: a number, or something that is not
    one. *)
Inductive metric : Type :=
| Number (q : Q)
| Text (s : string).

(** [v / 5.0]: dividing what is not a number raises TypeError. *)
Definition true_div (v : metric) (d : Q) : result Q :=
  match v with
  | Number q => Ok (q / d)
  | Text _ => Raise TypeError
  end.

(** [datetime.now().astimezone()]: an aware datetime, from the wall clock
    and the local UTC offset. *)
Definition aware (wall offset : Z) : datetime := Datetime wall (Some offset).

Section WithLibraries.
Variable fromisoformat : string -> result datetime.

(** [float(embeddings[0] @ embeddings[1].T)] of [model.encode([t1, t2])];
    the model may raise. *)
Variable encode_dot : string -> string -> result Q.

Definition compute_semantic_similarity (text1 text2 : string) : Q :=
  try_except
    (if String.eqb text1 "" || String.eqb text2 "" then Ok 0.0
     else
       similarity ← encode_dot text1 text2;
       Ok (PyNum.max 0.0 (PyNum.min 1.0 similarity)))
    0.0.

Definition compute_dynamic_weight (now : datetime)
  (data : gmap string string) (metrics : gmap string metric) : Q :=
  try_except
    (base_weight ← true_div (default (Number 0.0) (metrics !! "ratings")) 5.0;
     let base_weight :=
       if decide (data !! "source_type" = Some "crawler") then base_weight * 0.8
       else if decide (data !! "source_type" = Some "manual") then base_weight * 1.0
       else base_weight in
     let timestamp := default "" (data !! "pub_timestamp") in
     base_weight ←
       (if negb (String.eqb timestamp "") then
          timestamp_date ← fromisoformat (replace_Z timestamp);
          delta ← sub now timestamp_date;
          let age_days := days delta in
          let freshness := PyNum.max 0.0 (1.0 - PyNum.of_int age_days / 365.0) in
          Ok (base_weight * freshness)
        else Ok base_weight);
     Ok (PyNum.max 0.0 (PyNum.min 1.0 base_weight)))
    0.0.

End WithLibraries.

(** [normalize_location]: the counties of Lhasa map to the city. *)
Definition CITY_MAP : gmap string string :=
  {[ "拉萨市" := "拉萨市"; "当雄县" := "拉萨市"; "墨竹工卡县" := "拉萨市";
     "林周县" := "拉萨市"; "尼木县" := "拉萨市"; "曲水县" := "拉萨市" ]}.

Definition normalize_location (location : string) : string :=
  default location (CITY_MAP !! location).

End Utils.

(** ** The weight as the specification words it *)

Module WeightSpec.

Local Open Scope Q_scope.

(** [clamp(x, 0, 1)] *)
Definition clamp01 (x : Q) : Q := Qmax 0 (Qmin 1 x).

(** crawler-sourced: 0.8, manually-curated: 1.0, unspecified: 1.0 *)
Definition source_multiplier (source_type : option string) : Q :=
  match source_type with
  | Some s => if String.eqb s "crawler" then 0.8 else 1
  | None => 1
  end.

(** [freshness = max(0, 1 - age_days/365)] *)
Definition freshness (age_days : Z) : Q := Qmax 0 (1 - inject_Z age_days / 365).

(** [clamp(rating/5, 0, 1) * multiplier * freshness] *)
Definition claimed_weight (rating : Q) (source_type : option string)
  (age_days : Z) : Q :=
  clamp01 (rating / 5) * source_multiplier source_type * freshness age_days.

End WeightSpec.

(** ** conflict_resolution.py *)

Module ConflictResolver.

Local Open Scope Q_scope.

(** A relationship record, as [get_relationships] returns it and
    [process_json_chunk] builds it. *)
Record relationship (P : Type) : Type := Relationship {
  source_name : string;
  target_name : string;
  type : string;
  properties : P
}.
Arguments Relationship {P}.
Arguments source_name {P}.
Arguments target_name {P}.
Arguments type {P}.
Arguments properties {P}.

Section CheckRelationshipConflict.
Context {P : Type}.
Variable json_dumps : P -> string.
Variable encode_dot : string -> string -> result Q.

(** The three-part condition of the loop body. *)
Definition same_edge (rel existing : relationship P) : bool :=
  String.eqb (source_name rel) (source_name existing)
  && String.eqb (target_name rel) (target_name existing)
  && String.eqb (type rel) (type existing).

Definition similarity_of (rel existing : relationship P) : Q :=
  Utils.compute_semantic_similarity encode_dot
    (json_dumps (properties rel)) (json_dumps (properties existing)).

Fixpoint check_relationship_conflict (rel : relationship P)
  (existing_rels : list (relationship P)) : bool :=
  match existing_rels with
  | [] => false
  | existing :: rest =>
      if same_edge rel existing then
        let similarity := similarity_of rel existing in
        if PyNum.Qltb 0.7 similarity then true
        else check_relationship_conflict rel rest
      else check_relationship_conflict rel rest
  end.

End CheckRelationshipConflict.

(** *** The conflict queue file *)






Section GetConflictLog.
Context {J : Type}.

(** [json.loads]; [None] is JSONDecodeError. *)
Variable json_loads : string -> option J.



End GetConflictLog.


End ConflictResolver.

(** ** Inputs used to run the weight calculator, the detector and the queue
    reader *)

Module Scenario2.

Import PyTime Utils ConflictResolver.
Local Open Scope Q_scope.

(** A crawler record rated 10, stamped at the reading of the clock. *)
Definition crawled : gmap string string :=
  {[ "source_type" := "crawler"; "pub_timestamp" := "2024-01-01T00:00:00Z" ]}.
Definition rated_10 : gmap string metric := {[ "ratings" := Number 10 ]}.
Definition rated_4 : gmap string metric := {[ "ratings" := Number 4 ]}.
Definition utc_2024_01_01 : datetime := aware (wall_of 2024 1 1 0 0 0) 0.



End Scenario2.

(** ** The graph store

    The part of Cypher the merge transaction uses, over a property graph
    whose nodes and relationships are kept in creation order; a node is
    referred to by its position. *)

Module Neo4j.

Record node : Type := Node {
  label : string;
  node_props : gmap string string
}.

Record stored_rel : Type := Rel {
  start_node : nat;
  rel_type : string;
  end_node : nat;
  rel_props : gmap string string
}.

Record graph : Type := Graph {
  nodes : list node;
  relationships : list stored_rel
}.

Definition empty : graph := Graph [] [].

(** The pattern [(n:label {name: $name})]. *)
Definition matches (l name : string) (n : node) : bool :=
  String.eqb (label n) l
  && bool_decide (node_props n !! "name" = Some name).

(** [SET n += $props]: the given properties replace or extend the stored
    ones. *)
Definition set_node (props : gmap string string) (n : node) : node :=
  Node (label n) (props ∪ node_props n).

(** The positions, from [i] on, of the nodes that match. *)
Fixpoint bound_from (i : nat) (l name : string) (ns : list node) : list nat :=
  match ns with
  | [] => []
  | n :: rest =>
      if matches l name n then i :: bound_from (S i) l name rest
      else bound_from (S i) l name rest
  end.

(** [MATCH (n:label {name: $name})]: the rows. *)
Definition match_nodes (l name : string) (g : graph) : list nat :=
  bound_from 0 l name (nodes g).

(** [MERGE (n:label {name: $name}) SET n += $props RETURN n]: every node
    that matches is updated; when none matches one is created.  The result
    is the new graph and the rows returned. *)
Definition merge_node (l name : string) (props : gmap string string)
  (g : graph) : graph * list nat :=
  match match_nodes l name g with
  | [] =>
      (Graph (nodes g ++ [set_node props (Node l {[ "name" := name ]})])
             (relationships g),
       [length (nodes g)])
  | rows =>
      (Graph (map (fun n => if matches l name n then set_node props n else n)
                  (nodes g))
             (relationships g),
       rows)
  end.

(** The pattern [(a)-[r:type]->(c)] for bound [a] and [c]. *)
Definition connects (a : nat) (t : string) (c : nat) (r : stored_rel) : bool :=
  Nat.eqb (start_node r) a && String.eqb (rel_type r) t && Nat.eqb (end_node r) c.

Definition set_rel (props : gmap string string) (r : stored_rel)
  : stored_rel :=
  Rel (start_node r) (rel_type r) (end_node r) (props ∪ rel_props r).

(** [MERGE (a)-[r:type]->(c) SET r += $props] for one row [(a, c)]. *)
Definition merge_rel (t : string) (props : gmap string string)
  (rs : list stored_rel) (row : nat * nat) : list stored_rel :=
  if existsb (connects row.1 t row.2) rs
  then map (fun r => if connects row.1 t row.2 r then set_rel props r else r) rs
  else rs ++ [Rel row.1 t row.2 props].

(** [MATCH (a:la {name: $na}) MATCH (c:lc {name: $nc})
     MERGE (a)-[r:type]->(c) SET r += $props RETURN r]: one merge per row of
    the two matches. *)
Definition merge_relationship (la na t lc nc : string)
  (props : gmap string string) (g : graph) : graph :=
  let rows := a ← match_nodes la na g; c ← match_nodes lc nc g; [(a, c)] in
  Graph (nodes g) (foldl (merge_rel t props) (relationships g) rows).

(** [result.single()]: the first row, if any. *)
Definition single (rows : list nat) : option nat := head rows.

(** The properties [props] are already stored on every node that matches,
    and some node matches: merging them again changes nothing. *)
Definition settled (l name : string) (props : gmap string string)
  (ns : list node) : Prop :=
  (exists n, n ∈ ns /\ matches l name n = true)
  /\ forall n, n ∈ ns -> matches l name n = true ->
       props ∪ node_props n = node_props n.

(** The same for the relationships of one row. *)
Definition rel_settled (t : string) (props : gmap string string)
  (rs : list stored_rel) (row : nat * nat) : Prop :=
  (exists r, r ∈ rs /\ connects row.1 t row.2 r = true)
  /\ forall r, r ∈ rs -> connects row.1 t row.2 r = true ->
       props ∪ rel_props r = rel_props r.

End Neo4j.

(** ** knowledge_graph_updater.py *)

Module KnowledgeGraphUpdater.

Import Neo4j.

(** [preprocess_data] *)
Definition preprocess_data (data : gmap string string) : gmap string string :=
  if decide (data !! "name" = Some "纳木错") then <["name" := "纳木措"]> data
  else data.

Section Updater.
Context {W : Type}.

(** [str(weights)] *)
Variable str : W -> string.

(** The dict [attraction_data]; [now] is
    [datetime.now(timezone(timedelta(hours=8))).isoformat()]. *)
Definition attraction_data (now : string) (data : gmap string string)
  : gmap string string :=
  {[ "name" := default "" (data !! "name");
     "location" := default "拉萨市" (data !! "location");
     "address" := default "" (data !! "address");
     "description" :=
       default ("Description for " +:+ default "Unknown" (data !! "name"))
               (data !! "description");
     "pub_timestamp" := default (now +:+ "+08:00") (data !! "pub_timestamp");
     "best_comment" := default "" (data !! "best_comment");
     "source_type" := default "crawler" (data !! "source_type");
     "metrics" := default "{}" (data !! "metrics");
     "ranking" := default "" (data !! "ranking");
     "visitor_percentage" := default "" (data !! "visitor_percentage") ]}.

(** The dict [log_data]; [now] is the clock reading of the log entry. *)
Definition log_data (now : string) (name log_id reason : string) (weights : W)
  : gmap string string :=
  {[ "name" := log_id;
     "log_id" := log_id;
     "entity_name" := name;
     "reason" := reason;
     "weights" := str weights;
     "timestamp" := now ]}.

(** [tx_work]: the transaction function, as a function of the graph.
    [now1] and [now2] are the two readings of the clock. *)
Definition tx_work (now1 now2 : string) (g : graph)
  (data : gmap string string) (reason log_id : string) (weights : W) : graph :=
  let attraction := attraction_data now1 data in
  let name := default "" (attraction !! "name") in
  let location := default "" (attraction !! "location") in
  if String.eqb name "" || String.eqb location "" then g else
  let '(g, attraction_result) := merge_node "Attraction" name attraction g in
  match single attraction_result with
  | None => g
  | Some _ =>
      let city_data : gmap string string := {[ "name" := location ]} in
      let '(g, city_result) := merge_node "City" location city_data g in
      match single city_result with
      | None => g
      | Some _ =>
          let g :=
            merge_relationship "Attraction" name "LOCATED_IN" "City" location
              {[ "reason" := reason ]} g in
          (merge_node "UpdateLog" log_id
             (log_data now2 name log_id reason weights) g).1
      end
  end.

(** [update_knowledge_graph]: ValueError without a name, otherwise the
    committed write transaction. *)
Definition update_knowledge_graph (now1 now2 : string) (g : graph)
  (data : gmap string string) (log_id reason : string) (weights : W)
  : result graph :=
  if String.eqb (default "" (data !! "name")) "" then Raise ValueError
  else Ok (tx_work now1 now2 g (preprocess_data data) reason log_id weights).

End Updater.




(** A fact about Namtso, its weights snapshot and the two applications. *)
Definition namtso : gmap string string :=
  {[ "name" := "纳木错"; "location" := "当雄县";
     "description" := "the second largest lake of Tibet";
     "pub_timestamp" := "2025-06-27T22:39:56+08:00" ]}.

Definition snapshot (weights : unit) : string :=
  "{'rules_valid': 1.0, 'llm_valid': 0.8, 'weight_valid': 0.9}".

(** The store after the first and after the second application. *)
Definition first_graph : graph :=
  tx_work snapshot "2025-06-27T22:40:00" "2025-06-27T22:40:01"
    Neo4j.empty (preprocess_data namtso) "Initial import" "纳木错_2025-06-27" tt.

Definition second_graph : graph :=
  tx_work snapshot "2025-06-27T22:50:00" "2025-06-27T22:50:01"
    first_graph (preprocess_data namtso) "Initial import" "纳木错_2025-06-27" tt.



End KnowledgeGraphUpdater.

(** ** More on the resolvers: keys that carry a UTC offset *)

Module ResolverSpec.

Import PyTime Resolver.

(** The UTC instant of a datetime (its wall clock, for a naive one). *)
Definition utc_instant (d : datetime) : Z :=
  (wall d - default 0 (utcoffset d))%Z.

Section WithParser.
Variable fromisoformat : string -> result datetime.

(** The timestamp of [f] is present and parses to an aware datetime. *)
Definition aware_timestamp (f : fact) : Prop :=
  exists s t off, timestamp f = Some s /\ s <> ""
    /\ fromisoformat (replace_Z s) = Ok (Datetime t (Some off)).

End WithParser.

End ResolverSpec.

(** ** Writing the conflict queue (conflict_resolution.py) *)

Module ConflictQueue.

Import ConflictResolver.

Section LogConflict.
Context {J : Type}.

(** [json.dumps(conflict, ensure_ascii=False)] of a serializable record:
    one line of text. *)
Variable json_dumps : J -> string.


End LogConflict.

End ConflictQueue.

(** ** More inputs for the weight calculator *)

Module Scenario3.

Import PyTime Utils.
Local Open Scope Q_scope.

(** A crawler record stamped without a UTC offset. *)
Definition crawled_naive : gmap string string :=
  {[ "source_type" := "crawler"; "pub_timestamp" := "2023-12-01T00:00:00" ]}.

(** A manually curated record stamped a month before the first reading of
    the clock. *)
Definition curated : gmap string string :=
  {[ "source_type" := "manual"; "pub_timestamp" := "2023-12-01T00:00:00+08:00" ]}.

Definition wall_2024_01_01 : Z := wall_of 2024 1 1 0 0 0.
Definition wall_2024_07_01 : Z := wall_of 2024 7 1 0 0 0.
Definition beijing : Z := 28800000000.

End Scenario3.

(** ** neo4j_crud.py *)

Module Neo4jCRUD.

Import Neo4j.

(** [MERGE (n:label {name: $name})] without a SET: a node is created when
    none matches. *)
Definition ensure_node (l name : string) (g : graph) : graph :=
  match match_nodes l name g with
  | [] => Graph (nodes g ++ [Node l {[ "name" := name ]}]) (relationships g)
  | _ => g
  end.

(** [node_exists]: [result.single() is not None]. *)
Definition node_exists (l name : string) (g : graph) : bool :=
  match single (match_nodes l name g) with
  | Some _ => true
  | None => false
  end.

(** [create_relationship]: both nodes are merged first, then the
    relationship between them; the result is the new graph and the value
    returned. *)
Definition create_relationship
  (source_label source_name target_label target_name rel_type : string)
  (properties : gmap string string) (g : graph) : graph * bool :=
  let g := ensure_node target_label target_name
             (ensure_node source_label source_name g) in
  let nodes_result :=
    s ← match_nodes source_label source_name g;
    t ← match_nodes target_label target_name g; [(s, t)] in
  match head nodes_result with
  | None => (g, false)
  | Some _ =>
      let g' := merge_relationship source_label source_name rel_type
                  target_label target_name properties g in
      let rel := nodes_result in
      match head rel with
      | Some _ => (g', true)
      | None => (g', false)
      end
  end.

(** A record of [get_relationships]; a node without a name gives [None]. *)
Record rel_row : Type := RelRow {
  row_source_name : option string;
  row_type : string;
  row_target_name : option string;
  row_properties : gmap string string
}.

(** [MATCH (a:label {name: $name})-[r]->(b)
     RETURN a.name, type(r), b.name, properties(r)], in storage order. *)
Definition get_relationships (l name : string) (g : graph) : list rel_row :=
  omap (fun r =>
          match nodes g !! start_node r, nodes g !! end_node r with
          | Some a, Some b =>
              if matches l name a
              then Some (RelRow (node_props a !! "name") (rel_type r)
                                (node_props b !! "name") (rel_props r))
              else None
          | _, _ => None
          end)
       (relationships g).

(** The relationships of a given type between two given nodes. *)
Definition parallel (a : nat) (t : string) (c : nat) (g : graph)
  : list stored_rel :=
  filter (fun r => connects a t c r = true) (relationships g).

(** A store with Jokhang and a street, and a relationship to create. *)
Definition lhasa : graph :=
  Graph [Node "Attraction" {[ "name" := "Jokhang"; "ranking" := "1" ]};
         Node "City" {[ "name" := "Lhasa" ]}]
        [Rel 0 "LOCATED_IN" 1 {[ "reason" := "import" ]}].

Definition nearby_props : gmap string string :=
  {[ "reason" := "same quarter"; "confidence" := "0.9" ]}.

End Neo4jCRUD.

(** ** More inputs for the merge transaction *)

Module Scenario4.

Import Neo4j KnowledgeGraphUpdater.

(** A fact whose location is the empty string. *)
Definition unplaced : gmap string string :=
  {[ "name" := "Yamdrok"; "location" := "" ]}.

(** The store after the import of the Namtso fact. *)
Definition after_namtso : graph := first_graph.

End Scenario4.

(** ** text_processor.py *)

Module TextProcessor.

Import Neo4j Neo4jCRUD KnowledgeGraphUpdater.

(** *** Token estimate and the chunks of [batch_call_deepseek] *)

(** A prompt is the sequence of its code points. *)
Definition text : Type := list N.

(** ['一' <= c <= '鿿'] *)
Definition is_chinese (c : N) : bool := (0x4e00 <=? c)%N && (c <=? 0x9fff)%N.

(** [int(x)] of a float: truncation toward zero. *)
Definition int (x : Q) : Z := Z.quot (Qnum x) (Zpos (Qden x)).

(** [estimate_tokens].  The two products are multiples of a quarter, so the
    floating-point sum is exact. *)
Definition estimate_tokens (t : text) : Z :=
  let chinese_chars :=
    Z.of_nat (length (filter (fun c => is_chinese c = true) t)) in
  let other_chars := (Z.of_nat (length t) - chinese_chars)%Z in
  int (inject_Z chinese_chars * 0.75 + inject_Z other_chars * 0.5)%Q.

Definition max_model_tokens : Z := 16384.
Definition max_output_tokens : Z := 1024.
Definition max_input_tokens : Z := max_model_tokens - max_output_tokens - 100.

(** One turn of the loop over [prompts]; the state is
    [(chunks, current_chunk, current_token_count)]. *)
Definition chunk_step (st : list (list text) * list text * Z) (prompt : text)
  : list (list text) * list text * Z :=
  let '(chunks, current_chunk, current_token_count) := st in
  let prompt_tokens := estimate_tokens prompt in
  if (max_input_tokens <? current_token_count + prompt_tokens)%Z
  then (chunks ++ [current_chunk], [prompt], prompt_tokens)
  else (chunks, current_chunk ++ [prompt],
        (current_token_count + prompt_tokens)%Z).

(** The list [chunks] after the loop and the final [if current_chunk]. *)
Definition chunks_of (prompts : list text) : list (list text) :=
  let '(chunks, current_chunk, _) := foldl chunk_step ([], [], 0%Z) prompts in
  match current_chunk with
  | [] => chunks
  | _ => chunks ++ [current_chunk]
  end.

(** The estimated tokens of a chunk. *)
Definition chunk_tokens (chunk : list text) : Z :=
  foldr (fun prompt acc => (estimate_tokens prompt + acc)%Z) 0%Z chunk.

Definition within_budget (chunk : list text) : Prop :=
  (chunk_tokens chunk <= max_input_tokens)%Z \/ length chunk = 1%nat.

(** The invariant of the loop, after the prompts [done]. *)
Definition chunk_inv (st : list (list text) * list text * Z)
  (done : list text) : Prop :=
  let '(chunks, current_chunk, current_token_count) := st in
  concat chunks ++ current_chunk = done
  /\ current_token_count = chunk_tokens current_chunk
  /\ Forall within_budget chunks
  /\ within_budget current_chunk
  /\ (chunks <> [] -> current_chunk <> [])
  /\ Forall (fun chunk => chunk <> []) (tail chunks).

Section BatchCall.

(** [call k prompt]: what [call_with_semaphore] returns for the request
    number [k], the reply or the text of the exception. *)
Variable call : nat -> text -> string.

(** [asyncio.gather] over the tasks of one chunk, [k] requests having been
    made before. *)
Definition gather (k : nat) (chunk : list text) : list string :=
  imap (fun i prompt => call (k + i) prompt) chunk.

(** The loop over [chunks] that extends [results]. *)
Fixpoint gather_chunks (k : nat) (chunks : list (list text)) : list string :=
  match chunks with
  | [] => []
  | chunk :: rest => gather k chunk ++ gather_chunks (k + length chunk) rest
  end.

Definition batch_call_deepseek (prompts : list text) : list string :=
  gather_chunks 0 (chunks_of prompts).

End BatchCall.

(** *** The records of the JSON file: [process_json_files] *)

(** The loop that fills [seen_names], [duplicates] and [unique_nodes];
    [node["name"]] of a record without a name raises KeyError ([None]). *)
Fixpoint dedup_loop (seen_names : gset string) (duplicates : list string)
  (unique_nodes : list (gmap string string)) (nodes : list (gmap string string))
  : option (list string * list (gmap string string)) :=
  match nodes with
  | [] => Some (duplicates, unique_nodes)
  | node :: rest =>
      name ← node !! "name";
      if decide (name ∈ seen_names)
      then dedup_loop seen_names (duplicates ++ [name]) unique_nodes rest
      else dedup_loop ({[ name ]} ∪ seen_names) duplicates
             (unique_nodes ++ [node]) rest
  end.

Definition dedup (nodes : list (gmap string string))
  : option (list string * list (gmap string string)) :=
  dedup_loop ∅ [] [] nodes.

(** The names of a list of records. *)
Definition names (nodes : list (gmap string string)) : list string :=
  omap (fun node => node !! "name") nodes.

Definition batch_size : nat := 3.

(** [range(0, stop, step)] *)
Definition range (stop step : nat) : list nat :=
  (fun k => k * step)%nat <$> seq 0 ((stop + step - 1) / step).

(** The slices [unique_nodes[i:i + batch_size]] of the loop. *)
Definition batches (unique_nodes : list (gmap string string))
  : list (list (gmap string string)) :=
  (fun i => take batch_size (drop i unique_nodes))
    <$> range (length unique_nodes) batch_size.

(** *** The pairs of [process_json_chunk] *)

(** The list [node_pairs]: for every record, the later records of another
    name. *)
Definition node_pairs (filtered_data : list (gmap string string))
  : list (gmap string string * gmap string string) :=
  concat
    (imap (fun i node1 =>
             omap (fun node2 =>
                     if decide (node1 !! "name" <> node2 !! "name")
                     then Some (node1, node2) else None)
                  (drop (S i) filtered_data))
          filtered_data).

(** *** The loop over the records of [process_json_chunk] *)

(** [needle in haystack] *)
Fixpoint contains (needle haystack : string) : bool :=
  String.prefix needle haystack
  || match haystack with
     | EmptyString => false
     | String _ rest => contains needle rest
     end.

Definition cultural_keywords : list string :=
  ["寺"; "庙"; "宫"; "博物馆"; "文化"; "宗教"; "历史"; "古街"; "遗址"; "纪念碑"].

(** The truth value of [data.get(key)]. *)
Definition truthy (v : option string) : bool :=
  match v with
  | Some s => negb (String.eqb s "")
  | None => false
  end.

(** The location of a record after [extract_relationships]. *)
Definition location_or_default (it : gmap string string) : string :=
  if truthy (it !! "location") then default "" (it !! "location")
  else "拉萨市".

(** The name of a record after [preprocess_data]. *)
Definition canonical_name (name : string) : string :=
  if decide (name = "纳木错") then "纳木措" else name.

Inductive status : Type := success | failed.

(** An entry of [results]. *)
Record entry : Type := Entry { entry_name : string; entry_status : status }.

Definition reason : string := "Initial import from JSON with LLM enhancement".

Section ProcessChunk.

(** What the two enrichment calls return; both catch every exception. *)
Variable extract_best_comment : string -> string.
Variable infer_description : string -> string -> string.

(** [extract_relationships]: the enriched copy and the flag stored under
    [is_cultural]; the debug message reads [data['name']], a KeyError
    ([None]) for a record without a name. *)
Definition extract_relationships (data : gmap string string)
  : option (gmap string string * bool) :=
  let data :=
    if truthy (data !! "best_comment") then data
    else <["best_comment" :=
             extract_best_comment (default "" (data !! "description"))]> data in
  let data :=
    if truthy (data !! "location") then data
    else <["location" := "拉萨市"]> data in
  let data :=
    if truthy (data !! "description") then data
    else <["description" :=
             infer_description (default "Unknown" (data !! "name"))
               (default "拉萨市" (data !! "location"))]> data in
  let is_cultural :=
    existsb (fun keyword =>
               contains keyword (default "" (data !! "name"))
               || contains keyword (default "" (data !! "description")))
            cultural_keywords in
  _ ← data !! "name";
  Some (data, is_cultural).

Variable crawl_timestamp : string.

(** One turn of the loop over [data], with the two readings of the clock.
    [update_knowledge_graph] renames the record in place, so the name of a
    success entry is read from the preprocessed record; every exception
    gives a failed entry under the name of the record as it was read. *)
Definition process_item (now1 now2 : string) (g : graph)
  (it : gmap string string)
  : graph * entry :=
  let failure := Entry (default "Unknown" (it !! "name")) failed in
  match extract_relationships it with
  | None => (g, failure)
  | Some (processed_item, _) =>
      match processed_item !! "name" with
      | None => (g, failure)
      | Some name =>
          let log_id := name +:+ "_" +:+ crawl_timestamp in
          match update_knowledge_graph snapshot now1 now2 g processed_item
                  log_id reason tt with
          | Raise _ => (g, failure)
          | Ok g' =>
              match preprocess_data processed_item !! "name" with
              | Some name' => (g', Entry name' success)
              | None => (g', failure)
              end
          end
      end
  end.

(** The clock, as the list of its successive readings. *)
Variable clock : nat -> string.

(** The loop: the store and [results] after the records [data], the
    record number [k] being the first. *)
Fixpoint process_items (k : nat) (g : graph) (data : list (gmap string string))
  : graph * list entry :=
  match data with
  | [] => (g, [])
  | it :: rest =>
      let '(g, e) := process_item (clock (2 * k)) (clock (2 * k + 1)) g it in
      let '(g, es) := process_items (S k) g rest in
      (g, e :: es)
  end.

End ProcessChunk.

(** Records of a file: the second repeats the name of the first, and one
    has no name. *)
Definition potala : gmap string string :=
  {[ "name" := "布达拉宫"; "location" := "拉萨市" ]}.
Definition potala_again : gmap string string :=
  {[ "name" := "布达拉宫"; "ranking" := "1" ]}.
Definition jokhang : gmap string string := {[ "name" := "大昭寺" ]}.
Definition barkhor : gmap string string := {[ "name" := "八廓街" ]}.
Definition norbulingka : gmap string string := {[ "name" := "罗布林卡" ]}.
Definition unnamed : gmap string string := {[ "location" := "拉萨市" ]}.

(** The loop over three records, on an empty store. *)
Definition report : graph * list entry :=
  process_items (fun _ => "A place worth the climb.")
    (fun name _ => "Description for " +:+ name) "2025-06-27"
    (fun _ => "2025-06-27T22:40:00") 0 Neo4j.empty [potala; unnamed; jokhang].

(** A prompt of 30522 letters. *)
Definition long_prompt : text := repeat 97%N (N.to_nat 30522).

End TextProcessor.
(** * Properties *)

(** ** Numbers *)

Lemma Qltb_lt (x y : Q) : PyNum.Qltb x y = true <-> (x < y)%Q.
Proof. unfold PyNum.Qltb, Qlt. apply Z.ltb_lt. Qed.

Lemma Qltb_ge (x y : Q) : PyNum.Qltb x y = false <-> (y <= x)%Q.
Proof. unfold PyNum.Qltb, Qle. apply Z.ltb_ge. Qed.

Lemma pymax_cases (a b : Q) :
  (a < b /\ PyNum.max a b = b)%Q \/ (b <= a /\ PyNum.max a b = a)%Q.
Proof.
  unfold PyNum.max. destruct (PyNum.Qltb a b) eqn:E.
  - left. by apply Qltb_lt in E.
  - right. by apply Qltb_ge in E.
Qed.

Lemma pymin_cases (a b : Q) :
  (b < a /\ PyNum.min a b = b)%Q \/ (a <= b /\ PyNum.min a b = a)%Q.
Proof.
  unfold PyNum.min. destruct (PyNum.Qltb b a) eqn:E.
  - left. by apply Qltb_lt in E.
  - right. by apply Qltb_ge in E.
Qed.

(** Python's [min] and [max] agree with the mathematical ones. *)
Lemma pymin_Qmin (a b : Q) : (PyNum.min a b == Qmin a b)%Q.
Proof.
  destruct (pymin_cases a b) as [[H ->]|[H ->]].
  - symmetry. apply Q.min_r. by apply Qlt_le_weak.
  - symmetry. by apply Q.min_l.
Qed.

Lemma pymax_Qmax (a b : Q) : (PyNum.max a b == Qmax a b)%Q.
Proof.
  destruct (pymax_cases a b) as [[H ->]|[H ->]].
  - symmetry. apply Q.max_r. by apply Qlt_le_weak.
  - symmetry. by apply Q.max_l.
Qed.

(** ** Sorting *)

Section SortedFacts.
Context {A K : Type}.
Variable key_lt : K -> K -> result bool.
Variable key : A -> K.

Lemma insert_desc_perm (x : A) (l r : list A) :
    insert_desc key_lt key x l = Ok r -> r ≡ₚ x :: l.
Proof.
    revert r. induction l as [|y l IH]; intros r; simpl.
    - by intros [= <-].
    - destruct (key_lt (key x) (key y)) as [[]|]; simpl; [|by intros [= <-]|done].
      destruct (insert_desc key_lt key x l) as [r'|]; simpl; [|done].
      intros [= <-]. rewrite (IH r' eq_refl). apply Permutation_swap.
Qed.

Lemma sorted_reverse_perm (l r : list A) :
    sorted_reverse key_lt key l = Ok r -> r ≡ₚ l.
Proof.
    revert r. induction l as [|x l IH]; intros r; simpl.
    - by intros [= <-].
    - destruct (sorted_reverse key_lt key l) as [s|]; simpl; [|done].
      intros H%insert_desc_perm. by rewrite H, (IH s eq_refl).
Qed.

Variable m : A -> Q.

Lemma measured_tail (x : A) (l : list A) : measured key_lt key m (x :: l) -> measured key_lt key m l.
Proof. intros Hm a b Ha Hb. apply Hm; apply elem_of_cons; by right. Qed.

Lemma measured_perm (l l' : list A) : l ≡ₚ l' -> measured key_lt key m l -> measured key_lt key m l'.
Proof. intros Hp Hm a b Ha Hb. apply Hm; by rewrite Hp. Qed.

Lemma insert_desc_measured (x : A) (l : list A) :
    measured key_lt key m (x :: l) ->
    exists r, insert_desc key_lt key x l = Ok r
      /\ head r = Some (match l with
                        | [] => x
                        | y :: _ => if PyNum.Qltb (m x) (m y) then y else x
                        end).
Proof.
    induction l as [|y l IH]; intros Hm; simpl.
    - by eexists.
    - rewrite Hm; [|apply elem_of_cons; by left
                   |apply elem_of_cons; right; apply elem_of_cons; by left].
      simpl. destruct (PyNum.Qltb (m x) (m y)); [|by eexists].
      destruct IH as (r & -> & _); [|by eexists].
      exact (measured_tail _ _ (measured_perm _ _ (Permutation_swap y x l) Hm)).
Qed.

Lemma sorted_reverse_first_max (l : list A) :
    l <> [] -> measured key_lt key m l ->
    exists w r, sorted_reverse key_lt key l = Ok (w :: r) /\ first_max m l w.
Proof.
    induction l as [|x l IH]; [done|]. intros _ Hm. simpl.
    destruct l as [|y l].
    { simpl. exists x, []. split; [done|]. exists [], []. by repeat constructor. }
    destruct IH as (w & r & Hs & l1 & l2 & Hl & H1 & H2);
      [done|by eapply measured_tail|].
    rewrite Hs. cbv [mbind result_bind].
    assert (Hperm : w :: r ≡ₚ y :: l) by by apply sorted_reverse_perm.
    destruct (insert_desc_measured x (w :: r)) as (r' & -> & Hhd).
    { eapply measured_perm; [|exact Hm]. by rewrite Hperm. }
    destruct r' as [|w' r'']; [done|]. simpl in Hhd. injection Hhd as ->.
    exists (if PyNum.Qltb (m x) (m w) then w else x), r''. split; [done|].
    destruct (PyNum.Qltb (m x) (m w)) eqn:E.
    - apply Qltb_lt in E. exists (x :: l1), l2. rewrite Hl. split; [done|].
      split; [by constructor|done].
    - apply Qltb_ge in E. exists [], (y :: l). split; [done|]. split; [constructor|].
      rewrite Hl. apply Forall_app. split.
      + eapply Forall_impl; [exact H1|]. intros a Ha. simpl in Ha. lra.
      + constructor; [done|]. eapply Forall_impl; [exact H2|]. intros a Ha. simpl in Ha. lra.
Qed.
Lemma insert_desc_sorted (x : A) (l r : list A) :
  measured key_lt key m (x :: l) -> StronglySorted (descending m) l ->
  insert_desc key_lt key x l = Ok r -> StronglySorted (descending m) r.
Proof.
  revert r. induction l as [|y l IH]; intros r Hm Hl; simpl.
  - intros [= <-]. by repeat constructor.
  - rewrite Hm; [|apply elem_of_cons; by left
                 |apply elem_of_cons; right; apply elem_of_cons; by left].
    simpl. apply StronglySorted_inv in Hl as [Hl Hy].
    destruct (PyNum.Qltb (m x) (m y)) eqn:E.
    + destruct (insert_desc key_lt key x l) as [r'|] eqn:Hi; simpl; [|done].
      intros [= <-]. constructor.
      * apply (IH r'); [|done|done].
        exact (measured_tail _ _ (measured_perm _ _ (Permutation_swap y x l) Hm)).
      * rewrite (insert_desc_perm _ _ _ Hi). constructor; [|done].
        apply Qltb_lt in E. unfold descending. lra.
    + intros [= <-]. apply Qltb_ge in E. constructor; [by constructor|].
      constructor; [done|]. eapply Forall_impl; [exact Hy|].
      unfold descending. intros z Hz. lra.
Qed.

Lemma sorted_reverse_sorted (l r : list A) :
  measured key_lt key m l -> sorted_reverse key_lt key l = Ok r ->
  StronglySorted (descending m) r.
Proof.
  revert r. induction l as [|x l IH]; intros r Hm; simpl.
  - intros [= <-]. constructor.
  - destruct (sorted_reverse key_lt key l) as [s|] eqn:Hs; simpl; [|done].
    apply insert_desc_sorted.
    + eapply measured_perm; [|exact Hm]. by rewrite (sorted_reverse_perm _ _ Hs).
    + apply IH; [by eapply measured_tail|done].
Qed.
End SortedFacts.

(** ** The resolvers *)

Module ResolverFacts.

Import PyTime Resolver HybridSpec Scenario.

Lemma first_max_elem {A} (m : A -> Q) (l : list A) (w : A) :
  first_max m l w -> w ∈ l.
Proof.
  intros (l1 & l2 & -> & _). apply elem_of_app. right. apply elem_of_cons. by left.
Qed.

Lemma first_max_fmap {A B} (g : A -> B) (m : B -> Q) (l : list A) (w' : B) :
  first_max m (g <$> l) w' ->
  exists w, w' = g w /\ first_max (fun x => m (g x)) l w.
Proof.
  intros (l1 & l2 & Hl & H1 & H2).
  apply fmap_app_inv in Hl as (k1 & k2' & -> & Hk2 & ->).
  symmetry in Hk2. apply fmap_cons_inv in Hk2 as (w & k2 & -> & -> & ->).
  exists w. split; [done|]. exists k1, k2. split; [done|].
  split; [exact (proj1 (Forall_fmap g _ k1) H1)|exact (proj1 (Forall_fmap g _ k2) H2)].
Qed.

Lemma Qlt_measured {A} (m : A -> Q) (l : list A) :
  measured Resolver.Qlt m m l.
Proof. by intros x y _ _. Qed.

(** WeightFirst never raises and returns the first fact of maximal weight,
    a missing weight counting as 0. *)
Lemma weight_first_first_max (facts : list fact) :
  facts <> [] ->
  exists w, resolve_conflict_weight_first facts = Ok w
    /\ first_max (source_weight 0) facts w.
Proof.
  intros Hne.
  destruct (sorted_reverse_first_max Resolver.Qlt (source_weight 0)
              (source_weight 0) facts Hne (Qlt_measured _ _)) as (w & r & Hs & Hw).
  exists w. split; [|done].
  unfold resolve_conflict_weight_first. destruct facts; [done|]. by rewrite Hs.
Qed.

Section WithParser.
Variable fromisoformat : string -> result datetime.

Lemma score_fact_fact (now : datetime) (f : fact) :
  (score_fact fromisoformat now f).1.1 = f.
Proof. unfold score_fact. by destruct (time_factors fromisoformat now f). Qed.

(** Hybrid never raises and returns the first fact of maximal score; the
    explanation is built from the candidates in descending score order. *)
Lemma hybrid_first_max (now : Z) (facts : list fact) :
  facts <> [] ->
  exists w sorted_facts,
    resolve_conflict_with_hybrid fromisoformat now facts
    = Ok (w, Explanation "基于综合评分选择的获胜事实"
               (Some (scores_dict 0 sorted_facts ∅)))
    /\ sorted_facts ≡ₚ score_fact fromisoformat (naive now) <$> facts
    /\ StronglySorted (descending (fun c => c.1.2)) sorted_facts
    /\ head sorted_facts = Some (score_fact fromisoformat (naive now) w)
    /\ first_max (score fromisoformat now) facts w.
Proof.
  intros Hne.
  set (scored := score_fact fromisoformat (naive now) <$> facts).
  assert (Hne' : scored <> []) by by destruct facts.
  destruct (sorted_reverse_first_max Resolver.Qlt (fun x => x.1.2)
              (fun x => x.1.2) scored Hne' (Qlt_measured _ _)) as (c & r & Hs & Hc).
  apply first_max_fmap in Hc as (w & -> & Hw).
  exists w, (score_fact fromisoformat (naive now) w :: r).
  split; [|split; [by apply sorted_reverse_perm in Hs|split; [|done]]].
  - unfold resolve_conflict_with_hybrid. destruct facts as [|f0 facts]; [done|].
    change (map (score_fact fromisoformat (naive now)) (f0 :: facts)) with scored.
    rewrite Hs. simpl. by rewrite score_fact_fact.
  - eapply sorted_reverse_sorted; [|exact Hs]. apply Qlt_measured.
Qed.

(** *** Scoring *)

Lemma time_factors_naive (now : Z) (f : fact) (s : string) (t : datetime) :
  timestamp f = Some s -> s <> "" -> fromisoformat (replace_Z s) = Ok t ->
  utcoffset t = None ->
  (time_factors fromisoformat (naive now) f).2
  = (1.0 - PyNum.min 1.0 (PyNum.of_int (days (now - wall t)) / 365) * 0.7)%Q.
Proof.
  intros Hf Hs Ht Hoff. unfold time_factors. rewrite Hf. simpl.
  apply String.eqb_neq in Hs. rewrite Hs, Ht. simpl.
  unfold sub. simpl. by rewrite Hoff.
Qed.

Lemma time_factors_unusable (now : datetime) (f : fact) :
  unusable_timestamp fromisoformat f ->
  time_factors fromisoformat now f = (0.3, 0.3)%Q.
Proof.
  unfold time_factors. intros [-> | [e He]]; [done|].
  destruct (String.eqb _ ""); simpl; [done|]. by rewrite He.
Qed.

Lemma score_fact_score (now : datetime) (f : fact) :
  (score_fact fromisoformat now f).1.2
  = (source_weight 0.5 f * 0.6
     + (time_factors fromisoformat now f).2 * 0.3
     + (PyNum.min 1.0
          (PyNum.of_int (Z.of_nat (String.length (default "" (value f)))) / 200)
        * 0.5 + 0.5) * 0.1)%Q.
Proof. unfold score_fact. by destruct (time_factors fromisoformat now f). Qed.

Lemma score_fact_details (now : datetime) (f : fact) :
  (score_fact fromisoformat now f).2
  = Details (source_weight 0.5%Q f)
      (time_factors fromisoformat now f).1
      (time_factors fromisoformat now f).2
      (PyNum.min 1.0
         (PyNum.of_int (Z.of_nat (String.length (default "" (value f)))) / 200)
       * 0.5 + 0.5)%Q.
Proof. unfold score_fact. by destruct (time_factors fromisoformat now f). Qed.

(** The code's components are the ones the specification names, for a fact
    whose timestamp does not carry a UTC offset. *)
Lemma score_fact_as_claimed (now : Z) (f : fact) :
  timezone_free fromisoformat f ->
  let c := score_fact fromisoformat (naive now) f in
  base_weight c.2 = default 0.5%Q (weight (default empty_source (source f)))
  /\ (time_freshness c.2
      == claimed_time_freshness (age_days fromisoformat now f))%Q
  /\ (content_quality c.2
      == claimed_content_quality (String.length (default "" (value f))))%Q
  /\ (c.1.2 == claimed_score (base_weight c.2) (time_freshness c.2)
                 (content_quality c.2))%Q.
Proof.
  intros Hfree c. unfold c. rewrite score_fact_score, score_fact_details. simpl.
  split; [done|]. split; [|split].
  - unfold age_days. destruct (timestamp f) as [s|] eqn:Hts.
    + destruct (String.eqb s "") eqn:Hs.
      * apply String.eqb_eq in Hs.
        rewrite time_factors_unusable; [done|]. left. by rewrite Hts.
      * apply String.eqb_neq in Hs.
        destruct (fromisoformat (replace_Z s)) as [t|e] eqn:Ht.
        -- rewrite (time_factors_naive now f s t Hts Hs Ht (Hfree s t Hts Ht)).
           unfold claimed_time_freshness, PyNum.of_int.
           set (x := (inject_Z (days (now - wall t)) / 365)%Q).
           destruct (pymin_cases 1.0 x) as [[H ->]|[H ->]];
             destruct (Q.min_spec 1 x) as [[H' ->]|[H' ->]]; lra.
        -- rewrite time_factors_unusable; [done|]. right. exists e. by rewrite Hts.
    + rewrite time_factors_unusable; [done|]. left. by rewrite Hts.
  - unfold claimed_content_quality, PyNum.of_int.
    set (x := (inject_Z (Z.of_nat _) / 200)%Q).
    destruct (pymin_cases 1.0 x) as [[H ->]|[H ->]];
      destruct (Q.min_spec 1 x) as [[H' ->]|[H' ->]]; lra.
  - unfold claimed_score. ring.
Qed.

(** *** The explanation *)

Lemma scores_dict_two (c1 c2 : fact * Q * details) :
  scores_dict 0 [c1; c2] ∅
  = <[score_key 1 c2.1.1 := entry_of c2]> (<[score_key 0 c1.1.1 := entry_of c1]> ∅).
Proof. by destruct c1 as [[??]?], c2 as [[??]?]. Qed.

Lemma scores_dict_lookup_other (i : nat) (l : list (fact * Q * details))
  (acc : gmap string score_entry) (k : string) :
  (forall j c, l !! j = Some c -> score_key (i + j) c.1.1 <> k) ->
  scores_dict i l acc !! k = acc !! k.
Proof.
  revert i acc. induction l as [|[[f q] d] l IH]; intros i acc Hk; [done|].
  simpl. rewrite IH.
  - apply lookup_insert_ne. specialize (Hk 0%nat (f, q, d) eq_refl).
    by rewrite Nat.add_0_r in Hk.
  - intros j c Hj. specialize (Hk (S j) c Hj). by rewrite Nat.add_succ_r in Hk.
Qed.

(** Every entry of the explanation is the entry of a candidate, under the
    candidate's key. *)
Lemma scores_dict_lookup_inv (i : nat) (l : list (fact * Q * details))
  (acc : gmap string score_entry) (k : string) (e : score_entry) :
  scores_dict i l acc !! k = Some e ->
  acc !! k = Some e
  \/ exists j c, l !! j = Some c /\ score_key (i + j) c.1.1 = k /\ e = entry_of c.
Proof.
  revert i acc. induction l as [|[[f q] d] l IH]; intros i acc; [by left|].
  simpl. intros [H|(j & c & Hj & Hk & He)]%IH.
  - destruct (decide (score_key i f = k)) as [Hk|Hk].
    + rewrite Hk, lookup_insert_eq in H. injection H as <-.
      right. exists 0%nat, (f, q, d). by rewrite Nat.add_0_r.
    + rewrite lookup_insert_ne in H by done. by left.
  - right. exists (S j), c. by rewrite Nat.add_succ_r.
Qed.

(** A candidate is reported under its key unless a later candidate in score
    order has the same key. *)
Lemma scores_dict_lookup_last (i : nat) (l : list (fact * Q * details))
  (acc : gmap string score_entry) (j : nat) (c : fact * Q * details) :
  l !! j = Some c ->
  (forall j' c', (j < j')%nat -> l !! j' = Some c' ->
     score_key (i + j') c'.1.1 <> score_key (i + j) c.1.1) ->
  scores_dict i l acc !! score_key (i + j) c.1.1 = Some (entry_of c).
Proof.
  revert i acc j. induction l as [|[[f q] d] l IH]; intros i acc j Hj Hlast; [done|].
  destruct j as [|j]; simpl.
  - injection Hj as <-. simpl. rewrite scores_dict_lookup_other.
    + by rewrite Nat.add_0_r, lookup_insert_eq.
    + intros j' c' Hj'. replace (S i + j')%nat with (i + S j')%nat by lia.
      apply (Hlast (S j') c'); [lia|done].
  - replace (i + S j)%nat with (S i + j)%nat by lia. apply IH; [done|].
    intros j' c' Hlt Hj'.
    replace (S i + j')%nat with (i + S j')%nat by lia.
    replace (S i + j)%nat with (i + S j)%nat by lia.
    apply (Hlast (S j') c'); [lia|done].
Qed.

(** Two candidates: the second wins exactly when its score is strictly
    greater. *)
Lemma hybrid_pair (now : Z) (x y : fact) :
  let cx := score_fact fromisoformat (naive now) x in
  let cy := score_fact fromisoformat (naive now) y in
  resolve_conflict_with_hybrid fromisoformat now [x; y]
  = if PyNum.Qltb (score fromisoformat now x) (score fromisoformat now y)
    then Ok (y, Explanation "基于综合评分选择的获胜事实"
                  (Some (scores_dict 0 [cy; cx] ∅)))
    else Ok (x, Explanation "基于综合评分选择的获胜事实"
                  (Some (scores_dict 0 [cx; cy] ∅))).
Proof.
  unfold resolve_conflict_with_hybrid, score.
  cbn [map sorted_reverse insert_desc mbind result_bind Resolver.Qlt].
  destruct (PyNum.Qltb _ _); cbn [mbind result_bind head map default];
    by rewrite score_fact_fact.
Qed.

(** C4 (amended): for a non-empty list of facts whose timestamps carry no
    UTC offset, Hybrid does not raise; each fact is scored
    [0.6*base_weight + 0.3*time_freshness + 0.1*content_quality], with
    [base_weight] the source weight or 0.5, [time_freshness] the stated
    function of the age in days or 0.3 without a usable timestamp, and
    [content_quality] the stated function of the value length; the winner is
    the first fact of maximal score; the explanation holds entries of
    candidates only, each under the candidate's key (its source url, or
    [事实i] with [i] its position in descending score order), and it reports
    a candidate unless a later candidate in score order has the same key. *)
Theorem hybrid_scores_and_explains (now : Z) (facts : list fact) :
  facts <> [] -> Forall (timezone_free fromisoformat) facts ->
  exists w sorted_facts m,
    resolve_conflict_with_hybrid fromisoformat now facts
    = Ok (w, Explanation "基于综合评分选择的获胜事实" (Some m))
    /\ Forall (fun f =>
         let c := score_fact fromisoformat (naive now) f in
         base_weight c.2 = default 0.5%Q (weight (default empty_source (source f)))
         /\ (time_freshness c.2
             == claimed_time_freshness (age_days fromisoformat now f))%Q
         /\ (content_quality c.2
             == claimed_content_quality (String.length (default "" (value f))))%Q
         /\ (c.1.2 == claimed_score (base_weight c.2) (time_freshness c.2)
                        (content_quality c.2))%Q) facts
    /\ first_max (score fromisoformat now) facts w
    /\ sorted_facts ≡ₚ score_fact fromisoformat (naive now) <$> facts
    /\ StronglySorted (descending (fun c => c.1.2)) sorted_facts
    /\ head sorted_facts = Some (score_fact fromisoformat (naive now) w)
    /\ (forall k e, m !! k = Some e ->
          exists j c, sorted_facts !! j = Some c
            /\ score_key j c.1.1 = k /\ e = entry_of c)
    /\ (forall j c, sorted_facts !! j = Some c ->
          (forall j' c', (j < j')%nat -> sorted_facts !! j' = Some c' ->
             score_key j' c'.1.1 <> score_key j c.1.1) ->
          m !! score_key j c.1.1 = Some (entry_of c)).
Proof.
  intros Hne Hfree.
  destruct (hybrid_first_max now facts Hne)
    as (w & sorted_facts & Hr & Hperm & Hsorted & Hhd & Hmax).
  exists w, sorted_facts, (scores_dict 0 sorted_facts ∅).
  split; [done|]. split.
  { eapply Forall_impl; [exact Hfree|]. intros f Hf.
    by apply score_fact_as_claimed. }
  do 4 (split; [done|]). split.
  - intros k e [H|H]%scores_dict_lookup_inv; [by rewrite lookup_empty in H|done].
  - intros j c Hj Hlast. by apply (scores_dict_lookup_last 0).
Qed.

(** C9 (amended): two facts with equal weights and equal-length values,
    both timestamps naive and three years apart.  When the newer fact is
    less than 365 days old at resolution time, Hybrid selects it, in either
    input order; when it is 365 days old or older, both facts have the
    freshness 0.3, the scores tie and Hybrid selects the first fact in input
    order. *)
Theorem hybrid_recent_or_input_order (now : Z) (a b : fact) (sa sb : string)
  (ta tb : Z) :
  (source_weight 0.5 a == source_weight 0.5 b)%Q ->
  String.length (default "" (value a)) = String.length (default "" (value b)) ->
  timestamp a = Some sa -> sa <> "" ->
  fromisoformat (replace_Z sa) = Ok (naive ta) ->
  timestamp b = Some sb -> sb <> "" ->
  fromisoformat (replace_Z sb) = Ok (naive tb) ->
  (3 * 365 * us_per_day <= tb - ta)%Z ->
  ((days (now - tb) < 365)%Z ->
   (exists e, resolve_conflict_with_hybrid fromisoformat now [a; b] = Ok (b, e))
   /\ (exists e, resolve_conflict_with_hybrid fromisoformat now [b; a] = Ok (b, e)))
  /\ ((365 <= days (now - tb))%Z ->
      (exists e, resolve_conflict_with_hybrid fromisoformat now [a; b] = Ok (a, e))
      /\ (exists e, resolve_conflict_with_hybrid fromisoformat now [b; a] = Ok (b, e))).
Proof.
  intros Hw Hlen Ha Hsa Hta Hb Hsb Htb Hgap.
  assert (Hd : (days (now - tb) + 3 * 365 <= days (now - ta))%Z).
  { unfold days in *. rewrite <- Z.div_add by (unfold us_per_day; lia).
    apply Z.div_le_mono; [unfold us_per_day|]; lia. }
  assert (Hq : (inject_Z (days (now - tb)) < inject_Z (days (now - ta)))%Q).
  { rewrite <- Zlt_Qlt. lia. }
  assert (Ea : (inject_Z (days (now - ta)) / 365
                == inject_Z (days (now - ta)) * (1 # 365))%Q) by field.
  assert (Eb : (inject_Z (days (now - tb)) / 365
                == inject_Z (days (now - tb)) * (1 # 365))%Q) by field.
  assert (Hsa' : score fromisoformat now a
                 = (source_weight 0.5 a * 0.6
                    + (1.0 - PyNum.min 1.0 (inject_Z (days (now - ta)) / 365) * 0.7) * 0.3
                    + (PyNum.min 1.0
                         (PyNum.of_int (Z.of_nat (String.length (default "" (value b)))) / 200)
                       * 0.5 + 0.5) * 0.1)%Q).
  { unfold score. rewrite score_fact_score, Hlen.
    by rewrite (time_factors_naive now a sa _ Ha Hsa Hta eq_refl). }
  assert (Hsb' : score fromisoformat now b
                 = (source_weight 0.5 b * 0.6
                    + (1.0 - PyNum.min 1.0 (inject_Z (days (now - tb)) / 365) * 0.7) * 0.3
                    + (PyNum.min 1.0
                         (PyNum.of_int (Z.of_nat (String.length (default "" (value b)))) / 200)
                       * 0.5 + 0.5) * 0.1)%Q).
  { unfold score. rewrite score_fact_score.
    by rewrite (time_factors_naive now b sb _ Hb Hsb Htb eq_refl). }
  set (q := (PyNum.min 1.0 (PyNum.of_int (Z.of_nat _) / 200) * 0.5 + 0.5)%Q) in *.
  split.
  - intros Hrecent.
    assert (Hq' : (inject_Z (days (now - tb)) < 365)%Q).
    { change 365%Q with (inject_Z 365). by rewrite <- Zlt_Qlt. }
    assert (Hlt : (score fromisoformat now a < score fromisoformat now b)%Q).
    { rewrite Hsa', Hsb'.
      destruct (pymin_cases 1.0 (inject_Z (days (now - ta)) / 365))
        as [[H1 ->]|[H1 ->]];
        destruct (pymin_cases 1.0 (inject_Z (days (now - tb)) / 365))
          as [[H2 ->]|[H2 ->]]; lra. }
    split.
    + rewrite hybrid_pair. apply Qltb_lt in Hlt. rewrite Hlt. by eexists.
    + rewrite hybrid_pair.
      assert (Hge : PyNum.Qltb (score fromisoformat now b)
                      (score fromisoformat now a) = false) by (apply Qltb_ge; lra).
      rewrite Hge. by eexists.
  - intros Hstale.
    assert (Hq' : (365 <= inject_Z (days (now - tb)))%Q).
    { change 365%Q with (inject_Z 365). by rewrite <- Zle_Qle. }
    assert (Heq : (score fromisoformat now a == score fromisoformat now b)%Q).
    { rewrite Hsa', Hsb'.
      destruct (pymin_cases 1.0 (inject_Z (days (now - ta)) / 365))
        as [[H1 ->]|[H1 ->]];
        destruct (pymin_cases 1.0 (inject_Z (days (now - tb)) / 365))
          as [[H2 ->]|[H2 ->]]; lra. }
    split.
    + rewrite hybrid_pair.
      assert (Hge : PyNum.Qltb (score fromisoformat now a)
                      (score fromisoformat now b) = false) by (apply Qltb_ge; lra).
      rewrite Hge. by eexists.
    + rewrite hybrid_pair.
      assert (Hge : PyNum.Qltb (score fromisoformat now b)
                      (score fromisoformat now a) = false) by (apply Qltb_ge; lra).
      rewrite Hge. by eexists.
Qed.

Lemma parse_timestamp_unusable (f : fact) :
  unusable_timestamp fromisoformat f -> parse_timestamp fromisoformat f = datetime_min.
Proof.
  unfold parse_timestamp. intros [-> | [e He]]; [done|].
  destruct (String.eqb _ ""); simpl; [done|]. by rewrite He.
Qed.

Lemma parse_timestamp_usable (f : fact) (s : string) (t : datetime) :
  timestamp f = Some s -> s <> "" -> fromisoformat (replace_Z s) = Ok t ->
  parse_timestamp fromisoformat f = t.
Proof.
  unfold parse_timestamp. intros -> Hs Ht. simpl.
  apply String.eqb_neq in Hs. by rewrite Hs, Ht.
Qed.

(** LatestFirst on facts whose timestamps carry no UTC offset: every key
    is naive, the sort does not raise, and the winner is the first fact
    with the latest wall-clock time, a missing or unparsable timestamp
    counting as [datetime.min]. *)
Lemma latest_first_timezone_free (facts : list fact) :
  facts <> [] -> Forall (timezone_free fromisoformat) facts ->
  exists w, resolve_conflict_latest_first fromisoformat facts = Ok w
    /\ first_max (fun f => inject_Z (wall (parse_timestamp fromisoformat f)))
         facts w.
Proof.
  intros Hne Hfree.
  assert (Hnaive : forall f, f ∈ facts ->
            utcoffset (parse_timestamp fromisoformat f) = None).
  { intros f Hf. apply (proj1 (Forall_forall _ _) Hfree) in Hf.
    unfold parse_timestamp. destruct (timestamp f) as [s|] eqn:Hs; simpl; [|done].
    destruct (String.eqb s ""); simpl; [done|].
    destruct (fromisoformat (replace_Z s)) as [t|] eqn:Ht; simpl; [|done].
    by apply (Hf s t). }
  destruct (sorted_reverse_first_max lt (parse_timestamp fromisoformat)
              (fun f => inject_Z (wall (parse_timestamp fromisoformat f)))
              facts Hne) as (w & r & Hs & Hw).
  { intros x y Hx Hy. unfold lt. rewrite (Hnaive x Hx), (Hnaive y Hy).
    unfold PyNum.Qltb. simpl. by rewrite !Z.mul_1_r. }
  exists w. split; [|done].
  unfold resolve_conflict_latest_first. destruct facts; [done|]. by rewrite Hs.
Qed.

(** C3: LatestFirst: a fact whose timestamp is missing or unparsable is
    keyed [datetime.min], a naive datetime; against a fact whose valid
    timestamp carries a UTC offset the sort compares a naive with an aware
    datetime, and the resolver raises TypeError instead of returning the
    dated fact, in either input order. *)
Theorem latest_first_sentinel_against_aware
  (a b : fact) (s : string) (t off : Z) :
  timestamp a = Some s -> s <> "" ->
  fromisoformat (replace_Z s) = Ok (Datetime t (Some off)) ->
  unusable_timestamp fromisoformat b ->
  resolve_conflict_latest_first fromisoformat [a; b] = Raise TypeError
  /\ resolve_conflict_latest_first fromisoformat [b; a] = Raise TypeError.
Proof.
  intros Ha Hs Ht Hb. unfold resolve_conflict_latest_first. simpl.
  rewrite (parse_timestamp_usable a s _ Ha Hs Ht).
  by rewrite (parse_timestamp_unusable b Hb).
Qed.

End WithParser.

Lemma latest_first_sentinel_against_aware_witness :
  resolve_conflict_latest_first fromisoformat_seconds [dated_utc; misdated]
  = Raise TypeError
  /\ resolve_conflict_latest_first fromisoformat_seconds [misdated; dated_utc]
     = Raise TypeError.
Proof.
  apply (latest_first_sentinel_against_aware fromisoformat_seconds
           dated_utc misdated "2023-05-20T09:15:00Z"
           (wall_of 2023 5 20 9 15 0) 0).
  - reflexivity.
  - discriminate.
  - vm_compute. reflexivity.
  - right. exists ValueError. vm_compute. reflexivity.
Defined.

Lemma hybrid_recent_or_input_order_witness :
  ((days (at_2024_01_01 - wall_of 2023 10 5 15 20 0) < 365)%Z ->
   (exists e, resolve_conflict_with_hybrid fromisoformat_seconds at_2024_01_01
                [older; newer] = Ok (newer, e))
   /\ (exists e, resolve_conflict_with_hybrid fromisoformat_seconds at_2024_01_01
                   [newer; older] = Ok (newer, e)))
  /\ ((365 <= days (at_2024_01_01 - wall_of 2023 10 5 15 20 0))%Z ->
      (exists e, resolve_conflict_with_hybrid fromisoformat_seconds at_2024_01_01
                   [older; newer] = Ok (older, e))
      /\ (exists e, resolve_conflict_with_hybrid fromisoformat_seconds at_2024_01_01
                      [newer; older] = Ok (newer, e))).
Proof.
  apply (hybrid_recent_or_input_order fromisoformat_seconds at_2024_01_01
           older newer "2020-06-10T11:30:00" "2023-10-05T15:20:00"
           (wall_of 2020 6 10 11 30 0) (wall_of 2023 10 5 15 20 0)).
  - reflexivity.
  - reflexivity.
  - reflexivity.
  - discriminate.
  - vm_compute. reflexivity.
  - reflexivity.
  - discriminate.
  - vm_compute. reflexivity.
  - apply Z.leb_le. vm_compute. reflexivity.
Defined.

(** C9, as stated, fails: once both facts are at least 365 days old their
    freshness is the same 0.3, the scores tie and the first fact in input
    order wins; with the older fact first Hybrid returns the older fact. *)
Lemma hybrid_stale_pair_keeps_input_order :
  ~ ((exists e, resolve_conflict_with_hybrid fromisoformat_seconds at_2026_11_04
                  [older; newer] = Ok (newer, e))
     /\ (exists e, resolve_conflict_with_hybrid fromisoformat_seconds at_2026_11_04
                     [newer; older] = Ok (newer, e))).
Proof.
  intros [[e He] _]. rewrite hybrid_pair in He.
  replace (PyNum.Qltb _ _) with false in He by (vm_compute; reflexivity).
  injection He as Hw _. discriminate Hw.
Qed.

Lemma hybrid_scores_and_explains_witness :
  exists w sorted_facts m,
    resolve_conflict_with_hybrid fromisoformat_seconds at_2024_01_01 [older; newer]
    = Ok (w, Explanation "基于综合评分选择的获胜事实" (Some m))
    /\ Forall (fun f =>
         let c := score_fact fromisoformat_seconds (naive at_2024_01_01) f in
         base_weight c.2 = default 0.5%Q (weight (default empty_source (source f)))
         /\ (time_freshness c.2
             == claimed_time_freshness
                  (age_days fromisoformat_seconds at_2024_01_01 f))%Q
         /\ (content_quality c.2
             == claimed_content_quality (String.length (default "" (value f))))%Q
         /\ (c.1.2 == claimed_score (base_weight c.2) (time_freshness c.2)
                        (content_quality c.2))%Q) [older; newer]
    /\ first_max (score fromisoformat_seconds at_2024_01_01) [older; newer] w
    /\ sorted_facts
       ≡ₚ score_fact fromisoformat_seconds (naive at_2024_01_01) <$> [older; newer]
    /\ StronglySorted (descending (fun c => c.1.2)) sorted_facts
    /\ head sorted_facts
       = Some (score_fact fromisoformat_seconds (naive at_2024_01_01) w)
    /\ (forall k e, m !! k = Some e ->
          exists j c, sorted_facts !! j = Some c
            /\ score_key j c.1.1 = k /\ e = entry_of c)
    /\ (forall j c, sorted_facts !! j = Some c ->
          (forall j' c', (j < j')%nat -> sorted_facts !! j' = Some c' ->
             score_key j' c'.1.1 <> score_key j c.1.1) ->
          m !! score_key j c.1.1 = Some (entry_of c)).
Proof.
  apply (hybrid_scores_and_explains fromisoformat_seconds at_2024_01_01
           [older; newer]).
  - discriminate.
  - repeat constructor.
    + intros s t [= <-] Ht. vm_compute in Ht. by injection Ht as <-.
    + intros s t [= <-] Ht. vm_compute in Ht. by injection Ht as <-.
Defined.

(** C4, as stated, fails: two candidates that share a source url share one
    key of the explanation, and the entry of the later one in score order
    replaces the other; the winner's score and components are not
    reported. *)
Lemma hybrid_explanation_drops_shared_url :
  ~ (forall w r m,
       resolve_conflict_with_hybrid fromisoformat_seconds at_2024_01_01
         [page_v1; page_v2] = Ok (w, Explanation r (Some m)) ->
       Forall (reported fromisoformat_seconds at_2024_01_01 m) [page_v1; page_v2]).
Proof.
  intros H.
  pose proof (hybrid_pair fromisoformat_seconds at_2024_01_01 page_v1 page_v2) as Hr.
  cbv zeta in Hr.
  replace (PyNum.Qltb _ _) with true in Hr by (vm_compute; reflexivity).
  apply H in Hr. apply Forall_cons in Hr as [_ Hr].
  apply Forall_cons in Hr as [(k & e & Hk & _ & Hbw & _) _].
  rewrite scores_dict_two, !score_fact_fact in Hk.
  change (score_key 0 page_v2) with "http://sera-monastery.org/info" in Hk.
  change (score_key 1 page_v1) with "http://sera-monastery.org/info" in Hk.
  destruct (decide (k = "http://sera-monastery.org/info")) as [->|Hne].
  - rewrite lookup_insert_eq in Hk. injection Hk as <-.
    vm_compute in Hbw. discriminate Hbw.
  - rewrite !lookup_insert_ne, lookup_empty in Hk by done. discriminate Hk.
Qed.

(** C2: LatestFirst on a non-empty list does not always return a winner:
    on a fact stamped in UTC and a fact without a timestamp it raises
    TypeError. *)
Theorem latest_first_raises_on_undated :
  resolve_conflict_latest_first fromisoformat_seconds [dated_utc; undated]
  = Raise TypeError.
Proof. vm_compute. reflexivity. Qed.

(** C8: WeightFirst treats a missing weight as 0, not 0.5: the fact with
    explicit weight 0.4 wins against the fact without a weight, in either
    order, while Hybrid gives the same fact the base weight 0.5. *)
Theorem weight_first_missing_weight_is_zero :
  resolve_conflict_weight_first [weighted_04; unweighted] = Ok weighted_04
  /\ resolve_conflict_weight_first [unweighted; weighted_04] = Ok weighted_04
  /\ source_weight 0 unweighted = 0%Q
  /\ base_weight (score_fact fromisoformat_seconds (naive at_2024_01_01) unweighted).2
     = 0.5%Q.
Proof. vm_compute. repeat split; reflexivity. Qed.

(** C6, as stated, fails: on the empty list WeightFirst and LatestFirst
    return the empty dict alone, without an explanation. *)
Lemma empty_input_no_explanation :
  ~ (forall s, exists e,
       resolve fromisoformat_seconds s at_2024_01_01 []
       = Ok (empty_dict, Some e)).
Proof. intros H. destruct (H WeightFirst) as [e He]. discriminate He. Qed.

(** C6 (amended): on the empty list no strategy raises; each returns the
    empty dict as the winner, and Hybrid alone returns an explanation, whose
    reason says that no conflicting facts were supplied. *)
Theorem empty_input_sentinel (fromisoformat : string -> result datetime)
  (s : strategy) (now : Z) :
  resolve fromisoformat s now []
  = Ok (empty_dict,
        match s with
        | Hybrid => Some (Explanation "没有提供冲突事实" None)
        | _ => None
        end).
Proof. by destruct s. Qed.

End ResolverFacts.

(** ** The weight calculator *)

Module WeightFacts.

Import PyTime Utils WeightSpec Scenario2.
Local Open Scope Q_scope.

Lemma clamp01_bounds (x : Q) : 0 <= clamp01 x <= 1.
Proof.
  unfold clamp01.
  destruct (Q.max_spec 0 (Qmin 1 x)) as [[H1 H2]|[H1 H2]];
    destruct (Q.min_spec 1 x) as [[H3 H4]|[H3 H4]]; lra.
Qed.

Lemma clamp01_id (x : Q) : 0 <= x <= 1 -> clamp01 x == x.
Proof.
  unfold clamp01. intros Hx.
  destruct (Q.max_spec 0 (Qmin 1 x)) as [[H1 H2]|[H1 H2]];
    destruct (Q.min_spec 1 x) as [[H3 H4]|[H3 H4]]; lra.
Qed.

(** The final [max(0.0, min(1.0, base_weight))] is the clamp to [0, 1]. *)
Lemma clamp_code (x y : Q) :
  x == y -> PyNum.max 0.0 (PyNum.min 1.0 x) == clamp01 y.
Proof.
  unfold clamp01. intros Hxy.
  destruct (pymax_cases 0.0 (PyNum.min 1.0 x)) as [[H1 ->]|[H1 ->]];
    destruct (pymin_cases 1.0 x) as [[H2 H3]|[H2 H3]]; rewrite ?H3 in *;
    destruct (Q.max_spec 0 (Qmin 1 y)) as [[H4 H5]|[H4 H5]];
    destruct (Q.min_spec 1 y) as [[H6 H7]|[H6 H7]]; lra.
Qed.

Lemma freshness_code (age : Z) :
  PyNum.max 0.0 (1.0 - PyNum.of_int age / 365.0) == freshness age.
Proof.
  unfold freshness, PyNum.of_int.
  assert (E : inject_Z age / 365.0 == inject_Z age / 365) by field.
  destruct (pymax_cases 0.0 (1.0 - inject_Z age / 365.0)) as [[H1 ->]|[H1 ->]];
    destruct (Q.max_spec 0 (1 - inject_Z age / 365)) as [[H4 H5]|[H4 H5]]; lra.
Qed.

Lemma freshness_bounds (age : Z) : (0 <= age)%Z -> 0 <= freshness age <= 1.
Proof.
  intros Hage. unfold freshness.
  assert (E : inject_Z age / 365 == inject_Z age * (1 # 365)) by field.
  assert (0 <= inject_Z age).
  { change 0 with (inject_Z 0). by rewrite <- Zle_Qle. }
  destruct (Q.max_spec 0 (1 - inject_Z age / 365)) as [[H4 H5]|[H4 H5]]; lra.
Qed.

Lemma source_multiplier_cases (st : option string) :
  (st = Some "crawler" /\ source_multiplier st = 0.8)
  \/ (st <> Some "crawler" /\ source_multiplier st = 1).
Proof.
  destruct st as [s|]; simpl; [|by right].
  destruct (String.eqb s "crawler") eqn:E.
  - apply String.eqb_eq in E as ->. by left.
  - apply String.eqb_neq in E. right. split; [congruence|done].
Qed.

Section WithParser.
Variable fromisoformat : string -> result datetime.
Variable encode_dot : string -> string -> result Q.

(** The weight before the freshness factor and the clamp. *)
Lemma rated_base (data : gmap string string) (r : Q) :
  (if decide (data !! "source_type" = Some "crawler") then r / 5.0 * 0.8
   else if decide (data !! "source_type" = Some "manual") then r / 5.0 * 1.0
        else r / 5.0)
  == r / 5 * source_multiplier (data !! "source_type").
Proof.
  destruct (source_multiplier_cases (data !! "source_type")) as [[E ->]|[E ->]].
  - rewrite decide_True by done. field.
  - rewrite decide_False by done. case_decide; field.
Qed.

(** C7 (amended): the weight lies in [0, 1]; for a numeric rating it is the
    product [rating/5 * multiplier * freshness] clamped to [0, 1] (the clamp
    is applied to the product, not to [rating/5]), with no freshness factor
    when the timestamp is absent and [freshness = max(0, 1 - age_days/365)]
    when the timestamp parses to an aware datetime; for a rating in [0, 5]
    and a timestamp not in the future that is the stated formula; when the
    timestamp does not parse or the rating is not a number the weight is 0. *)
Theorem compute_dynamic_weight_clamps_product (now_wall tz : Z)
  (data : gmap string string) (metrics : gmap string metric) :
  let w := compute_dynamic_weight fromisoformat (aware now_wall tz) data metrics in
  let st := data !! "source_type" in
  0 <= w <= 1
  /\ (forall r, default (Number 0.0) (metrics !! "ratings") = Number r ->
       (default "" (data !! "pub_timestamp") = "" ->
        w == clamp01 (r / 5 * source_multiplier st))
       /\ (forall s t off,
            data !! "pub_timestamp" = Some s -> s <> "" ->
            fromisoformat (replace_Z s) = Ok (Datetime t (Some off)) ->
            let age_days := days ((now_wall - tz) - (t - off)) in
            w == clamp01 (r / 5 * source_multiplier st * freshness age_days)
            /\ (0 <= r <= 5 -> (0 <= age_days)%Z ->
                w == claimed_weight r st age_days))
       /\ (forall s e,
            data !! "pub_timestamp" = Some s -> s <> "" ->
            fromisoformat (replace_Z s) = Raise e -> w == 0))
  /\ (forall s, metrics !! "ratings" = Some (Text s) -> w == 0).
Proof.
  intros w st. split; [|split].
  - unfold w, compute_dynamic_weight.
    destruct (true_div _ _) as [b|]; simpl; [|lra].
    set (b' := if decide _ then _ else _).
    destruct (negb _); simpl.
    + destruct (fromisoformat _) as [t|]; simpl; [|lra].
      destruct (sub _ _) as [d|]; simpl; [|lra].
      rewrite (clamp_code _ _ (Qeq_refl _)). apply clamp01_bounds.
    + rewrite (clamp_code _ _ (Qeq_refl _)). apply clamp01_bounds.
  - intros r Hr. unfold w, compute_dynamic_weight. rewrite Hr. simpl.
    split; [|split].
    + intros ->. simpl. apply clamp_code, rated_base.
    + intros s t off Hs Hne Ht. set (age_days := days (now_wall - tz - (t - off))).
      rewrite Hs. simpl.
      apply String.eqb_neq in Hne. rewrite Hne, Ht. simpl.
      assert (Hw : (if decide (data !! "source_type" = Some "crawler")
                    then r / 5.0 * 0.8
                    else if decide (data !! "source_type" = Some "manual")
                         then r / 5.0 * 1.0 else r / 5.0)
                   * PyNum.max 0.0 (1.0 - PyNum.of_int age_days / 365.0)
                   == r / 5 * source_multiplier st * freshness age_days).
      { by rewrite rated_base, freshness_code. }
      split; [by apply clamp_code|].
      intros Hr5 Hage. etransitivity; [exact (clamp_code _ _ Hw)|].
      unfold claimed_weight.
      pose proof (freshness_bounds age_days Hage) as Hf.
      assert (Ea : r / 5 == r * (1 # 5)) by field.
      rewrite (clamp01_id (r / 5)) by lra.
      apply clamp01_id.
      destruct (source_multiplier_cases st) as [[_ ->]|[_ ->]]; nra.
    + intros s e Hs Hne He. rewrite Hs. simpl.
      apply String.eqb_neq in Hne. by rewrite Hne, He.
  - intros s Hs. unfold w, compute_dynamic_weight. by rewrite Hs.
Qed.

End WithParser.

(** C7, as stated, fails: for a crawler record rated 10 and stamped now the
    code clamps the product 2 * 0.8 to 1, while the stated formula clamps
    the rating first and gives 0.8. *)
Lemma weight_of_rating_above_5 :
  ~ (compute_dynamic_weight fromisoformat_seconds utc_2024_01_01 crawled rated_10
     == claimed_weight 10 (Some "crawler") 0).
Proof. vm_compute. discriminate. Qed.

(** The same record rated 4 weighs 4/5 * 0.8. *)
Lemma weight_of_rating_4 :
  compute_dynamic_weight fromisoformat_seconds utc_2024_01_01 crawled rated_4
  == 0.64.
Proof. vm_compute. reflexivity. Qed.

End WeightFacts.

(** ** The relationship conflict detector and the conflict queue *)

Module ConflictFacts.

Import Utils ConflictResolver Scenario2.
Local Open Scope Q_scope.

Section CheckRelationshipConflict.
Context {P : Type}.
Variable json_dumps : P -> string.
Variable encode_dot : string -> string -> result Q.


(** The similarity lies in [0, 1]. *)
Lemma compute_semantic_similarity_bounds (text1 text2 : string) :
  0 <= compute_semantic_similarity encode_dot text1 text2 <= 1.
Proof.
  unfold compute_semantic_similarity.
  destruct (_ || _); simpl; [lra|].
  destruct (encode_dot text1 text2) as [x|]; simpl; [|lra].
  rewrite (WeightFacts.clamp_code _ _ (Qeq_refl _)).
  apply WeightFacts.clamp01_bounds.
Qed.


End CheckRelationshipConflict.


Section GetConflictLog.
Context {J : Type}.
Variable json_loads : string -> option J.





End GetConflictLog.


End ConflictFacts.

(** ** The graph store *)

Module Neo4jFacts.

Import Neo4j.

Lemma matches_spec (l name : string) (n : node) :
  matches l name n = true <-> label n = l /\ node_props n !! "name" = Some name.
Proof.
  unfold matches. rewrite andb_true_iff, String.eqb_eq, bool_decide_eq_true.
  tauto.
Qed.

Lemma bound_from_nil (i : nat) (l name : string) (ns : list node) :
  bound_from i l name ns = [] <-> forall n, n ∈ ns -> matches l name n = false.
Proof.
  revert i. induction ns as [|n ns IH]; intros i; simpl.
  - split; [|done]. intros _ n Hn. by apply elem_of_nil in Hn.
  - destruct (matches l name n) eqn:E.
    + split; [done|]. intros H. specialize (H n). rewrite E in H.
      discriminate H. apply elem_of_cons. by left.
    + rewrite IH. split.
      * intros H x [->|Hx]%elem_of_cons; [done|by apply H].
      * intros H x Hx. apply H, elem_of_cons. by right.
Qed.

Lemma match_nodes_nil (l name : string) (g : graph) :
  match_nodes l name g = [] <-> forall n, n ∈ nodes g -> matches l name n = false.
Proof. apply bound_from_nil. Qed.

(** Positions are stable: a node keeps its row when other nodes are added
    at the end. *)
Lemma bound_from_app (i : nat) (l name : string) (ns ms : list node) :
  bound_from i l name (ns ++ ms)
  = bound_from i l name ns ++ bound_from (i + length ns) l name ms.
Proof.
  revert i. induction ns as [|n ns IH]; intros i; simpl.
  - by rewrite Nat.add_0_r.
  - rewrite IH. replace (S i + length ns)%nat with (i + S (length ns))%nat by lia.
    by destruct (matches l name n).
Qed.

Lemma bound_from_map (i : nat) (l name : string) (f : node -> node)
  (ns : list node) :
  (forall n, n ∈ ns -> matches l name (f n) = matches l name n) ->
  bound_from i l name (map f ns) = bound_from i l name ns.
Proof.
  revert i. induction ns as [|n ns IH]; intros i Hf; simpl; [done|].
  rewrite Hf by (apply elem_of_cons; by left).
  rewrite IH; [done|]. intros x Hx. apply Hf, elem_of_cons. by right.
Qed.


Lemma set_node_matches (l name : string) (props : gmap string string) (n : node) :
  props !! "name" = Some name -> matches l name n = true ->
  matches l name (set_node props n) = true.
Proof.
  intros Hp [Hl _]%matches_spec. apply matches_spec. split; [done|].
  simpl. by apply lookup_union_Some_l.
Qed.

(** A node that matches one pattern does not match a different one. *)
Lemma matches_exclusive (l name l' name' : string) (n : node) :
  l <> l' \/ name <> name' ->
  matches l' name' n = true -> matches l name n = false.
Proof.
  intros Hne [Hl Hn]%matches_spec. apply not_true_is_false.
  intros [Hl' Hn']%matches_spec. destruct Hne; congruence.
Qed.

Section MergeNode.
Variables (l name : string) (props : gmap string string).
Hypothesis props_name : props !! "name" = Some name.

(** Merging a node returns at least one row. *)
Lemma merge_node_single (g : graph) :
  is_Some (single (merge_node l name props g).2).
Proof.
  unfold merge_node. destruct (match_nodes l name g) eqn:E; simpl; by eexists.
Qed.

Lemma merge_node_relationships (g : graph) :
  relationships (merge_node l name props g).1 = relationships g.
Proof. unfold merge_node. by destruct (match_nodes l name g). Qed.


(** After a merge the properties are settled. *)
Lemma merge_node_makes_settled (g : graph) :
  settled l name props (nodes (merge_node l name props g).1).
Proof using props_name.
  unfold merge_node. destruct (match_nodes l name g) as [|i rows] eqn:E; simpl.
  - rewrite match_nodes_nil in E.
    assert (Hnew : matches l name (set_node props (Node l {[ "name" := name ]})) = true).
    { apply set_node_matches; [done|]. apply matches_spec. split; [done|].
      simpl. apply lookup_singleton_eq. }
    split.
    + eexists. split; [|exact Hnew]. apply elem_of_app. right.
      apply elem_of_cons. by left.
    + intros n [Hn|Hn]%elem_of_app Hm.
      * rewrite (E n Hn) in Hm. discriminate Hm.
      * apply list_elem_of_singleton in Hn as ->. simpl.
        by rewrite (assoc_L (∪)), (idemp_L (∪)).
  - assert (Hex : exists n, n ∈ nodes g /\ matches l name n = true).
    { destruct (existsb (matches l name) (nodes g)) eqn:Hb.
      - apply existsb_exists in Hb as (n & Hn & Hm). exists n.
        split; [by apply list_elem_of_In|done].
      - assert (bound_from 0 l name (nodes g) = []) as Hnil.
        { apply bound_from_nil. intros n Hn.
          apply not_true_is_false. intros Hm.
          assert (existsb (matches l name) (nodes g) = true).
          { apply existsb_exists. exists n. split; [by apply list_elem_of_In|done]. }
          congruence. }
        unfold match_nodes in E. congruence. }
    destruct Hex as (n & Hn & Hm). split.
    + exists (set_node props n). split; [|by apply set_node_matches].
      apply list_elem_of_fmap. exists n. by rewrite Hm.
    + intros x (y & -> & Hy)%list_elem_of_fmap Hx.
      destruct (matches l name y) eqn:Hmy; [|congruence].
      simpl. by rewrite (assoc_L (∪)), (idemp_L (∪)).
Qed.

(** A merge leaves the nodes that do not match where and as they are, and
    adds at most one node at the end. *)
Lemma merge_node_Forall2_or_new (g : graph) :
  exists new,
    nodes (merge_node l name props g).1
    = map (fun n => if matches l name n then set_node props n else n) (nodes g)
      ++ new
    /\ Forall (fun n => matches l name n = true) new
    /\ (match_nodes l name g = [] -> length new = 1%nat)
    /\ (match_nodes l name g <> [] -> new = []).
Proof using props_name.
  unfold merge_node. destruct (match_nodes l name g) as [|i rows] eqn:E; simpl.
  - exists [set_node props (Node l {[ "name" := name ]})].
    split; [|split; [|done]].
    + f_equal. rewrite match_nodes_nil in E. clear -E.
      induction (nodes g) as [|x ns IH]; [done|]. simpl.
      rewrite (E x) by (apply elem_of_cons; by left). f_equal.
      apply IH. intros y Hy. apply E, elem_of_cons. by right.
    + repeat constructor. apply set_node_matches; [done|].
      apply matches_spec. split; [done|]. simpl. apply lookup_singleton_eq.
  - exists []. rewrite app_nil_r. by repeat split.
Qed.

(** The rows of a different pattern are the same before and after. *)
Lemma merge_node_match_nodes_other (l' name' : string) (g : graph) :
  l' <> l \/ name' <> name ->
  match_nodes l' name' (merge_node l name props g).1 = match_nodes l' name' g.
Proof using props_name.
  intros Hne. unfold match_nodes.
  destruct (merge_node_Forall2_or_new g) as (new & -> & Hnew & _).
  rewrite bound_from_app.
  assert (bound_from (0 + length (map (fun n => if matches l name n
                                         then set_node props n else n) (nodes g)))
            l' name' new = []) as ->.
  { apply bound_from_nil. intros n Hn. apply (matches_exclusive _ _ l name); [done|].
    by apply (proj1 (Forall_forall _ _) Hnew). }
  rewrite app_nil_r. apply bound_from_map. intros n Hn.
  destruct (matches l name n) eqn:Hm; [|done].
  rewrite (matches_exclusive l' name' l name n Hne Hm).
  apply (matches_exclusive _ _ l name); [done|]. by apply set_node_matches.
Qed.

(** Properties settled for a different pattern stay settled. *)
Lemma merge_node_frame (l' name' : string) (props' : gmap string string)
  (g : graph) :
  l' <> l \/ name' <> name ->
  settled l' name' props' (nodes g) ->
  settled l' name' props' (nodes (merge_node l name props g).1).
Proof using props_name.
  intros Hne [(n & Hn & Hm) Hall].
  destruct (merge_node_Forall2_or_new g) as (new & -> & Hnew & _).
  assert (Hkeep : forall x, x ∈ nodes g -> matches l' name' x = true ->
            (if matches l name x then set_node props x else x) = x).
  { intros x Hx Hx'. destruct (matches l name x) eqn:E; [|done].
    rewrite (matches_exclusive l' name' l name x Hne E) in Hx'. discriminate Hx'. }
  split.
  - exists n. split; [|done]. apply elem_of_app. left.
    apply list_elem_of_fmap. exists n. by rewrite Hkeep.
  - intros x [(y & -> & Hy)%list_elem_of_fmap|Hx]%elem_of_app Hx'.
    + destruct (matches l name y) eqn:E.
      * assert (matches l' name' (set_node props y) = false) as Hf.
        { apply (matches_exclusive _ _ l name); [done|]. by apply set_node_matches. }
        congruence.
      * by apply Hall.
    + assert (matches l' name' x = false) as Hf.
      { apply (matches_exclusive _ _ l name); [done|].
        by apply (proj1 (Forall_forall _ _) Hnew). }
      congruence.
Qed.

End MergeNode.

(** *** Relationships *)

Lemma connects_spec (a : nat) (t : string) (c : nat) (r : stored_rel) :
  connects a t c r = true <->
  start_node r = a /\ rel_type r = t /\ end_node r = c.
Proof.
  unfold connects. rewrite !andb_true_iff, !Nat.eqb_eq, String.eqb_eq. tauto.
Qed.

Lemma set_rel_absorbed (props : gmap string string) (r : stored_rel) :
  props ∪ rel_props r = rel_props r -> set_rel props r = r.
Proof. unfold set_rel. intros ->. by destruct r. Qed.

Section MergeRel.
Variables (t : string) (props : gmap string string).

Lemma merge_rel_settled (rs : list stored_rel) (row : nat * nat) :
  rel_settled t props rs row -> merge_rel t props rs row = rs.
Proof.
  intros [(r & Hr & Hc) Hall]. unfold merge_rel.
  assert (existsb (connects row.1 t row.2) rs = true) as ->.
  { apply existsb_exists. exists r. split; [by apply list_elem_of_In|done]. }
  clear r Hr Hc. induction rs as [|x rs IH]; [done|]. simpl. f_equal.
  - destruct (connects row.1 t row.2 x) eqn:Hx; [|done].
    apply set_rel_absorbed, Hall; [apply elem_of_cons; by left|done].
  - apply IH. intros y Hy. apply Hall, elem_of_cons. by right.
Qed.

Lemma merge_rel_makes_settled (rs : list stored_rel) (row : nat * nat) :
  rel_settled t props (merge_rel t props rs row) row.
Proof.
  unfold merge_rel. destruct (existsb (connects row.1 t row.2) rs) eqn:E.
  - apply existsb_exists in E as (r & Hr%list_elem_of_In & Hc). split.
    + exists (set_rel props r). split.
      * apply list_elem_of_fmap. exists r. by rewrite Hc.
      * apply connects_spec in Hc. by apply connects_spec.
    + intros x (y & -> & Hy)%list_elem_of_fmap Hx.
      destruct (connects row.1 t row.2 y) eqn:Hcy; [|congruence].
      simpl. by rewrite (assoc_L (∪)), (idemp_L (∪)).
  - assert (Hnew : connects row.1 t row.2 (Rel row.1 t row.2 props) = true).
    { by apply connects_spec. }
    split.
    + eexists. split; [|exact Hnew]. apply elem_of_app. right.
      apply elem_of_cons. by left.
    + intros x [Hx|Hx]%elem_of_app Hc.
      * assert (existsb (connects row.1 t row.2) rs = true).
        { apply existsb_exists. exists x. split; [by apply list_elem_of_In|done]. }
        congruence.
      * apply list_elem_of_singleton in Hx as ->. simpl. by rewrite (idemp_L (∪)).
Qed.

Lemma connects_exclusive (row row' : nat * nat) (r : stored_rel) :
  row <> row' -> connects row'.1 t row'.2 r = true ->
  connects row.1 t row.2 r = false.
Proof.
  intros Hne (H1 & _ & H2)%connects_spec. apply not_true_is_false.
  intros (H1' & _ & H2')%connects_spec. apply Hne.
  destruct row, row'. simpl in *. congruence.
Qed.

Lemma merge_rel_frame (rs : list stored_rel) (row row' : nat * nat) :
  rel_settled t props rs row ->
  rel_settled t props (merge_rel t props rs row') row.
Proof.
  intros Hs. destruct (decide (row = row')) as [<-|Hne].
  { by rewrite merge_rel_settled. }
  destruct Hs as [(r & Hr & Hc) Hall]. unfold merge_rel.
  assert (Hkeep : forall x, connects row.1 t row.2 x = true ->
            (if connects row'.1 t row'.2 x then set_rel props x else x) = x).
  { intros x Hx. destruct (connects row'.1 t row'.2 x) eqn:E; [|done].
    rewrite (connects_exclusive row row' x Hne E) in Hx. discriminate Hx. }
  destruct (existsb (connects row'.1 t row'.2) rs); split.
  - exists r. split; [|done]. apply list_elem_of_fmap. exists r. by rewrite Hkeep.
  - intros x (y & -> & Hy)%list_elem_of_fmap Hx.
    destruct (connects row'.1 t row'.2 y) eqn:E; [|by apply Hall].
    assert (connects row.1 t row.2 (set_rel props y) = false) as Hf.
    { apply (connects_exclusive row row'); [done|].
      apply connects_spec in E. by apply connects_spec. }
    congruence.
  - exists r. split; [|done]. apply elem_of_app. by left.
  - intros x [Hx|Hx]%elem_of_app Hcx; [by apply Hall|].
    apply list_elem_of_singleton in Hx as ->.
    assert (connects row.1 t row.2 (Rel row'.1 t row'.2 props) = false) as Hf.
    { apply (connects_exclusive row row'); [done|]. by apply connects_spec. }
    congruence.
Qed.

Lemma foldl_merge_rel_settled (rows done : list (nat * nat))
  (rs : list stored_rel) :
  Forall (rel_settled t props rs) done ->
  Forall (rel_settled t props (foldl (merge_rel t props) rs rows)) (done ++ rows).
Proof.
  revert done rs. induction rows as [|row rows IH]; intros done rs Hd; simpl.
  - by rewrite app_nil_r.
  - replace (done ++ row :: rows) with ((done ++ [row]) ++ rows)
      by by rewrite <- app_assoc.
    apply IH. apply Forall_app. split.
    + eapply Forall_impl; [exact Hd|]. intros x Hx. by apply merge_rel_frame.
    + constructor; [apply merge_rel_makes_settled|constructor].
Qed.



End MergeRel.

End Neo4jFacts.

(** ** The merge transaction *)

Module UpdaterFacts.

Import Neo4j Neo4jFacts KnowledgeGraphUpdater.

Lemma preprocess_data_lookup_ne (data : gmap string string) (k : string) :
  k <> "name" -> preprocess_data data !! k = data !! k.
Proof.
  intros Hk. unfold preprocess_data. case_decide; [|done].
  by rewrite lookup_insert_ne.
Qed.

Lemma preprocess_data_named (data : gmap string string) :
  default "" (data !! "name") <> "" ->
  default "" (preprocess_data data !! "name") <> "".
Proof.
  unfold preprocess_data. case_decide; [|done]. by rewrite lookup_insert_eq.
Qed.

(** Normalising a name twice is normalising it once. *)
Lemma preprocess_data_idem (data : gmap string string) :
  preprocess_data (preprocess_data data) = preprocess_data data.
Proof.
  unfold preprocess_data.
  destruct (decide (data !! "name" = Some "纳木错")) as [H|H].
  - rewrite lookup_insert_eq. by rewrite decide_False.
  - by rewrite decide_False.
Qed.








Section Updater.
Context {W : Type}.
Variable str : W -> string.

Lemma attraction_data_name (now : string) (data : gmap string string) :
  attraction_data now data !! "name" = Some (default "" (data !! "name")).
Proof. unfold attraction_data. by simplify_map_eq. Qed.

Lemma attraction_data_location (now : string) (data : gmap string string) :
  attraction_data now data !! "location"
  = Some (default "拉萨市" (data !! "location")).
Proof. unfold attraction_data. by simplify_map_eq. Qed.


Lemma log_data_name (now name log_id reason : string) (weights : W) :
  log_data str now name log_id reason weights !! "name" = Some log_id.
Proof. unfold log_data. by simplify_map_eq. Qed.



(** The transaction as the composition of its four merges, for a fact with
    a name and a location. *)
Lemma tx_work_merges (now1 now2 : string) (g : graph)
  (data : gmap string string) (reason log_id : string) (weights : W) :
  let name := default "" (data !! "name") in
  let location := default "拉萨市" (data !! "location") in
  name <> "" -> location <> "" ->
  tx_work str now1 now2 g data reason log_id weights
  = (merge_node "UpdateLog" log_id
       (log_data str now2 name log_id reason weights)
       (merge_relationship "Attraction" name "LOCATED_IN" "City" location
          {[ "reason" := reason ]}
          (merge_node "City" location {[ "name" := location ]}
             (merge_node "Attraction" name (attraction_data now1 data) g).1).1)).1.
Proof.
  intros name location Hname Hloc. unfold tx_work.
  rewrite attraction_data_name, attraction_data_location. simpl.
  fold name location.
  apply String.eqb_neq in Hname, Hloc. rewrite Hname, Hloc. simpl.
  destruct (merge_node "Attraction" name (attraction_data now1 data) g)
    as [gA rowsA] eqn:EA.
  pose proof (merge_node_single "Attraction" name (attraction_data now1 data) g)
    as [a Ha].
  rewrite EA in Ha. simpl in Ha. rewrite Ha. simpl.
  destruct (merge_node "City" location {[ "name" := location ]} gA)
    as [gC rowsC] eqn:EC.
  pose proof (merge_node_single "City" location {[ "name" := location ]} gA)
    as [c Hc].
  rewrite EC in Hc. simpl in Hc. by rewrite Hc.
Qed.

(** Without a name or with an empty location the transaction writes
    nothing. *)
Lemma tx_work_skips (now1 now2 : string) (g : graph)
  (data : gmap string string) (reason log_id : string) (weights : W) :
  default "" (data !! "name") = "" \/ default "拉萨市" (data !! "location") = "" ->
  tx_work str now1 now2 g data reason log_id weights = g.
Proof.
  intros H. unfold tx_work.
  rewrite attraction_data_name, attraction_data_location. simpl.
  destruct H as [-> | ->]; [done|]. by rewrite orb_true_r.
Qed.


(** [preprocess_data] rewrites the caller's dict in place; a second call
    with that dict, whose name is already normalised, is the same update. *)
Lemma update_knowledge_graph_normalised (now1 now2 : string) (g : graph)
  (data : gmap string string) (log_id reason : string) (weights : W) :
  update_knowledge_graph str now1 now2 g (preprocess_data data) log_id reason weights
  = update_knowledge_graph str now1 now2 g data log_id reason weights.
Proof.
  unfold update_knowledge_graph. rewrite preprocess_data_idem.
  destruct (String.eqb (default "" (data !! "name")) "") eqn:E.
  - apply String.eqb_eq in E. unfold preprocess_data.
    case_decide as H; [|by rewrite E]. by rewrite H in E.
  - apply String.eqb_neq, preprocess_data_named, String.eqb_neq in E.
    by rewrite E.
Qed.


End Updater.




End UpdaterFacts.

(** ** More on the resolvers *)

Module ResolverMore.

Import PyTime Resolver HybridSpec ResolverSpec Scenario ResolverFacts.

(** A first maximum that is strictly above every other element is the
    element itself, wherever it stands. *)
Lemma first_max_strict {A} (m : A -> Q) (l1 l2 : list A) (w w' : A) :
  (forall x, x ∈ l1 ++ l2 -> (m x < m w)%Q) ->
  first_max m (l1 ++ w :: l2) w' -> w' = w.
Proof.
  intros Hlt (k1 & k2 & Hl & H1 & H2).
  assert (Hw' : w' ∈ l1 ++ w :: l2).
  { rewrite Hl. apply elem_of_app. right. apply elem_of_cons. by left. }
  assert (Hw : w ∈ k1 ++ w' :: k2).
  { rewrite <- Hl. apply elem_of_app. right. apply elem_of_cons. by left. }
  apply elem_of_app in Hw' as [Hw'|Hw']; [|apply elem_of_cons in Hw' as [Hw'|Hw']];
    [|done|].
  - assert (m w' < m w)%Q by (apply Hlt, elem_of_app; by left).
    apply elem_of_app in Hw as [Hw|Hw]; [|apply elem_of_cons in Hw as [Hw|Hw]];
      [|done|].
    + apply (proj1 (Forall_forall _ _) H1) in Hw. simpl in Hw. lra.
    + apply (proj1 (Forall_forall _ _) H2) in Hw. simpl in Hw. lra.
  - assert (m w' < m w)%Q by (apply Hlt, elem_of_app; by right).
    apply elem_of_app in Hw as [Hw|Hw]; [|apply elem_of_cons in Hw as [Hw|Hw]];
      [|done|].
    + apply (proj1 (Forall_forall _ _) H1) in Hw. simpl in Hw. lra.
    + apply (proj1 (Forall_forall _ _) H2) in Hw. simpl in Hw. lra.
Qed.

(** X1: WeightFirst on a non-empty list does not raise and returns a fact
    of the list of maximal weight, the first such in list order, a missing
    weight counting as 0. *)
Theorem weight_first_returns_heaviest (facts : list fact) :
  facts <> [] ->
  exists w, resolve_conflict_weight_first facts = Ok w
    /\ w ∈ facts
    /\ first_max (source_weight 0) facts w.
Proof.
  intros Hne. destruct (weight_first_first_max facts Hne) as (w & Hr & Hw).
  exists w. split; [done|]. split; [by eapply first_max_elem|done].
Qed.

Lemma weight_first_returns_heaviest_witness :
  exists w, resolve_conflict_weight_first [weighted_04; weighted_06; unweighted] = Ok w
    /\ w ∈ [weighted_04; weighted_06; unweighted]
    /\ first_max (source_weight 0) [weighted_04; weighted_06; unweighted] w.
Proof.
  apply (weight_first_returns_heaviest [weighted_04; weighted_06; unweighted]).
  discriminate.
Defined.

(** X2: WeightFirst is monotonic in weight: a fact whose weight is strictly
    above the weight of every other fact of the list wins, wherever it
    stands in the list. *)
Theorem weight_first_strictly_heaviest_wins (l1 l2 : list fact) (w : fact) :
  (forall x, x ∈ l1 ++ l2 -> (source_weight 0 x < source_weight 0 w)%Q) ->
  resolve_conflict_weight_first (l1 ++ w :: l2) = Ok w.
Proof.
  intros Hlt.
  destruct (weight_first_first_max (l1 ++ w :: l2)) as (w' & Hr & Hw');
    [by destruct l1|].
  by rewrite Hr, (first_max_strict _ _ _ _ _ Hlt Hw').
Qed.

Lemma weight_first_strictly_heaviest_wins_witness :
  resolve_conflict_weight_first ([weighted_04] ++ weighted_06 :: [unweighted])
  = Ok weighted_06.
Proof.
  apply (weight_first_strictly_heaviest_wins [weighted_04] [unweighted] weighted_06).
  intros x Hx. apply elem_of_cons in Hx as [->|Hx].
  - vm_compute. reflexivity.
  - apply list_elem_of_singleton in Hx as ->. vm_compute. reflexivity.
Defined.

Section WithParser.
Variable fromisoformat : string -> result datetime.

(** X3: Hybrid on a non-empty list, whatever the timestamps, does not raise
    and returns a fact of the list of maximal score, the first such in list
    order, with an explanation that has a table of scores. *)
Theorem hybrid_returns_top_score (now : Z) (facts : list fact) :
  facts <> [] ->
  exists w m,
    resolve_conflict_with_hybrid fromisoformat now facts
    = Ok (w, Explanation "基于综合评分选择的获胜事实" (Some m))
    /\ w ∈ facts
    /\ first_max (score fromisoformat now) facts w.
Proof.
  intros Hne.
  destruct (hybrid_first_max fromisoformat now facts Hne)
    as (w & sorted_facts & Hr & _ & _ & _ & Hw).
  exists w, (scores_dict 0 sorted_facts ∅).
  split; [done|]. split; [by eapply first_max_elem|done].
Qed.

(** The time factors of a fact whose timestamp carries a UTC offset: the
    naive [datetime.now()] cannot be subtracted from it, and the handler
    gives the defaults. *)
Lemma time_factors_aware (now : Z) (f : fact) :
  aware_timestamp fromisoformat f ->
  time_factors fromisoformat (naive now) f = (0.3, 0.3)%Q.
Proof.
  intros (s & t & off & Hs & Hne & Ht). unfold time_factors. rewrite Hs. simpl.
  apply String.eqb_neq in Hne. by rewrite Hne, Ht.
Qed.

(** X4: Hybrid does not see the age of a fact whose timestamp carries a UTC
    offset: at every reading of the clock its time freshness is 0.3 and its
    score is [base_weight*0.6 + 0.3*0.3 + content_quality*0.1], so two such
    facts with equal weights and equal-length values tie and the first in
    input order wins. *)
Theorem hybrid_ignores_aware_timestamps (now : Z) (a b : fact) :
  aware_timestamp fromisoformat a -> aware_timestamp fromisoformat b ->
  (source_weight 0.5 a == source_weight 0.5 b)%Q ->
  String.length (default "" (value a)) = String.length (default "" (value b)) ->
  time_freshness (score_fact fromisoformat (naive now) a).2 = 0.3%Q
  /\ time_freshness (score_fact fromisoformat (naive now) b).2 = 0.3%Q
  /\ (score fromisoformat now a == score fromisoformat now b)%Q
  /\ (exists e, resolve_conflict_with_hybrid fromisoformat now [a; b] = Ok (a, e))
  /\ (exists e, resolve_conflict_with_hybrid fromisoformat now [b; a] = Ok (b, e)).
Proof.
  intros Ha Hb Hw Hlen.
  assert (Heq : (score fromisoformat now a == score fromisoformat now b)%Q).
  { unfold score. rewrite !score_fact_score, !time_factors_aware, Hlen by done.
    simpl. lra. }
  split; [by rewrite score_fact_details, time_factors_aware|].
  split; [by rewrite score_fact_details, time_factors_aware|].
  split; [done|]. split.
  - rewrite hybrid_pair.
    assert (PyNum.Qltb (score fromisoformat now a) (score fromisoformat now b)
            = false) as -> by (apply Qltb_ge; lra).
    by eexists.
  - rewrite hybrid_pair.
    assert (PyNum.Qltb (score fromisoformat now b) (score fromisoformat now a)
            = false) as -> by (apply Qltb_ge; lra).
    by eexists.
Qed.

(** X5: the components of a score are bounded below, at every reading of
    the clock and for every timestamp: time decay and time freshness are at
    least 0.3, content quality lies in [0.5, 1], and the final score is at
    least [0.6*base_weight + 0.14]. *)
Theorem hybrid_component_bounds (now : Z) (f : fact) :
  let c := score_fact fromisoformat (naive now) f in
  (0.3 <= time_decay c.2)%Q
  /\ (0.3 <= time_freshness c.2)%Q
  /\ (0.5 <= content_quality c.2 <= 1)%Q
  /\ (0.6 * base_weight c.2 + 0.14 <= c.1.2)%Q.
Proof.
  intros c. unfold c. rewrite score_fact_score, score_fact_details. simpl.
  assert (Ht : (0.3 <= (time_factors fromisoformat (naive now) f).1)%Q
               /\ (0.3 <= (time_factors fromisoformat (naive now) f).2)%Q).
  { unfold time_factors. destruct (negb _); simpl; [|lra].
    destruct (fromisoformat _) as [t|]; simpl; [|lra].
    destruct (sub _ _) as [d|]; simpl; [|lra].
    set (x := (PyNum.of_int (days d) / 30)%Q).
    set (y := (PyNum.of_int (days d) / 365)%Q).
    destruct (pymax_cases 0.3 (1 - x * 0.15)) as [[? ->]|[? ->]];
      destruct (pymin_cases 1.0 y) as [[? ->]|[? ->]]; lra. }
  destruct Ht as [Ht1 Ht2].
  set (z := (PyNum.of_int (Z.of_nat (String.length (default "" (value f)))) / 200)%Q).
  assert (Hz : (0 <= z)%Q).
  { unfold z, PyNum.of_int.
    assert (E : (inject_Z (Z.of_nat (String.length (default "" (value f)))) / 200
                 == inject_Z (Z.of_nat (String.length (default "" (value f))))
                    * (1 # 200))%Q) by field.
    assert (0 <= inject_Z (Z.of_nat (String.length (default "" (value f)))))%Q.
    { change 0%Q with (inject_Z 0). rewrite <- Zle_Qle. lia. }
    lra. }
  destruct (pymin_cases 1.0 z) as [[? ->]|[? ->]]; repeat split; lra.
Qed.

(** X6: LatestFirst on facts whose timestamps all carry a UTC offset does
    not raise and returns the first fact with the latest UTC instant: the
    offsets are taken into account. *)
Theorem latest_first_aware_returns_latest (facts : list fact) :
  facts <> [] -> Forall (aware_timestamp fromisoformat) facts ->
  exists w, resolve_conflict_latest_first fromisoformat facts = Ok w
    /\ w ∈ facts
    /\ first_max (fun f => inject_Z (utc_instant (parse_timestamp fromisoformat f)))
         facts w.
Proof.
  intros Hne Haware.
  assert (Hkey : forall f, f ∈ facts ->
            exists t off, parse_timestamp fromisoformat f = Datetime t (Some off)).
  { intros f Hf. apply (proj1 (Forall_forall _ _) Haware) in Hf
      as (s & t & off & Hs & Hn & Ht).
    exists t, off. by apply (parse_timestamp_usable fromisoformat f s). }
  destruct (sorted_reverse_first_max lt (parse_timestamp fromisoformat)
              (fun f => inject_Z (utc_instant (parse_timestamp fromisoformat f)))
              facts Hne) as (w & r & Hs & Hw).
  { intros x y Hx Hy.
    destruct (Hkey x Hx) as (tx & ox & ->), (Hkey y Hy) as (ty & oy & ->).
    unfold lt, utc_instant, PyNum.Qltb. simpl. by rewrite !Z.mul_1_r. }
  exists w. split; [|split; [by eapply first_max_elem|done]].
  unfold resolve_conflict_latest_first. destruct facts; [done|]. by rewrite Hs.
Qed.

(** X7: LatestFirst on facts whose timestamps carry no UTC offset does not
    raise and returns the first fact with the latest wall-clock time, a
    missing, empty or unparsable timestamp counting as [datetime.min]. *)
Theorem latest_first_naive_returns_latest (facts : list fact) :
  facts <> [] -> Forall (timezone_free fromisoformat) facts ->
  exists w, resolve_conflict_latest_first fromisoformat facts = Ok w
    /\ w ∈ facts
    /\ first_max (fun f => inject_Z (wall (parse_timestamp fromisoformat f)))
         facts w.
Proof.
  intros Hne Hfree.
  destruct (latest_first_timezone_free fromisoformat facts Hne Hfree)
    as (w & Hr & Hw).
  exists w. split; [done|]. split; [by eapply first_max_elem|done].
Qed.

(** *** The table of scores *)

Lemma scores_dict_is_Some (i : nat) (l : list (fact * Q * details))
  (acc : gmap string score_entry) (k : string) :
  is_Some (acc !! k)
  \/ (exists j c, l !! j = Some c /\ score_key (i + j) c.1.1 = k) ->
  is_Some (scores_dict i l acc !! k).
Proof.
  revert i acc. induction l as [|[[f q] d] l IH]; intros i acc.
  - intros [H|(j & c & Hj & _)]; [done|]. by rewrite lookup_nil in Hj.
  - intros H. simpl. apply IH.
    destruct (decide (score_key i f = k)) as [<-|Hk].
    + left. rewrite lookup_insert_eq. by eexists.
    + destruct H as [H|(j & c & Hj & Hc)].
      * left. by rewrite lookup_insert_ne.
      * destruct j as [|j].
        -- injection Hj as <-. simpl in Hc. by rewrite Nat.add_0_r in Hc.
        -- right. exists j, c. split; [done|].
           by replace (S i + j)%nat with (i + S j)%nat by lia.
Qed.

Lemma scores_dict_size (i : nat) (l : list (fact * Q * details))
  (acc : gmap string score_entry) :
  (size acc <= size (scores_dict i l acc) <= size acc + length l)%nat.
Proof.
  revert i acc. induction l as [|[[f q] d] l IH]; intros i acc; simpl; [lia|].
  specialize (IH (S i) (<[score_key i f := ScoreEntry q d]> acc)).
  destruct (acc !! score_key i f) eqn:E.
  - rewrite map_size_insert_Some in IH by by eexists. lia.
  - rewrite map_size_insert_None in IH by done. lia.
Qed.

(** X8: the explanation of Hybrid has an entry under the key of every
    candidate, at least one entry and at most one per candidate. *)
Theorem hybrid_explanation_keys (now : Z) (facts : list fact) :
  facts <> [] ->
  exists w sorted_facts m,
    resolve_conflict_with_hybrid fromisoformat now facts
    = Ok (w, Explanation "基于综合评分选择的获胜事实" (Some m))
    /\ sorted_facts ≡ₚ score_fact fromisoformat (naive now) <$> facts
    /\ (forall j c, sorted_facts !! j = Some c ->
          is_Some (m !! score_key j c.1.1))
    /\ (1 <= size m <= length facts)%nat.
Proof.
  intros Hne.
  destruct (hybrid_first_max fromisoformat now facts Hne)
    as (w & sorted_facts & Hr & Hperm & _ & Hhd & _).
  exists w, sorted_facts, (scores_dict 0 sorted_facts ∅).
  split; [done|]. split; [done|]. split.
  - intros j c Hj. apply scores_dict_is_Some. right. by exists j, c.
  - pose proof (scores_dict_size 0 sorted_facts ∅) as Hsize.
    rewrite map_size_empty in Hsize.
    assert (length sorted_facts = length facts) as Hlen.
    { by rewrite Hperm, length_fmap. }
    split; [|lia].
    destruct sorted_facts as [|c0 rest]; [done|].
    assert (is_Some (scores_dict 0 (c0 :: rest) ∅ !! score_key 0 c0.1.1)) as [e He].
    { apply scores_dict_is_Some. right. by exists 0%nat, c0. }
    destruct (decide (size (scores_dict 0 (c0 :: rest) ∅) = 0%nat)) as [Hz|Hz]; [|lia].
    apply map_size_empty_inv in Hz. rewrite Hz, lookup_empty in He. discriminate He.
Qed.

End WithParser.

Lemma hybrid_returns_top_score_witness :
  exists w m,
    resolve_conflict_with_hybrid fromisoformat_seconds at_2024_01_01
      [dated_utc; undated; misdated; newer]
    = Ok (w, Explanation "基于综合评分选择的获胜事实" (Some m))
    /\ w ∈ [dated_utc; undated; misdated; newer]
    /\ first_max (score fromisoformat_seconds at_2024_01_01)
         [dated_utc; undated; misdated; newer] w.
Proof.
  apply (hybrid_returns_top_score fromisoformat_seconds at_2024_01_01
           [dated_utc; undated; misdated; newer]).
  discriminate.
Defined.

Lemma hybrid_ignores_aware_timestamps_witness :
  time_freshness (score_fact fromisoformat_seconds (naive at_2024_01_01) weighted_04).2
  = 0.3%Q
  /\ time_freshness (score_fact fromisoformat_seconds (naive at_2024_01_01) dated_utc).2
     = 0.3%Q
  /\ (score fromisoformat_seconds at_2024_01_01 weighted_04
      == score fromisoformat_seconds at_2024_01_01 dated_utc)%Q
  /\ (exists e, resolve_conflict_with_hybrid fromisoformat_seconds at_2024_01_01
                  [weighted_04; dated_utc] = Ok (weighted_04, e))
  /\ (exists e, resolve_conflict_with_hybrid fromisoformat_seconds at_2024_01_01
                  [dated_utc; weighted_04] = Ok (dated_utc, e)).
Proof.
  apply (hybrid_ignores_aware_timestamps fromisoformat_seconds at_2024_01_01
           weighted_04 dated_utc).
  - exists "2021-03-10T10:20:00Z", (wall_of 2021 3 10 10 20 0), 0%Z.
    split; [reflexivity|]. split; [discriminate|]. vm_compute. reflexivity.
  - exists "2023-05-20T09:15:00Z", (wall_of 2023 5 20 9 15 0), 0%Z.
    split; [reflexivity|]. split; [discriminate|]. vm_compute. reflexivity.
  - vm_compute. reflexivity.
  - reflexivity.
Defined.

Lemma latest_first_aware_returns_latest_witness :
  exists w, resolve_conflict_latest_first fromisoformat_seconds
              [weighted_04; dated_utc] = Ok w
    /\ w ∈ [weighted_04; dated_utc]
    /\ first_max (fun f => inject_Z (utc_instant
                                       (parse_timestamp fromisoformat_seconds f)))
         [weighted_04; dated_utc] w.
Proof.
  apply (latest_first_aware_returns_latest fromisoformat_seconds
           [weighted_04; dated_utc]).
  - discriminate.
  - repeat constructor.
    + exists "2021-03-10T10:20:00Z", (wall_of 2021 3 10 10 20 0), 0%Z.
      split; [reflexivity|]. split; [discriminate|]. vm_compute. reflexivity.
    + exists "2023-05-20T09:15:00Z", (wall_of 2023 5 20 9 15 0), 0%Z.
      split; [reflexivity|]. split; [discriminate|]. vm_compute. reflexivity.
Defined.

Lemma latest_first_naive_returns_latest_witness :
  exists w, resolve_conflict_latest_first fromisoformat_seconds
              [older; undated; newer] = Ok w
    /\ w ∈ [older; undated; newer]
    /\ first_max (fun f => inject_Z (wall (parse_timestamp fromisoformat_seconds f)))
         [older; undated; newer] w.
Proof.
  apply (latest_first_naive_returns_latest fromisoformat_seconds
           [older; undated; newer]).
  - discriminate.
  - repeat constructor.
    + intros s t [= <-] Ht. vm_compute in Ht. by injection Ht as <-.
    + intros s t Hs. discriminate Hs.
    + intros s t [= <-] Ht. vm_compute in Ht. by injection Ht as <-.
Defined.

Lemma hybrid_explanation_keys_witness :
  exists w sorted_facts m,
    resolve_conflict_with_hybrid fromisoformat_seconds at_2024_01_01
      [page_v1; page_v2; undated]
    = Ok (w, Explanation "基于综合评分选择的获胜事实" (Some m))
    /\ sorted_facts
       ≡ₚ score_fact fromisoformat_seconds (naive at_2024_01_01)
            <$> [page_v1; page_v2; undated]
    /\ (forall j c, sorted_facts !! j = Some c ->
          is_Some (m !! score_key j c.1.1))
    /\ (1 <= size m <= length [page_v1; page_v2; undated])%nat.
Proof.
  apply (hybrid_explanation_keys fromisoformat_seconds at_2024_01_01
           [page_v1; page_v2; undated]).
  discriminate.
Defined.

End ResolverMore.

(** ** More on utils.py *)

Module UtilsMore.

Import PyTime Utils WeightSpec WeightFacts Scenario2 Scenario3.
Local Open Scope Q_scope.

Section WithLibraries.
Variable fromisoformat : string -> result datetime.
Variable encode_dot : string -> string -> result Q.

(** X9: the semantic similarity always lies in [0, 1], whatever the model
    returns; it is 0 when one of the texts is empty and when the model
    raises, and otherwise the dot product clamped to [0, 1]. *)
Theorem compute_semantic_similarity_range (text1 text2 : string) :
  let s := compute_semantic_similarity encode_dot text1 text2 in
  0 <= s <= 1
  /\ (text1 = "" \/ text2 = "" -> s = 0.0)
  /\ (forall e, encode_dot text1 text2 = Raise e -> s = 0.0)
  /\ (forall x, text1 <> "" -> text2 <> "" -> encode_dot text1 text2 = Ok x ->
        s == clamp01 x).
Proof.
  intros s. unfold s, compute_semantic_similarity. split; [|split; [|split]].
  - destruct (_ || _); simpl; [lra|].
    destruct (encode_dot text1 text2) as [x|]; simpl; [|lra].
    rewrite (clamp_code _ _ (Qeq_refl _)). apply clamp01_bounds.
  - intros [-> | ->]; [done|]. by rewrite orb_true_r.
  - intros e He. rewrite He. by destruct (_ || _).
  - intros x H1%String.eqb_neq H2%String.eqb_neq Hx. rewrite H1, H2, Hx. simpl.
    by apply clamp_code.
Qed.

(** X10: a record whose [pub_timestamp] parses to a naive datetime weighs
    0, whatever its rating and source: the aware [now] cannot be subtracted
    from it and the handler returns 0. *)
Theorem compute_dynamic_weight_naive_timestamp (now_wall tz : Z)
  (data : gmap string string) (metrics : gmap string metric) (s : string) (t : Z) :
  data !! "pub_timestamp" = Some s -> s <> "" ->
  fromisoformat (replace_Z s) = Ok (naive t) ->
  compute_dynamic_weight fromisoformat (aware now_wall tz) data metrics = 0.0.
Proof.
  intros Hs Hne%String.eqb_neq Ht. unfold compute_dynamic_weight.
  destruct (true_div _ _) as [b|]; simpl; [|done].
  by rewrite Hs; simpl; rewrite Hne, Ht.
Qed.

(** X11: the weight never grows with time: for the same record and
    metrics, a later reading of the clock gives a weight that is at most the
    weight of an earlier reading. *)
Theorem compute_dynamic_weight_decays (now1 now2 tz : Z)
  (data : gmap string string) (metrics : gmap string metric) :
  (now1 <= now2)%Z ->
  compute_dynamic_weight fromisoformat (aware now2 tz) data metrics
  <= compute_dynamic_weight fromisoformat (aware now1 tz) data metrics.
Proof.
  intros Hnow. unfold compute_dynamic_weight.
  destruct (true_div _ _) as [b0|]; simpl; [|lra].
  set (b := if decide _ then _ else _).
  destruct (negb _); simpl; [|lra].
  destruct (fromisoformat _) as [[t [off|]]|]; simpl; [| |lra].
  2: { unfold sub. simpl. lra. }
  unfold sub. simpl.
  set (d1 := days (now1 - tz - (t - off))).
  set (d2 := days (now2 - tz - (t - off))).
  assert (Hd : (d1 <= d2)%Z).
  { unfold d1, d2, days. apply Z.div_le_mono; [unfold us_per_day|]; lia. }
  assert (Hq : inject_Z d1 <= inject_Z d2) by by rewrite <- Zle_Qle.
  unfold PyNum.of_int.
  assert (E1 : inject_Z d1 / 365.0 == inject_Z d1 * (1 # 365)) by field.
  assert (E2 : inject_Z d2 / 365.0 == inject_Z d2 * (1 # 365)) by field.
  set (f1 := PyNum.max 0.0 (1.0 - inject_Z d1 / 365.0)).
  set (f2 := PyNum.max 0.0 (1.0 - inject_Z d2 / 365.0)).
  assert (Hf : 0 <= f2 /\ f2 <= f1).
  { unfold f1, f2.
    destruct (pymax_cases 0.0 (1.0 - inject_Z d1 / 365.0)) as [[? ->]|[? ->]];
      destruct (pymax_cases 0.0 (1.0 - inject_Z d2 / 365.0)) as [[? ->]|[? ->]];
      lra. }
  destruct Hf as [Hf0 Hf12].
  assert (Hp : (0 <= b /\ b * f2 <= b * f1) \/ (b * f1 <= 0 /\ b * f2 <= 0)).
  { destruct (Qlt_le_dec b 0); [right|left]; split; nra. }
  destruct (pymax_cases 0.0 (PyNum.min 1.0 (b * f2))) as [[? ->]|[? ->]];
    destruct (pymax_cases 0.0 (PyNum.min 1.0 (b * f1))) as [[? ->]|[? ->]];
    destruct (pymin_cases 1.0 (b * f2)) as [[? Hm2]|[? Hm2]]; rewrite ?Hm2 in *;
    destruct (pymin_cases 1.0 (b * f1)) as [[? Hm1]|[? Hm1]]; rewrite ?Hm1 in *;
    destruct Hp as [[? ?]|[? ?]]; lra.
Qed.

End WithLibraries.

Lemma compute_dynamic_weight_naive_timestamp_witness :
  compute_dynamic_weight fromisoformat_seconds (aware wall_2024_01_01 beijing)
    crawled_naive rated_4 = 0.0.
Proof.
  apply (compute_dynamic_weight_naive_timestamp fromisoformat_seconds
           wall_2024_01_01 beijing crawled_naive rated_4
           "2023-12-01T00:00:00" (wall_of 2023 12 1 0 0 0)).
  - reflexivity.
  - discriminate.
  - vm_compute. reflexivity.
Defined.

Lemma compute_dynamic_weight_decays_witness :
  compute_dynamic_weight fromisoformat_seconds (aware wall_2024_07_01 beijing)
    curated rated_4
  <= compute_dynamic_weight fromisoformat_seconds (aware wall_2024_01_01 beijing)
       curated rated_4.
Proof.
  apply (compute_dynamic_weight_decays fromisoformat_seconds
           wall_2024_01_01 wall_2024_07_01 beijing curated rated_4).
  apply Z.leb_le. vm_compute. reflexivity.
Defined.

Lemma CITY_MAP_range (k v : string) : CITY_MAP !! k = Some v -> v = "拉萨市".
Proof.
  unfold CITY_MAP. intros H.
  repeat (apply lookup_insert_Some in H as [[_ <-]|[_ H]]; [done|]).
  by apply lookup_singleton_Some in H as [_ <-].
Qed.

(** [normalize_location] is idempotent, and it returns the Lhasa city
    name or its argument. *)
Lemma normalize_location_idempotent (location : string) :
  normalize_location (normalize_location location) = normalize_location location
  /\ (normalize_location location = "拉萨市"
      \/ normalize_location location = location).
Proof.
  unfold normalize_location. destruct (CITY_MAP !! location) as [v|] eqn:E; simpl.
  - apply CITY_MAP_range in E as ->. split; [|by left]. vm_compute. reflexivity.
  - rewrite E. split; [done|by right].
Qed.

End UtilsMore.

(** ** More on the conflict queue and the detector *)

Module QueueFacts.

Import Utils ConflictResolver ConflictQueue ConflictFacts Scenario2.
Local Open Scope Q_scope.

Section Queue.
Context {J : Type}.
Variable json_loads : string -> option J.
Variable json_dumps : J -> string.





End Queue.


Section Detector.
Context {P : Type}.
Variable json_dumps : P -> string.
Variable encode_dot : string -> string -> result Q.

Lemma check_relationship_conflict_exists (rel : relationship P)
  (existing_rels : list (relationship P)) :
  check_relationship_conflict json_dumps encode_dot rel existing_rels = true <->
  exists existing, existing ∈ existing_rels
    /\ same_edge rel existing = true
    /\ PyNum.Qltb 0.7 (similarity_of json_dumps encode_dot rel existing) = true.
Proof.
  induction existing_rels as [|x l IH]; simpl.
  - split; [done|]. intros (e & He & _). by apply elem_of_nil in He.
  - destruct (same_edge rel x) eqn:Hsame;
      [destruct (PyNum.Qltb 0.7 (similarity_of json_dumps encode_dot rel x)) eqn:Hlt|].
    + split; [intros _|done]. exists x. split; [apply elem_of_cons; by left|done].
    + rewrite IH. split; intros (e & He & Hs & Hq).
      * exists e. split; [apply elem_of_cons; by right|done].
      * apply elem_of_cons in He as [->|He]; [congruence|by exists e].
    + rewrite IH. split; intros (e & He & Hs & Hq).
      * exists e. split; [apply elem_of_cons; by right|done].
      * apply elem_of_cons in He as [->|He]; [congruence|by exists e].
Qed.

(** X14: the verdict of [check_relationship_conflict] does not depend on
    the order of the existing relationships, and it can only turn from
    "no conflict" to "conflict" when existing relationships are added. *)
Theorem check_relationship_conflict_order (rel : relationship P)
  (l1 l2 : list (relationship P)) :
  (l1 ≡ₚ l2 ->
   check_relationship_conflict json_dumps encode_dot rel l1
   = check_relationship_conflict json_dumps encode_dot rel l2)
  /\ (check_relationship_conflict json_dumps encode_dot rel l1 = true ->
      check_relationship_conflict json_dumps encode_dot rel (l1 ++ l2) = true).
Proof.
  split.
  - intros Hp.
    destruct (check_relationship_conflict json_dumps encode_dot rel l1) eqn:E1;
      destruct (check_relationship_conflict json_dumps encode_dot rel l2) eqn:E2;
      try done.
    + apply check_relationship_conflict_exists in E1 as (e & He & Hs).
      assert (check_relationship_conflict json_dumps encode_dot rel l2 = true).
      { apply check_relationship_conflict_exists. exists e. by rewrite <- Hp. }
      congruence.
    + apply check_relationship_conflict_exists in E2 as (e & He & Hs).
      assert (check_relationship_conflict json_dumps encode_dot rel l1 = true).
      { apply check_relationship_conflict_exists. exists e. by rewrite Hp. }
      congruence.
  - intros (e & He & Hs)%check_relationship_conflict_exists.
    apply check_relationship_conflict_exists. exists e.
    split; [apply elem_of_app; by left|done].
Qed.

End Detector.

End QueueFacts.

(** ** The CRUD layer *)

Module CrudFacts.

Import Neo4j Neo4jFacts Neo4jCRUD.

Lemma elem_of_bound_from (k i : nat) (l name : string) (ns : list node) :
  i ∈ bound_from k l name ns <->
  exists n, (k <= i)%nat /\ ns !! (i - k)%nat = Some n /\ matches l name n = true.
Proof.
  revert k. induction ns as [|x ns IH]; intros k; simpl.
  - split; [intros H; by apply elem_of_nil in H|]. by intros (n & _ & H & _).
  - assert (Hrest : i ∈ bound_from (S k) l name ns <->
             exists n, (k < i)%nat /\ (x :: ns) !! (i - k)%nat = Some n
                       /\ matches l name n = true).
    { rewrite IH. split; intros (n & Hk & Hn & Hm); exists n.
      - split; [lia|]. split; [|done].
        replace (i - k)%nat with (S (i - S k)) by lia. done.
      - split; [lia|]. split; [|done].
        replace (i - k)%nat with (S (i - S k)) in Hn by lia. done. }
    destruct (matches l name x) eqn:E.
    + rewrite elem_of_cons, Hrest. split.
      * intros [->|(n & Hk & Hn & Hm)].
        -- exists x. rewrite Nat.sub_diag. by repeat split.
        -- exists n. split; [lia|done].
      * intros (n & Hk & Hn & Hm).
        destruct (decide (i = k)) as [->|Hne]; [by left|].
        right. exists n. split; [lia|done].
    + rewrite Hrest. split; intros (n & Hk & Hn & Hm); exists n.
      * split; [lia|done].
      * split; [|done].
        destruct (decide (i = k)) as [->|Hne]; [|lia].
        rewrite Nat.sub_diag in Hn. simpl in Hn. congruence.
Qed.

Lemma elem_of_match_nodes (i : nat) (l name : string) (g : graph) :
  i ∈ match_nodes l name g <->
  exists n, nodes g !! i = Some n /\ matches l name n = true.
Proof.
  unfold match_nodes. rewrite elem_of_bound_from.
  rewrite Nat.sub_0_r. split.
  - intros (n & _ & H). by exists n.
  - intros (n & H). exists n. split; [lia|done].
Qed.

Lemma node_exists_spec (l name : string) (g : graph) :
  node_exists l name g = true <->
  exists n, n ∈ nodes g /\ matches l name n = true.
Proof.
  unfold node_exists, single.
  destruct (match_nodes l name g) as [|i rows] eqn:E; simpl.
  - split; [done|]. intros (n & Hn & Hm).
    rewrite match_nodes_nil in E. rewrite (E n Hn) in Hm. discriminate Hm.
  - split; [intros _|done].
    assert (i ∈ match_nodes l name g) as (n & Hn & Hm)%elem_of_match_nodes.
    { rewrite E. apply elem_of_cons. by left. }
    exists n. split; [by eapply list_elem_of_lookup_2|done].
Qed.

Lemma ensure_node_nodes (l name : string) (g : graph) :
  exists new, nodes (ensure_node l name g) = nodes g ++ new
    /\ relationships (ensure_node l name g) = relationships g.
Proof.
  unfold ensure_node. destruct (match_nodes l name g).
  - by eexists.
  - exists []. by rewrite app_nil_r.
Qed.

Lemma ensure_node_exists (l name : string) (g : graph) :
  node_exists l name (ensure_node l name g) = true.
Proof.
  apply node_exists_spec. unfold ensure_node.
  destruct (match_nodes l name g) as [|i rows] eqn:E.
  - exists (Node l {[ "name" := name ]}). split.
    + simpl. apply elem_of_app. right. apply elem_of_cons. by left.
    + apply matches_spec. split; [done|]. simpl. apply lookup_singleton_eq.
  - apply node_exists_spec. unfold node_exists, single. by rewrite E.
Qed.

Lemma ensure_node_keeps (l name l' name' : string) (g : graph) :
  node_exists l' name' g = true ->
  node_exists l' name' (ensure_node l name g) = true.
Proof.
  intros (n & Hn & Hm)%node_exists_spec. apply node_exists_spec.
  destruct (ensure_node_nodes l name g) as (new & -> & _).
  exists n. split; [apply elem_of_app; by left|done].
Qed.


Lemma node_exists_rows (l name : string) (g : graph) :
  node_exists l name g = true ->
  exists i rows, match_nodes l name g = i :: rows.
Proof.
  unfold node_exists, single. destruct (match_nodes l name g) as [|i rows]; [done|].
  by exists i, rows.
Qed.

Section CreateRelationship.
Variables (sl sn tl tn t : string) (props : gmap string string).

(** The graph on which the relationship is merged. *)
Lemma create_relationship_unfold (g : graph) :
  let g2 := ensure_node tl tn (ensure_node sl sn g) in
  node_exists sl sn g2 = true /\ node_exists tl tn g2 = true
  /\ create_relationship sl sn tl tn t props g
     = (merge_relationship sl sn t tl tn props g2, true).
Proof.
  intros g2.
  assert (Hs : node_exists sl sn g2 = true)
    by apply ensure_node_keeps, ensure_node_exists.
  assert (Ht : node_exists tl tn g2 = true) by apply ensure_node_exists.
  split; [done|]. split; [done|].
  unfold create_relationship. fold g2.
  destruct (node_exists_rows _ _ _ Hs) as (a & ra & ->).
  destruct (node_exists_rows _ _ _ Ht) as (c & rc & ->).
  done.
Qed.



End CreateRelationship.

(** *** No parallel relationships *)

Lemma filter_none {A} (P : A -> Prop) `{!forall x, Decision (P x)} (l : list A) :
  (forall x, x ∈ l -> ~ P x) -> filter P l = [].
Proof.
  induction l as [|x l IH]; intros Hnone; [done|].
  rewrite filter_cons_False by (apply Hnone, elem_of_cons; by left).
  apply IH. intros y Hy. apply Hnone, elem_of_cons. by right.
Qed.

Lemma merge_rel_parallel (t : string) (props : gmap string string)
  (rs : list stored_rel) (row : nat * nat) (a c : nat) (t' : string) :
  length (filter (fun r => connects a t' c r = true) (merge_rel t props rs row))
  = if decide (length (filter (fun r => connects a t' c r = true) rs) = 0%nat
               /\ row = (a, c) /\ t = t')
    then 1%nat
    else length (filter (fun r => connects a t' c r = true) rs).
Proof.
  unfold merge_rel.
  destruct (existsb (connects row.1 t row.2) rs) eqn:E.
  - assert (Hmap : filter (fun r => connects a t' c r = true)
                     (map (fun r => if connects row.1 t row.2 r
                                    then set_rel props r else r) rs)
                   = map (fun r => if connects row.1 t row.2 r
                                   then set_rel props r else r)
                       (filter (fun r => connects a t' c r = true) rs)).
    { clear E. induction rs as [|x rs IH]; [done|]. simpl.
      assert (Hsame : connects a t' c
                        (if connects row.1 t row.2 x then set_rel props x else x)
                      = connects a t' c x).
      { by destruct (connects row.1 t row.2 x). }
      rewrite !filter_cons, Hsame. case_decide; simpl; by rewrite IH. }
    rewrite Hmap, length_map. case_decide as Hd; [|done].
    destruct Hd as (Hz & -> & <-). exfalso.
    apply existsb_exists in E as (r & Hr%list_elem_of_In & Hc). simpl in Hc.
    assert (r ∈ filter (fun r => connects a t c r = true) rs) as Hin
      by by apply list_elem_of_filter.
    destruct (filter (fun r => connects a t c r = true) rs); [|done].
    by apply elem_of_nil in Hin.
  - rewrite filter_app, length_app.
    destruct (decide (row = (a, c) /\ t = t')) as [[-> <-]|Hne].
    + rewrite filter_cons_True by (by apply connects_spec). simpl.
      assert (filter (fun r => connects a t c r = true) rs = []) as ->.
      { apply filter_none. intros r Hr Hc.
        assert (existsb (connects a t c) rs = true); [|simpl in E; congruence].
        apply existsb_exists. exists r. split; [by apply list_elem_of_In|done]. }
      simpl. by rewrite decide_True.
    + rewrite filter_cons_False.
      * simpl. rewrite Nat.add_0_r. rewrite decide_False; [done|]. tauto.
      * intros (H1 & H2 & H3)%connects_spec. simpl in *. apply Hne.
        destruct row. simpl in *. by subst.
Qed.

Lemma foldl_merge_rel_parallel (t : string) (props : gmap string string)
  (rows : list (nat * nat)) (rs : list stored_rel) (a c : nat) (t' : string) :
  let before := length (filter (fun r => connects a t' c r = true) rs) in
  let after := length (filter (fun r => connects a t' c r = true)
                         (foldl (merge_rel t props) rs rows)) in
  (before <= after <= Nat.max 1 before)%nat
  /\ (t' <> t -> after = before).
Proof.
  revert rs. induction rows as [|row rows IH]; intros rs; simpl; [lia|].
  specialize (IH (merge_rel t props rs row)). simpl in IH.
  rewrite merge_rel_parallel in IH.
  case_decide as Hd; [|done].
  destruct Hd as (Hz & _ & <-). rewrite Hz. split; [lia|]. done.
Qed.

(** X17: [create_relationship] never makes a second relationship of a type
    between two nodes: between any two nodes and for any type the number of
    relationships stays what it was, or becomes one where there was none;
    relationships of other types are not counted differently. *)
Theorem create_relationship_no_parallel
  (sl sn tl tn t : string) (props : gmap string string) (g : graph)
  (a c : nat) (t' : string) :
  let g' := (create_relationship sl sn tl tn t props g).1 in
  (length (parallel a t' c g) <= length (parallel a t' c g')
   <= Nat.max 1 (length (parallel a t' c g)))%nat
  /\ (t' <> t -> length (parallel a t' c g') = length (parallel a t' c g)).
Proof.
  intros g'. unfold g'.
  destruct (create_relationship_unfold sl sn tl tn t props g) as (_ & _ & ->).
  unfold parallel, merge_relationship. cbn [fst relationships].
  destruct (ensure_node_nodes tl tn (ensure_node sl sn g)) as (n2 & _ & ->).
  destruct (ensure_node_nodes sl sn g) as (n1 & _ & ->).
  apply foldl_merge_rel_parallel.
Qed.

(** The example store, a relationship created and read back. *)
Example create_relationship_example :
  get_relationships "Attraction" "Jokhang"
    (create_relationship "Attraction" "Jokhang" "Attraction" "Barkhor" "NEARBY"
       nearby_props lhasa).1
  = [RelRow (Some "Jokhang") "LOCATED_IN" (Some "Lhasa") {[ "reason" := "import" ]};
     RelRow (Some "Jokhang") "NEARBY" (Some "Barkhor") nearby_props].
Proof. vm_compute. reflexivity. Qed.

End CrudFacts.

(** ** More on the merge transaction *)

Module UpdaterMore.

Import Neo4j Neo4jFacts Neo4jCRUD CrudFacts KnowledgeGraphUpdater UpdaterFacts
  Scenario4.

(** What a merge does to the node at a given position. *)
Lemma merge_node_lookup (l name : string) (props : gmap string string)
  (g : graph) (i : nat) (n : node) :
  props !! "name" = Some name -> nodes g !! i = Some n ->
  exists n', nodes (merge_node l name props g).1 !! i = Some n'
    /\ label n' = label n
    /\ node_props n' !! "name" = node_props n !! "name"
    /\ dom (node_props n) ⊆ dom (node_props n')
    /\ (matches l name n = false -> n' = n).
Proof.
  intros Hp Hi.
  destruct (merge_node_Forall2_or_new l name props Hp g) as (new & -> & _).
  exists (if matches l name n then set_node props n else n). split.
  - apply lookup_app_l_Some. by rewrite list_lookup_fmap, Hi.
  - destruct (matches l name n) eqn:Hm; [|done]. simpl.
    apply matches_spec in Hm as [_ Hm].
    split; [done|]. split; [|split; [|done]].
    + rewrite Hm. by apply lookup_union_Some_l.
    + rewrite dom_union_L. set_solver.
Qed.

Lemma merge_node_length (l name : string) (props : gmap string string)
  (g : graph) :
  props !! "name" = Some name ->
  (length (nodes g) <= length (nodes (merge_node l name props g).1)
   <= S (length (nodes g)))%nat.
Proof.
  intros Hp.
  destruct (merge_node_Forall2_or_new l name props Hp g)
    as (new & -> & _ & Hone & Hnone).
  rewrite length_app, length_map.
  destruct (match_nodes l name g) eqn:E.
  - rewrite Hone by done. lia.
  - rewrite Hnone by done. simpl. lia.
Qed.

Lemma merge_rel_lookup (t : string) (props : gmap string string)
  (rs : list stored_rel) (row : nat * nat) (j : nat) (r : stored_rel) :
  rs !! j = Some r ->
  exists r', merge_rel t props rs row !! j = Some r'
    /\ start_node r' = start_node r /\ rel_type r' = rel_type r
    /\ end_node r' = end_node r /\ dom (rel_props r) ⊆ dom (rel_props r').
Proof.
  intros Hj. unfold merge_rel. destruct (existsb _ rs).
  - exists (if connects row.1 t row.2 r then set_rel props r else r). split.
    + by rewrite list_lookup_fmap, Hj.
    + destruct (connects row.1 t row.2 r); [|done]. simpl.
      repeat split; try done. rewrite dom_union_L. set_solver.
  - exists r. split; [by apply lookup_app_l_Some|done].
Qed.

Lemma foldl_merge_rel_lookup (t : string) (props : gmap string string)
  (rows : list (nat * nat)) (rs : list stored_rel) (j : nat) (r : stored_rel) :
  rs !! j = Some r ->
  exists r', foldl (merge_rel t props) rs rows !! j = Some r'
    /\ start_node r' = start_node r /\ rel_type r' = rel_type r
    /\ end_node r' = end_node r /\ dom (rel_props r) ⊆ dom (rel_props r').
Proof.
  revert rs r. induction rows as [|row rows IH]; intros rs r Hj; simpl.
  - by exists r.
  - destruct (merge_rel_lookup t props rs row j r Hj)
      as (r1 & H1 & Hs1 & Ht1 & He1 & Hd1).
    destruct (IH _ _ H1) as (r2 & H2 & Hs2 & Ht2 & He2 & Hd2).
    exists r2. split; [done|]. repeat split; try congruence. set_solver.
Qed.

Lemma preprocess_data_not_alias (data : gmap string string) :
  default "" (preprocess_data data !! "name") <> "纳木错".
Proof.
  unfold preprocess_data. case_decide as H.
  - by rewrite lookup_insert_eq.
  - destruct (data !! "name") as [s|]; simpl; [congruence|done].
Qed.

(** X18: [preprocess_data] touches the name only, is idempotent, and never
    leaves the alias spelling of Namtso as the name. *)
Theorem preprocess_data_normalises (data : gmap string string) :
  preprocess_data (preprocess_data data) = preprocess_data data
  /\ (forall k, k <> "name" -> preprocess_data data !! k = data !! k)
  /\ default "" (preprocess_data data !! "name") <> "纳木错"
  /\ (data !! "name" <> Some "纳木错" -> preprocess_data data = data).
Proof.
  split; [apply preprocess_data_idem|].
  split; [intros k Hk; by apply preprocess_data_lookup_ne|].
  split; [apply preprocess_data_not_alias|].
  intros H. unfold preprocess_data. by rewrite decide_False.
Qed.

Section Updater.
Context {W : Type}.
Variable str : W -> string.

(** After the transaction, the properties it merged are stored on every
    node and relationship it matched. *)
Lemma tx_work_settled (now1 now2 : string) (g : graph)
  (data : gmap string string) (reason log_id : string) (weights : W) :
  let name := default "" (data !! "name") in
  let location := default "拉萨市" (data !! "location") in
  let g' := tx_work str now1 now2 g data reason log_id weights in
  name <> "" -> location <> "" ->
  settled "Attraction" name (attraction_data now1 data) (nodes g')
  /\ settled "City" location {[ "name" := location ]} (nodes g')
  /\ settled "UpdateLog" log_id
       (log_data str now2 name log_id reason weights) (nodes g')
  /\ Forall (rel_settled "LOCATED_IN" {[ "reason" := reason ]} (relationships g'))
       (a ← match_nodes "Attraction" name g';
        c ← match_nodes "City" location g'; [(a, c)]).
Proof.
  intros name location g' Hname Hloc. unfold g'.
  rewrite (tx_work_merges str now1 now2 g) by done. fold name location.
  set (pa := attraction_data now1 data).
  set (pc := ({[ "name" := location ]} : gmap string string)).
  set (pr := ({[ "reason" := reason ]} : gmap string string)).
  set (pl := log_data str now2 name log_id reason weights).
  assert (Hpa : pa !! "name" = Some name) by apply attraction_data_name.
  assert (Hpc : pc !! "name" = Some location) by apply lookup_singleton_eq.
  assert (Hpl : pl !! "name" = Some log_id) by apply log_data_name.
  set (gA := (merge_node "Attraction" name pa g).1).
  set (gC := (merge_node "City" location pc gA).1).
  set (gR := merge_relationship "Attraction" name "LOCATED_IN" "City"
               location pr gC).
  assert (HgR : nodes gR = nodes gC) by done.
  split; [|split; [|split]].
  - apply merge_node_frame; [done|by left|]. rewrite HgR.
    apply merge_node_frame; [done|by left|]. by apply merge_node_makes_settled.
  - apply merge_node_frame; [done|by left|]. rewrite HgR.
    by apply merge_node_makes_settled.
  - by apply merge_node_makes_settled.
  - rewrite !(merge_node_match_nodes_other "UpdateLog" log_id pl Hpl)
      by by left.
    rewrite merge_node_relationships.
    apply (foldl_merge_rel_settled "LOCATED_IN" pr _ [] (relationships gC)).
    constructor.
Qed.

(** X19: after [update_knowledge_graph] succeeds for a fact with a location
    that is not empty, the store holds the fact: [node_exists] answers True
    for the entity under its normalised name, for its city and for the audit
    entry; every node of the entity carries every attribute of
    [attraction_data] with the fact's value, every node of the audit entry
    carries the log data, and [get_relationships] returns a LOCATED_IN
    relationship from the entity to the city with the reason. *)
Theorem update_knowledge_graph_stores_fact (now1 now2 : string) (g g' : graph)
  (data : gmap string string) (log_id reason : string) (weights : W) :
  let d := preprocess_data data in
  let name := default "" (d !! "name") in
  let location := default "拉萨市" (d !! "location") in
  update_knowledge_graph str now1 now2 g data log_id reason weights = Ok g' ->
  data !! "location" <> Some "" ->
  node_exists "Attraction" name g' = true
  /\ node_exists "City" location g' = true
  /\ node_exists "UpdateLog" log_id g' = true
  /\ (forall n, n ∈ nodes g' -> matches "Attraction" name n = true ->
        attraction_data now1 d ⊆ node_props n)
  /\ (forall n, n ∈ nodes g' -> matches "UpdateLog" log_id n = true ->
        log_data str now2 name log_id reason weights ⊆ node_props n)
  /\ exists row, row ∈ get_relationships "Attraction" name g'
       /\ row_source_name row = Some name
       /\ row_type row = "LOCATED_IN"
       /\ row_target_name row = Some location
       /\ row_properties row !! "reason" = Some reason.
Proof.
  intros d name location. unfold update_knowledge_graph.
  destruct (String.eqb (default "" (data !! "name")) "") eqn:Hn; [done|].
  apply String.eqb_neq in Hn. intros [= <-] Hloc.
  assert (Hname : name <> "") by by apply preprocess_data_named.
  assert (Hlocation : location <> "").
  { unfold location, d. rewrite preprocess_data_lookup_ne by done.
    destruct (data !! "location") as [s|]; simpl; [congruence|done]. }
  destruct (tx_work_settled now1 now2 g d reason log_id weights Hname Hlocation)
    as ([(na & Hna & Hma) HA] & [(nc & Hnc & Hmc) HC] & [(nl & Hnl & Hml) HL] & HR).
  fold name location in HA, HC, HL, HR, Hma, Hmc, Hml.
  set (g' := tx_work str now1 now2 g d reason log_id weights) in *.
  change (tx_work str now1 now2 g (preprocess_data data) reason log_id weights)
    with g'.
  split; [apply node_exists_spec; by exists na|].
  split; [apply node_exists_spec; by exists nc|].
  split; [apply node_exists_spec; by exists nl|].
  split.
  { intros n Hin Hm. rewrite <- (HA n Hin Hm). apply map_union_subseteq_l. }
  split.
  { intros n Hin Hm. rewrite <- (HL n Hin Hm). apply map_union_subseteq_l. }
  apply list_elem_of_lookup_1 in Hna as [a Ha], Hnc as [c Hc].
  assert (Hrow : (a, c) ∈ (x ← match_nodes "Attraction" name g';
                           y ← match_nodes "City" location g'; [(x, y)])).
  { apply list_elem_of_bind. exists a. split.
    - apply list_elem_of_bind. exists c. split; [by apply list_elem_of_ret|].
      apply elem_of_match_nodes. by exists nc.
    - apply elem_of_match_nodes. by exists na. }
  apply (proj1 (Forall_forall _ _) HR) in Hrow as [(r & Hr & Hcon) Hsub].
  apply connects_spec in Hcon as (Hstart & Htype & Hend).
  cbn [fst snd] in Hstart, Hend.
  exists (RelRow (node_props na !! "name") (rel_type r)
                 (node_props nc !! "name") (rel_props r)).
  split.
  - unfold get_relationships. apply list_elem_of_omap. exists r.
    split; [exact Hr|]. rewrite Hstart, Hend, Ha, Hc. by rewrite Hma.
  - apply matches_spec in Hma as [_ Hna'], Hmc as [_ Hnc']. simpl.
    repeat split; try done.
    rewrite <- (Hsub r Hr) by (by apply connects_spec).
    apply lookup_union_Some_l, lookup_singleton_eq.
Qed.

(** What the transaction does to the node at a given position. *)
Lemma tx_work_lookup (now1 now2 : string) (g : graph)
  (d : gmap string string) (reason log_id : string) (weights : W)
  (i : nat) (n : node) :
  let name := default "" (d !! "name") in
  let location := default "拉萨市" (d !! "location") in
  nodes g !! i = Some n ->
  exists n', nodes (tx_work str now1 now2 g d reason log_id weights) !! i
             = Some n'
    /\ label n' = label n
    /\ node_props n' !! "name" = node_props n !! "name"
    /\ dom (node_props n) ⊆ dom (node_props n')
    /\ (matches "Attraction" name n = false ->
        matches "City" location n = false ->
        matches "UpdateLog" log_id n = false -> n' = n).
Proof.
  intros name location Hi.
  destruct (decide (name = "" \/ location = "")) as [Hskip|Hgo].
  { rewrite tx_work_skips by done. by exists n. }
  assert (Hname : name <> "") by (intros E; apply Hgo; by left).
  assert (Hloc : location <> "") by (intros E; apply Hgo; by right).
  rewrite (tx_work_merges str now1 now2 g d) by done. fold name location.
  set (pa := attraction_data now1 d).
  set (pc := ({[ "name" := location ]} : gmap string string)).
  set (pr := ({[ "reason" := reason ]} : gmap string string)).
  set (pl := log_data str now2 name log_id reason weights).
  assert (Hpa : pa !! "name" = Some name) by apply attraction_data_name.
  assert (Hpc : pc !! "name" = Some location) by apply lookup_singleton_eq.
  assert (Hpl : pl !! "name" = Some log_id) by apply log_data_name.
  set (gA := (merge_node "Attraction" name pa g).1).
  set (gC := (merge_node "City" location pc gA).1).
  set (gR := merge_relationship "Attraction" name "LOCATED_IN" "City"
               location pr gC).
  destruct (merge_node_lookup "Attraction" name pa g i n Hpa Hi)
    as (n1 & H1 & Hl1 & Hn1 & Hd1 & Hu1).
  destruct (merge_node_lookup "City" location pc gA i n1 Hpc H1)
    as (n2 & H2 & Hl2 & Hn2 & Hd2 & Hu2).
  destruct (merge_node_lookup "UpdateLog" log_id pl gR i n2 Hpl H2)
    as (n3 & H3 & Hl3 & Hn3 & Hd3 & Hu3).
  exists n3. split; [done|]. split; [congruence|]. split; [congruence|].
  split; [set_solver|].
  intros HA HC HL. rewrite Hu3, Hu2, Hu1; try done.
  + by rewrite Hu1.
  + by rewrite Hu2, Hu1; [| |rewrite Hu1].
Qed.

(** A node that exists is still there after the transaction. *)
Lemma tx_work_node_exists (now1 now2 : string) (g : graph)
  (d : gmap string string) (reason log_id : string) (weights : W)
  (l x : string) :
  node_exists l x g = true ->
  node_exists l x (tx_work str now1 now2 g d reason log_id weights) = true.
Proof.
  intros (n & [i Hi]%list_elem_of_lookup_1 & Hm)%node_exists_spec.
  destruct (tx_work_lookup now1 now2 g d reason log_id weights i n Hi)
    as (n' & Hi' & Hl & Hn & _).
  apply node_exists_spec. exists n'. split; [by eapply list_elem_of_lookup_2|].
  apply matches_spec. apply matches_spec in Hm as [Hml Hmn].
  split; congruence.
Qed.

(** The three nodes of a fact exist after its transaction. *)
Lemma tx_work_exists (now1 now2 : string) (g : graph)
  (d : gmap string string) (reason log_id : string) (weights : W) :
  let name := default "" (d !! "name") in
  let location := default "拉萨市" (d !! "location") in
  let g' := tx_work str now1 now2 g d reason log_id weights in
  name <> "" -> location <> "" ->
  node_exists "Attraction" name g' = true
  /\ node_exists "City" location g' = true
  /\ node_exists "UpdateLog" log_id g' = true.
Proof.
  intros name location g' Hname Hloc.
  destruct (tx_work_settled now1 now2 g d reason log_id weights Hname Hloc)
    as ([(na & Hna & Hma) _] & [(nc & Hnc & Hmc) _] & [(nl & Hnl & Hml) _] & _).
  split; [apply node_exists_spec; by exists na|].
  split; [apply node_exists_spec; by exists nc|].
  apply node_exists_spec; by exists nl.
Qed.

(** X20: [update_knowledge_graph] never removes anything: every node keeps
    its position, its label, its name and its attribute keys, a node that
    is neither the entity, nor its city, nor the audit entry is left as it
    is, at most three nodes are added, and every relationship keeps its
    position, its end points, its type and its property keys. *)
Theorem update_knowledge_graph_never_removes (now1 now2 : string)
  (g g' : graph) (data : gmap string string) (log_id reason : string)
  (weights : W) :
  let d := preprocess_data data in
  let name := default "" (d !! "name") in
  let location := default "拉萨市" (d !! "location") in
  update_knowledge_graph str now1 now2 g data log_id reason weights = Ok g' ->
  (forall i n, nodes g !! i = Some n ->
     exists n', nodes g' !! i = Some n'
       /\ label n' = label n
       /\ node_props n' !! "name" = node_props n !! "name"
       /\ dom (node_props n) ⊆ dom (node_props n')
       /\ (matches "Attraction" name n = false ->
           matches "City" location n = false ->
           matches "UpdateLog" log_id n = false -> n' = n))
  /\ (length (nodes g) <= length (nodes g') <= length (nodes g) + 3)%nat
  /\ (forall j r, relationships g !! j = Some r ->
        exists r', relationships g' !! j = Some r'
          /\ start_node r' = start_node r /\ rel_type r' = rel_type r
          /\ end_node r' = end_node r
          /\ dom (rel_props r) ⊆ dom (rel_props r')).
Proof.
  intros d name location. unfold update_knowledge_graph.
  destruct (String.eqb (default "" (data !! "name")) "") eqn:Hn; [done|].
  apply String.eqb_neq in Hn. intros [= <-].
  split; [intros i n Hi; by apply tx_work_lookup|].
  assert (Hname : name <> "") by by apply preprocess_data_named.
  destruct (decide (location = "")) as [Hloc|Hloc].
  { rewrite tx_work_skips by (by right). split; [lia|].
    intros j r Hj. by exists r. }
  rewrite (tx_work_merges str now1 now2 g d) by done. fold name location.
  set (pa := attraction_data now1 d).
  set (pc := ({[ "name" := location ]} : gmap string string)).
  set (pr := ({[ "reason" := reason ]} : gmap string string)).
  set (pl := log_data str now2 name log_id reason weights).
  assert (Hpa : pa !! "name" = Some name) by apply attraction_data_name.
  assert (Hpc : pc !! "name" = Some location) by apply lookup_singleton_eq.
  assert (Hpl : pl !! "name" = Some log_id) by apply log_data_name.
  set (gA := (merge_node "Attraction" name pa g).1).
  set (gC := (merge_node "City" location pc gA).1).
  set (gR := merge_relationship "Attraction" name "LOCATED_IN" "City"
               location pr gC).
  split.
  - pose proof (merge_node_length "Attraction" name pa g Hpa) as HlA.
    pose proof (merge_node_length "City" location pc gA Hpc) as HlC.
    pose proof (merge_node_length "UpdateLog" log_id pl gR Hpl) as HlL.
    fold gA in HlA. fold gC in HlC.
    assert (nodes gR = nodes gC) as HgR by done. rewrite HgR in HlL. lia.
  - intros j r Hj. rewrite merge_node_relationships.
    unfold gR, merge_relationship. cbn [relationships].
    apply foldl_merge_rel_lookup.
    unfold gC. rewrite merge_node_relationships.
    unfold gA. by rewrite merge_node_relationships.
Qed.

(** X21: a fact whose location is the empty string is accepted without an
    error and writes nothing: the store is returned unchanged, without an
    audit entry. *)
Theorem update_knowledge_graph_empty_location (now1 now2 : string) (g : graph)
  (data : gmap string string) (log_id reason : string) (weights : W) :
  default "" (data !! "name") <> "" -> data !! "location" = Some "" ->
  update_knowledge_graph str now1 now2 g data log_id reason weights = Ok g.
Proof.
  intros Hn%String.eqb_neq Hloc. unfold update_knowledge_graph. rewrite Hn.
  rewrite tx_work_skips; [done|]. right.
  by rewrite preprocess_data_lookup_ne, Hloc.
Qed.

(** X22: [update_knowledge_graph] never brings the alias spelling of Namtso
    into the store: a store without an Attraction node of that name has none
    after any update. *)
Theorem update_knowledge_graph_keeps_alias_out (now1 now2 : string)
  (g g' : graph) (data : gmap string string) (log_id reason : string)
  (weights : W) :
  node_exists "Attraction" "纳木错" g = false ->
  update_knowledge_graph str now1 now2 g data log_id reason weights = Ok g' ->
  node_exists "Attraction" "纳木错" g' = false.
Proof.
  intros Hnone. unfold update_knowledge_graph.
  destruct (String.eqb (default "" (data !! "name")) "") eqn:Hn; [done|].
  apply String.eqb_neq in Hn. intros [= <-].
  set (d := preprocess_data data).
  set (name := default "" (d !! "name")).
  set (location := default "拉萨市" (d !! "location")).
  assert (Hname : name <> "") by by apply preprocess_data_named.
  assert (Halias : name <> "纳木错") by apply preprocess_data_not_alias.
  destruct (decide (location = "")) as [Hloc|Hloc].
  { rewrite tx_work_skips by (by right). done. }
  rewrite (tx_work_merges str now1 now2 g d) by done. fold name location.
  unfold node_exists in *.
  rewrite (merge_node_match_nodes_other "UpdateLog" log_id _
             (log_data_name str now2 name log_id reason weights)) by by left.
  unfold match_nodes at 1, merge_relationship. cbn [nodes].
  fold (match_nodes "Attraction" "纳木错"
          (merge_node "City" location {[ "name" := location ]}
             (merge_node "Attraction" name (attraction_data now1 d) g).1).1).
  rewrite (merge_node_match_nodes_other "City" location _
             (lookup_singleton_eq _ _)) by by left.
  rewrite (merge_node_match_nodes_other "Attraction" name _
             (attraction_data_name now1 d)) by (right; congruence).
  done.
Qed.

End Updater.

Lemma update_knowledge_graph_stores_fact_witness :
  let d := preprocess_data namtso in
  let name := default "" (d !! "name") in
  let location := default "拉萨市" (d !! "location") in
  node_exists "Attraction" name first_graph = true
  /\ node_exists "City" location first_graph = true
  /\ node_exists "UpdateLog" "纳木错_2025-06-27" first_graph = true
  /\ (forall n, n ∈ nodes first_graph -> matches "Attraction" name n = true ->
        attraction_data "2025-06-27T22:40:00" d ⊆ node_props n)
  /\ (forall n, n ∈ nodes first_graph ->
        matches "UpdateLog" "纳木错_2025-06-27" n = true ->
        log_data snapshot "2025-06-27T22:40:01" name "纳木错_2025-06-27"
          "Initial import" tt ⊆ node_props n)
  /\ exists row, row ∈ get_relationships "Attraction" name first_graph
       /\ row_source_name row = Some name
       /\ row_type row = "LOCATED_IN"
       /\ row_target_name row = Some location
       /\ row_properties row !! "reason" = Some "Initial import".
Proof.
  apply (update_knowledge_graph_stores_fact snapshot
           "2025-06-27T22:40:00" "2025-06-27T22:40:01"
           Neo4j.empty first_graph namtso "纳木错_2025-06-27" "Initial import" tt).
  - reflexivity.
  - vm_compute. discriminate.
Defined.

Lemma update_knowledge_graph_never_removes_witness :
  let d := preprocess_data namtso in
  let name := default "" (d !! "name") in
  let location := default "拉萨市" (d !! "location") in
  (forall i n, nodes first_graph !! i = Some n ->
     exists n', nodes second_graph !! i = Some n'
       /\ label n' = label n
       /\ node_props n' !! "name" = node_props n !! "name"
       /\ dom (node_props n) ⊆ dom (node_props n')
       /\ (matches "Attraction" name n = false ->
           matches "City" location n = false ->
           matches "UpdateLog" "纳木错_2025-06-27" n = false -> n' = n))
  /\ (length (nodes first_graph) <= length (nodes second_graph)
      <= length (nodes first_graph) + 3)%nat
  /\ (forall j r, relationships first_graph !! j = Some r ->
        exists r', relationships second_graph !! j = Some r'
          /\ start_node r' = start_node r /\ rel_type r' = rel_type r
          /\ end_node r' = end_node r
          /\ dom (rel_props r) ⊆ dom (rel_props r')).
Proof.
  apply (update_knowledge_graph_never_removes snapshot
           "2025-06-27T22:50:00" "2025-06-27T22:50:01"
           first_graph second_graph namtso "纳木错_2025-06-27" "Initial import" tt).
  reflexivity.
Defined.

Lemma update_knowledge_graph_empty_location_witness :
  update_knowledge_graph snapshot "2025-06-27T22:40:00" "2025-06-27T22:40:01"
    after_namtso unplaced "Yamdrok_2025-06-27" "Initial import" tt
  = Ok after_namtso.
Proof.
  apply (update_knowledge_graph_empty_location snapshot
           "2025-06-27T22:40:00" "2025-06-27T22:40:01"
           after_namtso unplaced "Yamdrok_2025-06-27" "Initial import" tt).
  - vm_compute. discriminate.
  - vm_compute. reflexivity.
Defined.

Lemma update_knowledge_graph_keeps_alias_out_witness :
  node_exists "Attraction" "纳木错" first_graph = false.
Proof.
  apply (update_knowledge_graph_keeps_alias_out snapshot
           "2025-06-27T22:40:00" "2025-06-27T22:40:01"
           Neo4j.empty first_graph namtso "纳木错_2025-06-27" "Initial import" tt).
  - reflexivity.
  - reflexivity.
Defined.

End UpdaterMore.

(** ** The text pipeline *)

Module TextFacts.

Import Neo4j Neo4jFacts Neo4jCRUD CrudFacts KnowledgeGraphUpdater UpdaterFacts
  UpdaterMore TextProcessor.

Lemma int_quarters (c o : Z) :
  (0 <= c)%Z -> (0 <= o)%Z ->
  int (inject_Z c * 0.75 + inject_Z o * 0.5)%Q = ((3 * c + 2 * o) / 4)%Z.
Proof.
  intros Hc Ho. unfold int. cbn [Qnum Qden Qplus Qmult inject_Z].
  rewrite Z.quot_div_nonneg by lia.
  replace (c * 75 * Z.pos (1 * 10) + o * 5 * Z.pos (1 * 100))%Z
    with ((3 * c + 2 * o) * 250)%Z by lia.
  change (Z.pos (1 * 100 * (1 * 10))) with (4 * 250)%Z.
  rewrite Z.div_mul_cancel_r by lia. done.
Qed.

Lemma chinese_chars_le (t : text) :
  (length (filter (fun c => is_chinese c = true) t) <= length t)%nat.
Proof. apply length_filter. Qed.

(** X23: [estimate_tokens] is never negative, is at most three quarters of
    the number of characters, and is more than half of it less one. *)
Theorem estimate_tokens_bounds (t : text) :
  (0 <= estimate_tokens t)%Z
  /\ (4 * estimate_tokens t <= 3 * Z.of_nat (length t))%Z
  /\ (2 * Z.of_nat (length t) < 4 * estimate_tokens t + 4)%Z.
Proof.
  unfold estimate_tokens. pose proof (chinese_chars_le t) as Hle.
  set (c := Z.of_nat (length (filter _ t))) in *.
  assert (0 <= c <= Z.of_nat (length t))%Z as Hc by lia.
  rewrite int_quarters by lia.
  set (x := (3 * c + 2 * (Z.of_nat (length t) - c))%Z).
  pose proof (Z.mul_div_le x 4 ltac:(lia)).
  pose proof (Z.mul_succ_div_gt x 4 ltac:(lia)).
  assert (0 <= x / 4)%Z by (apply Z.div_pos; lia).
  lia.
Qed.

(** *** The chunks *)

Lemma chunk_tokens_app (c1 c2 : list text) :
  chunk_tokens (c1 ++ c2) = (chunk_tokens c1 + chunk_tokens c2)%Z.
Proof.
  unfold chunk_tokens. induction c1 as [|p c1 IH]; simpl; [done|].
  rewrite IH. lia.
Qed.

Lemma chunk_step_inv st done prompt :
  chunk_inv st done -> chunk_inv (chunk_step st prompt) (done ++ [prompt]).
Proof.
  destruct st as [[chunks current] count].
  intros (Hcat & Hcount & Hall & Hcur & Hne & Htail). unfold chunk_step.
  destruct (Z.ltb_spec max_input_tokens (count + estimate_tokens prompt)).
  - repeat split.
    + rewrite concat_app, <- Hcat. simpl. by rewrite app_nil_r.
    + unfold chunk_tokens. simpl. lia.
    + apply Forall_app. split; [done|]. by constructor.
    + by right.
    + done.
    + destruct chunks as [|c cs]; [constructor|]. simpl in *.
      apply Forall_app. split; [done|]. constructor; [|constructor].
      by apply Hne.
  - repeat split.
    + by rewrite <- Hcat, app_assoc.
    + rewrite chunk_tokens_app. unfold chunk_tokens at 2. simpl. lia.
    + done.
    + left. rewrite chunk_tokens_app. unfold chunk_tokens at 2. simpl. lia.
    + intros _. by destruct current.
    + done.
Qed.

Lemma foldl_chunk_step_inv prompts st done :
  chunk_inv st done ->
  chunk_inv (foldl chunk_step st prompts) (done ++ prompts).
Proof.
  revert st done. induction prompts as [|p ps IH]; intros st done H; simpl.
  - by rewrite app_nil_r.
  - replace (done ++ p :: ps) with ((done ++ [p]) ++ ps)
      by by rewrite <- app_assoc.
    by apply IH, chunk_step_inv.
Qed.

Lemma chunk_inv_init : chunk_inv ([], [], 0%Z) [].
Proof.
  unfold chunk_inv. split; [done|]. split; [done|]. split; [constructor|].
  split; [by left|]. split; [done|constructor].
Qed.

Lemma chunks_of_concat (prompts : list text) :
  concat (chunks_of prompts) = prompts.
Proof.
  unfold chunks_of.
  pose proof (foldl_chunk_step_inv prompts _ _ chunk_inv_init) as H.
  destruct (foldl chunk_step ([], [], 0%Z) prompts) as [[chunks current] count].
  destruct H as (Hcat & _).
  simpl in Hcat. destruct current as [|p current].
  - by rewrite app_nil_r in Hcat.
  - rewrite concat_app. simpl. by rewrite app_nil_r.
Qed.

(** X24: the chunks of [batch_call_deepseek] are the prompts in their order,
    none lost and none repeated; a chunk is within the input budget unless
    it is a single prompt; and only the first chunk can be empty. *)
Theorem chunks_of_partition (prompts : list text) :
  concat (chunks_of prompts) = prompts
  /\ Forall (fun chunk =>
               (chunk_tokens chunk <= max_input_tokens)%Z
               \/ length chunk = 1%nat) (chunks_of prompts)
  /\ Forall (fun chunk => chunk <> []) (tail (chunks_of prompts)).
Proof.
  unfold chunks_of.
  pose proof (foldl_chunk_step_inv prompts _ _ chunk_inv_init) as H.
  destruct (foldl chunk_step ([], [], 0%Z) prompts) as [[chunks current] count].
  destruct H as (Hcat & _ & Hall & Hcur & Hne & Htail).
  simpl in Hcat. destruct current as [|p current].
  - rewrite app_nil_r in Hcat. done.
  - split; [by rewrite concat_app; simpl; rewrite app_nil_r|].
    split; [apply Forall_app; split; [done|by constructor]|].
    destruct chunks as [|c cs]; [constructor|]. simpl in *.
    apply Forall_app. split; [done|]. by constructor.
Qed.

(** An oversized first prompt leaves an empty chunk before it. *)
Lemma chunks_of_oversized_first (prompt : text) (prompts : list text) :
  (max_input_tokens < estimate_tokens prompt)%Z ->
  exists rest, chunks_of (prompt :: prompts) = [] :: rest.
Proof.
  intros H. unfold chunks_of. simpl.
  destruct (Z.ltb_spec max_input_tokens (0 + estimate_tokens prompt));
    [|lia].
  assert (forall ps cs cur n, exists rest,
            (foldl chunk_step ([] :: cs, cur, n) ps).1.1 = [] :: rest) as Hk.
  { induction ps as [|q ps IH]; intros cs cur n; simpl; [by eexists|].
    destruct (max_input_tokens <? n + estimate_tokens q)%Z; apply IH. }
  destruct (Hk prompts [] [prompt] (estimate_tokens prompt)) as [rest Hrest].
  destruct (foldl chunk_step _ prompts) as [[chunks current] count].
  simpl in Hrest. subst chunks. destruct current; by eexists.
Qed.

Section BatchCallFacts.
Variable call : nat -> text -> string.

Lemma gather_chunks_concat (k : nat) (chunks : list (list text)) :
  gather_chunks call k chunks
  = imap (fun i prompt => call (k + i)%nat prompt) (concat chunks).
Proof.
  revert k. induction chunks as [|c cs IH]; intros k; simpl; [done|].
  rewrite imap_app, IH. unfold gather. f_equal.
  apply imap_ext. intros i p _. f_equal. lia.
Qed.

(** X25: [batch_call_deepseek] returns one result for every prompt, in the
    order of the prompts, whatever the chunks are: the result at a position
    is the outcome of the request for the prompt at that position. *)
Theorem batch_call_deepseek_aligned (prompts : list text) :
  batch_call_deepseek call prompts = imap call prompts
  /\ length (batch_call_deepseek call prompts) = length prompts
  /\ forall i prompt, prompts !! i = Some prompt ->
       batch_call_deepseek call prompts !! i = Some (call i prompt).
Proof.
  assert (batch_call_deepseek call prompts = imap call prompts) as E.
  { unfold batch_call_deepseek. rewrite gather_chunks_concat.
    by rewrite chunks_of_concat. }
  rewrite E. split; [done|]. split; [apply length_imap|].
  intros i p Hi. by rewrite list_lookup_imap, Hi.
Qed.

End BatchCallFacts.

(** *** Duplicate records *)

Lemma names_app (l1 l2 : list (gmap string string)) : names (l1 ++ l2) = names l1 ++ names l2.
Proof. apply omap_app. Qed.

Lemma elem_of_names (x : string) (l : list (gmap string string)) :
  x ∈ names l <-> exists n, n ∈ l /\ n !! "name" = Some x.
Proof. apply list_elem_of_omap. Qed.

Lemma names_cons (node : gmap string string) (name : string) (l : list (gmap string string)) :
  node !! "name" = Some name -> names (node :: l) = name :: names l.
Proof. intros H. unfold names. simpl. by rewrite H. Qed.

Lemma dedup_loop_spec (nodes : list (gmap string string)) :
  forall seen dups uniq d u,
  dedup_loop seen dups uniq nodes = Some (d, u) ->
  exists d' u',
    d = dups ++ d' /\ u = uniq ++ u'
    /\ sublist u' nodes
    /\ NoDup (names u')
    /\ (forall x, x ∈ names u' -> x ∉ seen)
    /\ (forall x, x ∈ names nodes -> x ∈ seen \/ x ∈ names u')
    /\ (forall x, x ∈ d' -> x ∈ seen \/ x ∈ names u')
    /\ (length u' + length d' = length nodes)%nat
    /\ (forall l1 n l2 x, nodes = l1 ++ n :: l2 -> n !! "name" = Some x ->
          x ∉ seen -> x ∉ names l1 -> n ∈ u')
    /\ (forall n, n ∈ u' ->
          exists l1 l2 x, nodes = l1 ++ n :: l2 /\ n !! "name" = Some x
                          /\ x ∉ names l1).
Proof.
  induction nodes as [|node rest IH]; intros seen dups uniq d u;
    cbn [dedup_loop].
  - intros [= <- <-]. exists [], []. rewrite !app_nil_r.
    split; [done|]. split; [done|]. split; [done|].
    split; [constructor|]. split; [by intros x Hx%elem_of_nil|].
    split; [by intros x Hx%elem_of_nil|].
    split; [by intros x Hx%elem_of_nil|]. split; [done|].
    split; [intros l1 n l2 x E; by destruct l1|].
    by intros n Hn%elem_of_nil.
  - destruct (node !! "name") as [name|] eqn:Hname;
      cbn [mbind option_bind]; [|done].
    destruct (decide (name ∈ seen)) as [Hin|Hnotin]; intros Hloop.
    + destruct (IH _ _ _ _ _ Hloop)
        as (d' & u' & -> & -> & Hsub & Hnd & Hfresh & Hcov & Hdup
            & Hcount & Hfirst & Hkept).
      exists (name :: d'), u'. rewrite <- app_assoc.
      split; [done|]. split; [done|]. split; [by apply sublist_cons|].
      split; [done|]. split; [done|]. rewrite (names_cons _ _ _ Hname).
      split; [|split; [|split; [|split]]].
      * intros x [->|Hx]%elem_of_cons; [by left|by apply Hcov].
      * intros x [->|Hx]%elem_of_cons; [by left|by apply Hdup].
      * simpl. lia.
      * intros l1 n l2 x E Hn Hx Hl1. destruct l1 as [|m l1].
        -- injection E as E1 E2. subst n l2. congruence.
        -- injection E as E1 E2. subst m rest.
           apply (Hfirst l1 n l2 x); try done.
           intros Hm. apply Hl1. rewrite (names_cons _ _ _ Hname).
           by right.
      * intros n Hn. destruct (Hkept n Hn) as (l1 & l2 & x & -> & Hx & Hl1).
        exists (node :: l1), l2, x. split; [done|]. split; [done|].
        rewrite (names_cons _ _ _ Hname).
        intros [->|Hm]%elem_of_cons; [|done].
        apply (Hfresh name); [|done]. apply elem_of_names. by exists n.
    + destruct (IH _ _ _ _ _ Hloop)
        as (d' & u' & -> & -> & Hsub & Hnd & Hfresh & Hcov & Hdup
            & Hcount & Hfirst & Hkept).
      exists d', (node :: u'). rewrite <- app_assoc.
      split; [done|]. split; [done|]. split; [by apply sublist_skip|].
      rewrite !(names_cons _ _ _ Hname).
      split; [|split; [|split; [|split; [|split; [|split]]]]].
      * constructor; [|done]. intros Hx. apply (Hfresh _ Hx). set_solver.
      * intros x [->|Hx]%elem_of_cons; [done|].
        intros Hs. apply (Hfresh _ Hx). set_solver.
      * intros x [->|Hx]%elem_of_cons; [right; by left|].
        destruct (Hcov x Hx) as [Hs|Hu]; [|right; by right].
        apply elem_of_union in Hs as [->%elem_of_singleton|Hs];
          [right; by left|by left].
      * intros x Hx. destruct (Hdup x Hx) as [Hs|Hu]; [|right; by right].
        apply elem_of_union in Hs as [->%elem_of_singleton|Hs];
          [right; by left|by left].
      * simpl. lia.
      * intros l1 n l2 x E Hn Hx Hl1. destruct l1 as [|m l1].
        -- injection E as E1 E2. subst n l2. by left.
        -- injection E as E1 E2. subst m rest. right.
           apply (Hfirst l1 n l2 x); try done.
           ++ intros [->%elem_of_singleton|Hs]%elem_of_union; [|done].
              apply Hl1. rewrite (names_cons _ _ _ Hname). by left.
           ++ intros Hm. apply Hl1. rewrite (names_cons _ _ _ Hname).
              by right.
      * intros n [->|Hn]%elem_of_cons.
        -- exists [], rest, name. split; [done|]. split; [done|].
           by intros Hx%elem_of_nil.
        -- destruct (Hkept n Hn) as (l1 & l2 & x & -> & Hx & Hl1).
           exists (node :: l1), l2, x. split; [done|]. split; [done|].
           rewrite (names_cons _ _ _ Hname).
           intros [->|Hm]%elem_of_cons; [|done].
           apply (Hfresh name); [|set_solver]. apply elem_of_names.
           by exists n.
Qed.

(** X26: the duplicate filter of [process_json_files] keeps, in their
    order, exactly the records that are the first of their name in the
    file: the names kept are pairwise different, every name of the file is
    kept, every record dropped is reported in [duplicates] under a name that
    was kept, and kept and reported records add up to the file. *)
Theorem dedup_keeps_first_occurrences (nodes : list (gmap string string))
  (duplicates : list string) (unique_nodes : list (gmap string string)) :
  dedup nodes = Some (duplicates, unique_nodes) ->
  sublist unique_nodes nodes
  /\ NoDup (names unique_nodes)
  /\ (forall n, n ∈ unique_nodes <->
        exists l1 l2 x, nodes = l1 ++ n :: l2 /\ n !! "name" = Some x
                        /\ x ∉ names l1)
  /\ (forall x, x ∈ names nodes <-> x ∈ names unique_nodes)
  /\ (forall x, x ∈ duplicates -> x ∈ names unique_nodes)
  /\ (length unique_nodes + length duplicates = length nodes)%nat.
Proof.
  intros H. destruct (dedup_loop_spec nodes _ _ _ _ _ H)
    as (d' & u' & -> & -> & Hsub & Hnd & Hfresh & Hcov & Hdup
        & Hcount & Hfirst & Hkept).
  simpl. split; [done|]. split; [done|].
  split; [|split; [|split; [|done]]].
  - intros n. split; [apply Hkept|].
    intros (l1 & l2 & x & -> & Hx & Hl1).
    apply (Hfirst l1 n l2 x); try done; set_solver.
  - intros x. split.
    + intros Hx. destruct (Hcov x Hx) as [Hs|Hu]; [set_solver|done].
    + intros (n & Hn & Hx)%elem_of_names. apply elem_of_names. exists n.
      split; [|done]. by eapply elem_of_sublist.
  - intros x Hx. destruct (Hdup x Hx) as [Hs|Hu]; [set_solver|done].
Qed.

(** A file with a record without a name is rejected as a whole. *)
Lemma dedup_unnamed (nodes : list (gmap string string)) :
  (exists n, n ∈ nodes /\ n !! "name" = None) <-> dedup nodes = None.
Proof.
  unfold dedup. generalize (∅ : gset string) ([] : list string)
    ([] : list (gmap string string)).
  induction nodes as [|node rest IH]; intros seen dups uniq; simpl.
  - split; [by intros (n & Hn%elem_of_nil & _)|done].
  - destruct (node !! "name") as [name|] eqn:Hname; simpl.
    + destruct (decide (name ∈ seen)) as [Hs|Hs]; rewrite <- IH; split.
      * intros (n & [->|Hn]%elem_of_cons & Hx); [congruence|by exists n].
      * intros (n & Hn & Hx). exists n. split; [by right|done].
      * intros (n & [->|Hn]%elem_of_cons & Hx); [congruence|by exists n].
      * intros (n & Hn & Hx). exists n. split; [by right|done].
    + split; [done|]. intros _. exists node. split; [by left|done].
Qed.

(** *** Batches *)

Lemma slices_concat (m : nat) (l : list (gmap string string)) :
  (length l <= m * 3)%nat ->
  concat ((fun k => take 3 (drop (k * 3) l)) <$> seq 0 m) = l.
Proof.
  revert l. induction m as [|m IH]; intros l Hl.
  - by destruct l; [|simpl in Hl; lia].
  - rewrite <- cons_seq, <- fmap_S_seq, fmap_cons, <- list_fmap_compose.
    cbn [concat drop Nat.mul].
    assert (length (drop 3 l) <= m * 3)%nat as Hd
      by (rewrite length_drop; lia).
    etransitivity; [|exact (take_drop 3 l)]. f_equal.
    etransitivity; [|exact (IH (drop 3 l) Hd)]. f_equal.
    apply list_fmap_ext. intros i k _. simpl. by rewrite drop_drop.
Qed.

Lemma batches_count (n : nat) :
  (n <= (n + 3 - 1) / 3 * 3 < n + 3)%nat.
Proof.
  pose proof (Nat.div_mod_eq (n + 3 - 1) 3).
  pose proof (Nat.mod_upper_bound (n + 3 - 1) 3). lia.
Qed.

Lemma batches_lookup (l : list (gmap string string)) (i : nat) (b : list (gmap string string)) :
  batches l !! i = Some b <->
  b = take 3 (drop (i * 3) l) /\ (i < (length l + 3 - 1) / 3)%nat.
Proof.
  unfold batches, range, batch_size.
  rewrite <- list_fmap_compose, list_lookup_fmap. split.
  - destruct (seq _ _ !! i) as [k|] eqn:E; [|done].
    apply lookup_seq in E as [-> Hi]. simpl. by intros [= <-].
  - intros [-> Hi]. by rewrite lookup_seq_lt.
Qed.

(** X27: the batches of [process_json_files] are the unique records in
    their order, each in exactly one batch; no batch is empty, none has
    more than three records, and every batch but the last has three. *)
Theorem batches_partition (unique_nodes : list (gmap string string)) :
  concat (batches unique_nodes) = unique_nodes
  /\ Forall (fun batch => (1 <= length batch <= 3)%nat) (batches unique_nodes)
  /\ forall i batch, batches unique_nodes !! i = Some batch ->
       (S i < length (batches unique_nodes))%nat -> length batch = 3%nat.
Proof.
  pose proof (batches_count (length unique_nodes)) as Hm.
  split; [|split].
  - unfold batches, range, batch_size. rewrite <- list_fmap_compose.
    apply slices_concat. lia.
  - apply Forall_lookup. intros i b [-> Hi]%batches_lookup.
    rewrite length_take, length_drop. lia.
  - intros i b [-> Hi]%batches_lookup.
    unfold batches, range, batch_size.
    rewrite !length_fmap, length_seq. intros Hlast.
    rewrite length_take, length_drop. lia.
Qed.

(** *** Pairs *)

Lemma node_pairs_cons (x : gmap string string) (l : list (gmap string string)) :
  node_pairs (x :: l)
  = omap (fun node2 => if decide (x !! "name" <> node2 !! "name")
                       then Some (x, node2) else None) l
    ++ node_pairs l.
Proof. done. Qed.

Lemma length_omap_le {A B} (f : A -> option B) (l : list A) :
  (length (omap f l) <= length l)%nat.
Proof.
  induction l as [|x l IH]; [done|].
  cbn. destruct (f x); cbn; fold (omap f l); lia.
Qed.

Lemma node_pairs_length (l : list (gmap string string)) :
  (2 * length (node_pairs l) <= length l * (length l - 1))%nat.
Proof.
  induction l as [|x l IH]; [done|].
  rewrite node_pairs_cons, length_app.
  pose proof (length_omap_le
    (fun node2 => if decide (x !! "name" <> node2 !! "name")
                  then Some (x, node2) else None) l).
  simpl length. nia.
Qed.

Lemma elem_of_node_pairs (l : list (gmap string string)) (a b : gmap string string) :
  (a, b) ∈ node_pairs l <->
  exists i j, (i < j)%nat /\ l !! i = Some a /\ l !! j = Some b
              /\ a !! "name" <> b !! "name".
Proof.
  induction l as [|x l IH].
  - split; [by intros H%elem_of_nil|]. by intros (i & j & _ & H & _).
  - rewrite node_pairs_cons, elem_of_app, list_elem_of_omap, IH. split.
    + intros [(y & Hy & Hxy)|(i & j & Hij & Hi & Hj & Hne)].
      * destruct (decide (x !! "name" <> y !! "name")) as [Hne|]; [|done].
        injection Hxy as <- <-.
        apply list_elem_of_lookup_1 in Hy as [j Hj].
        exists 0%nat, (S j). repeat split; try done. lia.
      * exists (S i), (S j). repeat split; try done. lia.
    + intros (i & j & Hij & Hi & Hj & Hne).
      destruct i as [|i]; destruct j as [|j]; try lia; simpl in *.
      * left. injection Hi as ->. exists b. split.
        -- by eapply list_elem_of_lookup_2.
        -- by rewrite decide_True.
      * right. exists i, j. repeat split; try done. lia.
Qed.

(** X28: [process_json_chunk] asks for the relationships of exactly the
    pairs of records of different names, the first standing before the
    second in the filtered list; for [n] records that is at most
    [n (n - 1) / 2] requests. *)
Theorem node_pairs_ordered (filtered_data : list (gmap string string)) :
  (forall a b, (a, b) ∈ node_pairs filtered_data <->
     exists i j, (i < j)%nat /\ filtered_data !! i = Some a
                 /\ filtered_data !! j = Some b
                 /\ a !! "name" <> b !! "name")
  /\ (2 * length (node_pairs filtered_data)
      <= length filtered_data * (length filtered_data - 1))%nat.
Proof.
  split; [apply elem_of_node_pairs|apply node_pairs_length].
Qed.

(** X29: the records of one batch give at most three pairs, whatever the
    filter keeps of them: relationships are only looked for inside a batch
    of three. *)
Theorem node_pairs_of_a_batch (unique_nodes batch filtered_data : list (gmap string string)) :
  batch ∈ batches unique_nodes -> sublist filtered_data batch ->
  (length (node_pairs filtered_data) <= 3)%nat
  /\ forall a b, (a, b) ∈ node_pairs filtered_data -> a ∈ batch /\ b ∈ batch.
Proof.
  intros [i [-> Hi]%batches_lookup]%list_elem_of_lookup_1 Hsub.
  apply sublist_length in Hsub as Hlen.
  rewrite length_take in Hlen. split.
  - pose proof (node_pairs_length filtered_data). nia.
  - intros a b (k & j & _ & Hk & Hj & _)%elem_of_node_pairs.
    split; eapply elem_of_sublist; try exact Hsub;
      by eapply list_elem_of_lookup_2.
Qed.

(** *** The loop over the records *)

Lemma preprocess_data_canonical (d : gmap string string) (name : string) :
  d !! "name" = Some name ->
  preprocess_data d !! "name" = Some (canonical_name name).
Proof.
  intros H. unfold preprocess_data, canonical_name.
  destruct (decide (name = "纳木错")) as [->|Hne].
  - rewrite decide_True by done. by rewrite lookup_insert_eq.
  - rewrite decide_False by congruence. done.
Qed.

Lemma canonical_name_named (name : string) :
  name <> "" -> canonical_name name <> "".
Proof. intros H. unfold canonical_name. by case_decide. Qed.

Lemma location_or_default_named (it : gmap string string) : location_or_default it <> "".
Proof.
  unfold location_or_default, truthy.
  destruct (it !! "location") as [s|]; simpl; [|done].
  destruct (String.eqb s "") eqn:E; simpl; [done|].
  by apply String.eqb_neq.
Qed.

Section ProcessChunkFacts.
Variable extract_best_comment : string -> string.
Variable infer_description : string -> string -> string.
Variable crawl_timestamp : string.
Variable clock : nat -> string.

Lemma extract_relationships_stages (it : gmap string string) :
  exists d c,
    d !! "name" = it !! "name"
    /\ d !! "location" = Some (location_or_default it)
    /\ extract_relationships extract_best_comment infer_description it
       = (_ ← d !! "name"; Some (d, c)).
Proof.
  unfold extract_relationships, location_or_default.
  set (d1 := if truthy (it !! "best_comment") then it else _).
  assert (d1 !! "name" = it !! "name" /\ d1 !! "location" = it !! "location")
    as [Hn1 Hl1].
  { unfold d1. destruct (truthy (it !! "best_comment")); [done|].
    by rewrite !lookup_insert_ne. }
  set (d2 := if truthy (d1 !! "location") then d1 else _).
  assert (d2 !! "name" = it !! "name"
          /\ d2 !! "location"
             = Some (if truthy (it !! "location")
                     then default "" (it !! "location") else "拉萨市"))
    as [Hn2 Hl2].
  { unfold d2. rewrite Hl1. destruct (truthy (it !! "location")) eqn:Ht.
    - split; [done|]. rewrite Hl1.
      destruct (it !! "location"); [done|discriminate].
    - split; [by rewrite lookup_insert_ne|by rewrite lookup_insert_eq]. }
  set (d3 := if truthy (d2 !! "description") then d2 else _).
  assert (d3 !! "name" = it !! "name" /\ d3 !! "location" = d2 !! "location")
    as [Hn3 Hl3].
  { unfold d3. destruct (truthy (d2 !! "description")); [done|].
    by rewrite !lookup_insert_ne. }
  eexists d3, _. split; [done|]. split; [by rewrite Hl3|done].
Qed.

Lemma extract_relationships_unnamed (it : gmap string string) :
  it !! "name" = None ->
  extract_relationships extract_best_comment infer_description it = None.
Proof.
  intros H. destruct (extract_relationships_stages it) as (d & c & Hd & _ & ->).
  by rewrite Hd, H.
Qed.

Lemma extract_relationships_named (it : gmap string string) (name : string) :
  it !! "name" = Some name ->
  exists d c,
    extract_relationships extract_best_comment infer_description it
    = Some (d, c)
    /\ d !! "name" = Some name
    /\ d !! "location" = Some (location_or_default it).
Proof.
  intros H. destruct (extract_relationships_stages it) as (d & c & Hd & Hl & ->).
  exists d, c. rewrite Hd, H. split; [done|]. split; [done|]. done.
Qed.

Lemma process_item_failed (now1 now2 : string) (g : graph) (it : gmap string string) :
  truthy (it !! "name") = false ->
  process_item extract_best_comment infer_description crawl_timestamp
    now1 now2 g it
  = (g, Entry (default "Unknown" (it !! "name")) failed).
Proof.
  intros Ht. unfold process_item.
  destruct (it !! "name") as [name|] eqn:Hname.
  - destruct (extract_relationships_named it name Hname)
      as (d & c & -> & Hd & _).
    rewrite Hd. unfold update_knowledge_graph. rewrite Hd. simpl.
    simpl in Ht. apply negb_false_iff in Ht. by rewrite Ht.
  - by rewrite extract_relationships_unnamed.
Qed.

Lemma process_item_success (now1 now2 : string) (g : graph) (it : gmap string string)
  (name : string) :
  it !! "name" = Some name -> name <> "" ->
  exists d,
    d !! "name" = Some name
    /\ d !! "location" = Some (location_or_default it)
    /\ process_item extract_best_comment infer_description crawl_timestamp
         now1 now2 g it
       = (tx_work snapshot now1 now2 g (preprocess_data d) reason
            (name +:+ "_" +:+ crawl_timestamp) tt,
          Entry (canonical_name name) success).
Proof.
  intros Hname Hne. unfold process_item.
  destruct (extract_relationships_named it name Hname)
    as (d & c & -> & Hd & Hl).
  exists d. split; [done|]. split; [done|].
  rewrite Hd. unfold update_knowledge_graph. rewrite Hd. simpl.
  apply String.eqb_neq in Hne. rewrite Hne.
  by rewrite (preprocess_data_canonical d name Hd).
Qed.

Lemma process_item_node_exists (now1 now2 : string) (g : graph) (it : gmap string string)
  (l x : string) :
  node_exists l x g = true ->
  node_exists l x
    (process_item extract_best_comment infer_description crawl_timestamp
       now1 now2 g it).1 = true.
Proof.
  intros H. destruct (truthy (it !! "name")) eqn:Ht.
  - destruct (it !! "name") as [name|] eqn:Hname; [|done].
    assert (name <> "") as Hne.
    { simpl in Ht. apply negb_true_iff in Ht. by apply String.eqb_neq. }
    destruct (process_item_success now1 now2 g it name Hname Hne)
      as (d & _ & _ & ->).
    by apply tx_work_node_exists.
  - by rewrite process_item_failed.
Qed.

Lemma process_items_node_exists (data : list (gmap string string)) (k : nat) (g : graph)
  (l x : string) :
  node_exists l x g = true ->
  node_exists l x
    (process_items extract_best_comment infer_description crawl_timestamp
       clock k g data).1 = true.
Proof.
  revert k g. induction data as [|it rest IH]; intros k g H; [done|].
  cbn [process_items].
  generalize (clock (2 * k)) (clock (2 * k + 1)). intros now1 now2.
  pose proof (process_item_node_exists now1 now2 g it l x H) as H1.
  destruct (process_item _ _ _ _ _ g it) as [g1 e].
  pose proof (IH (S k) g1 H1) as H2.
  by destruct (process_items _ _ _ _ (S k) g1 rest) as [g2 es].
Qed.

(** X30: the loop of [process_json_chunk] over the records reports every
    record once, in order.  A record without a name, or with an empty one,
    is reported as failed under the name given (or Unknown), and a chunk of
    such records leaves the store as it was.  Every other record is reported
    as a success under its canonical name, and after the loop the store
    holds its entity, its city (Lhasa when the record names none) and its
    audit entry. *)
Theorem process_items_report (data : list (gmap string string)) (k : nat) (g g' : graph)
  (results : list entry) :
  process_items extract_best_comment infer_description crawl_timestamp
    clock k g data = (g', results) ->
  length results = length data
  /\ (Forall (fun it => truthy (it !! "name") = false) data -> g' = g)
  /\ forall i it, data !! i = Some it ->
       (truthy (it !! "name") = false ->
        results !! i = Some (Entry (default "Unknown" (it !! "name")) failed))
       /\ (forall name, it !! "name" = Some name -> name <> "" ->
             results !! i = Some (Entry (canonical_name name) success)
             /\ node_exists "Attraction" (canonical_name name) g' = true
             /\ node_exists "City" (location_or_default it) g' = true
             /\ node_exists "UpdateLog" (name +:+ "_" +:+ crawl_timestamp) g'
                = true).
Proof.
  revert k g g' results.
  induction data as [|it rest IH]; intros k g g' results.
  - intros [= <- <-]. split; [done|]. split; [done|]. by intros i it' H.
  - cbn [process_items].
    generalize (clock (2 * k)) (clock (2 * k + 1)). intros now1 now2.
    pose proof (process_item_failed now1 now2 g it) as Hfail.
    pose proof (process_item_success now1 now2 g it) as Hok.
    destruct (process_item _ _ _ _ _ g it) as [g1 e].
    pose proof (fun l x => process_items_node_exists rest (S k) g1 l x)
      as Hmono.
    destruct (process_items _ _ _ _ (S k) g1 rest) as [g2 es] eqn:Hrest.
    destruct (IH _ _ _ _ Hrest) as (Hlen & Hnone & Hall).
    intros [= <- <-]. split; [simpl; by rewrite Hlen|]. split.
    { intros [Hit Hrs]%Forall_cons. rewrite (Hnone Hrs).
      by injection (Hfail Hit). }
    intros [|i] it' Hi; [|by apply Hall].
    injection Hi as <-. split.
    + intros Hit. by injection (Hfail Hit) as _ <-.
    + intros name Hname Hne.
      destruct (Hok name Hname Hne) as (d & Hd & Hl & [= -> ->]).
      split; [done|].
      assert (canonical_name name <> "") as Hcn
        by by apply canonical_name_named.
      destruct (tx_work_exists snapshot now1 now2 g
                  (preprocess_data d) reason
                  (name +:+ "_" +:+ crawl_timestamp) tt)
        as (HA & HC & HL).
      * by rewrite (preprocess_data_canonical d name Hd).
      * rewrite preprocess_data_lookup_ne, Hl by done.
        apply location_or_default_named.
      * rewrite (preprocess_data_canonical d name Hd) in HA.
        rewrite preprocess_data_lookup_ne, Hl in HC by done.
        simpl in HA, HC, Hmono.
        split; [by apply Hmono|]. split; by apply Hmono.
Qed.

End ProcessChunkFacts.

Lemma chunks_of_oversized_first_witness :
  exists rest, chunks_of [long_prompt; [97%N]] = [] :: rest.
Proof.
  apply (chunks_of_oversized_first long_prompt [[97%N]]).
  vm_compute. reflexivity.
Defined.

Lemma dedup_keeps_first_occurrences_witness :
  sublist [potala; jokhang] [potala; potala_again; jokhang]
  /\ NoDup (names [potala; jokhang])
  /\ (forall n, n ∈ [potala; jokhang] <->
        exists l1 l2 x, [potala; potala_again; jokhang] = l1 ++ n :: l2
                        /\ n !! "name" = Some x /\ x ∉ names l1)
  /\ (forall x, x ∈ names [potala; potala_again; jokhang]
                <-> x ∈ names [potala; jokhang])
  /\ (forall x, x ∈ ["布达拉宫"] -> x ∈ names [potala; jokhang])
  /\ (length [potala; jokhang] + length ["布达拉宫"]
      = length [potala; potala_again; jokhang])%nat.
Proof.
  apply (dedup_keeps_first_occurrences [potala; potala_again; jokhang]
           ["布达拉宫"] [potala; jokhang]).
  vm_compute. reflexivity.
Defined.

Lemma node_pairs_of_a_batch_witness :
  (length (node_pairs [potala; barkhor]) <= 3)%nat
  /\ forall a b, (a, b) ∈ node_pairs [potala; barkhor] ->
       a ∈ [potala; jokhang; barkhor] /\ b ∈ [potala; jokhang; barkhor].
Proof.
  apply (node_pairs_of_a_batch [potala; jokhang; barkhor; norbulingka]
           [potala; jokhang; barkhor] [potala; barkhor]).
  - apply (list_elem_of_lookup_2 _ 0). reflexivity.
  - apply sublist_skip, sublist_cons, sublist_skip. constructor.
Defined.

Lemma process_items_report_witness :
  length report.2 = 3%nat
  /\ (Forall (fun it => truthy (it !! "name") = false)
        [potala; unnamed; jokhang] -> report.1 = Neo4j.empty)
  /\ forall i it, [potala; unnamed; jokhang] !! i = Some it ->
       (truthy (it !! "name") = false ->
        report.2 !! i = Some (Entry (default "Unknown" (it !! "name")) failed))
       /\ (forall name, it !! "name" = Some name -> name <> "" ->
             report.2 !! i = Some (Entry (canonical_name name) success)
             /\ node_exists "Attraction" (canonical_name name) report.1 = true
             /\ node_exists "City" (location_or_default it) report.1 = true
             /\ node_exists "UpdateLog" (name +:+ "_" +:+ "2025-06-27") report.1
                = true).
Proof.
  apply (process_items_report (fun _ => "A place worth the climb.")
           (fun name _ => "Description for " +:+ name) "2025-06-27"
           (fun _ => "2025-06-27T22:40:00") [potala; unnamed; jokhang] 0
           Neo4j.empty report.1 report.2).
  unfold report. by destruct (process_items _ _ _ _ _ _ _).
Defined.

End TextFacts.
